(** * Dependency checker (cli/dependency_checker.py): model and properties

    A shallow embedding of [DependencyChecker]: the two manifest parsers,
    the local audit providers, the remote (NVD) provider and the
    orchestrator [scan_directory], followed by the properties proved of
    them.

    Conventions of the embedding.
    - A Python [str] is a [string]; one [ascii] stands for one character
      (code points below 256).
    - A value produced by [json.loads] is a [json] term.  A dict is an
      association list in insertion order.
    - A Python exception is an [exn]; a computation that may raise has a
      result in [res].
    - Library calls whose behaviour is not in the repository
      ([json.loads], the text [str()] gives for a list or a dict) are
      parameters of the development; the outcome of a subprocess, of a
      file read and of an HTTP request is data supplied by the caller. *)

From Stdlib Require Import List String Ascii Bool Arith ZArith QArith Lia.
Import ListNotations.

Local Open Scope nat_scope.
Local Open Scope list_scope.
Local Open Scope string_scope.

(** ** Exceptions and fallible results *)

Inductive exn : Type :=
| TimeoutExpired
| CalledProcessError
| JSONDecodeError
| FileNotFoundError
| KeyError
| IndexError
| AttributeError
| TypeError
| RequestException
| UnicodeDecodeError
| PermissionError.

Inductive res (A : Type) : Type :=
| Ok (a : A)
| Err (e : exn).

Arguments Ok {A} a.
Arguments Err {A} e.

Definition bind {A B : Type} (r : res A) (f : A -> res B) : res B :=
  match r with
  | Ok a => f a
  | Err e => Err e
  end.

Notation "x <- r ;; k" := (bind r (fun x => k))
  (at level 61, r at next level, right associativity).

(** A [for] loop over [xs] whose body updates a state and may raise: the
    state reached when the exception is raised is kept, as a Python list
    keeps what was appended to it before the exception. *)
Fixpoint for_each {X S : Type} (body : X -> S -> S * res unit)
         (xs : list X) (s : S) : S * res unit :=
  match xs with
  | [] => (s, Ok tt)
  | x :: rest =>
      match body x s with
      | (s', Ok _) => for_each body rest s'
      | (s', Err e) => (s', Err e)
      end
  end.

(** ** Characters and strings *)

Definition in_range (lo hi c : ascii) : bool :=
  Nat.leb (nat_of_ascii lo) (nat_of_ascii c)
  && Nat.leb (nat_of_ascii c) (nat_of_ascii hi).

(** Characters for which [str.isspace()] holds, which are also the ones
    [\s] matches in a [str] pattern. *)
Definition is_space (c : ascii) : bool :=
  let n := nat_of_ascii c in
  (Nat.leb 9 n && Nat.leb n 13) || (Nat.leb 28 n && Nat.leb n 32)
  || Nat.eqb n 133 || Nat.eqb n 160.

Definition is_digit (c : ascii) : bool := in_range "0" "9" c.

(** [[a-zA-Z0-9_-]] *)
Definition is_name_char (c : ascii) : bool :=
  in_range "a" "z" c || in_range "A" "Z" c || is_digit c
  || Ascii.eqb c "_" || Ascii.eqb c "-".

(** [[><=!]] *)
Definition is_op_char (c : ascii) : bool :=
  Ascii.eqb c ">" || Ascii.eqb c "<" || Ascii.eqb c "=" || Ascii.eqb c "!".

(** [[0-9.]] *)
Definition is_version_char (c : ascii) : bool :=
  is_digit c || Ascii.eqb c ".".

(** [[\^~>=<]] *)
Definition is_range_char (c : ascii) : bool :=
  Ascii.eqb c "^" || Ascii.eqb c "~" || Ascii.eqb c ">"
  || Ascii.eqb c "=" || Ascii.eqb c "<".

Fixpoint take_while (p : ascii -> bool) (s : string) : string :=
  match s with
  | EmptyString => EmptyString
  | String c t => if p c then String c (take_while p t) else EmptyString
  end.

Fixpoint drop_while (p : ascii -> bool) (s : string) : string :=
  match s with
  | EmptyString => EmptyString
  | String c t => if p c then drop_while p t else s
  end.

Fixpoint str_filter (p : ascii -> bool) (s : string) : string :=
  match s with
  | EmptyString => EmptyString
  | String c t => if p c then String c (str_filter p t) else str_filter p t
  end.

Fixpoint str_forall (p : ascii -> bool) (s : string) : bool :=
  match s with
  | EmptyString => true
  | String c t => p c && str_forall p t
  end.

Definition is_empty (s : string) : bool :=
  match s with
  | EmptyString => true
  | String _ _ => false
  end.

Definition lstrip (s : string) : string := drop_while is_space s.

Fixpoint rstrip (s : string) : string :=
  match s with
  | EmptyString => EmptyString
  | String c t =>
      let t' := rstrip t in
      if is_space c && is_empty t' then EmptyString else String c t'
  end.

(** [s.strip()] *)
Definition py_strip (s : string) : string := rstrip (lstrip s).

(** [s.startswith(p)] *)
Fixpoint startswith (p s : string) : bool :=
  match p with
  | EmptyString => true
  | String a p' =>
      match s with
      | EmptyString => false
      | String b s' => Ascii.eqb a b && startswith p' s'
      end
  end.

(** [f.readlines()] on the decoded text of a file opened in text mode:
    the lines, each ended by a newline (a carriage return, with or without
    a newline after it, ends a line too and is read as a newline). *)
Definition newline : ascii := "010".
Definition carriage_return : ascii := "013".

Fixpoint readlines_from (cur : string) (s : string) : list string :=
  match s with
  | EmptyString => if is_empty cur then [] else [cur]
  | String c t =>
      if Ascii.eqb c newline
      then (cur ++ String newline EmptyString) :: readlines_from EmptyString t
      else if Ascii.eqb c carriage_return
      then (cur ++ String newline EmptyString)
             :: match t with
                | String c' t' =>
                    if Ascii.eqb c' newline
                    then readlines_from EmptyString t'
                    else readlines_from EmptyString t
                | EmptyString => []
                end
      else readlines_from (cur ++ String c EmptyString) t
  end.

Definition readlines (s : string) : list string := readlines_from EmptyString s.

(** ** JSON values as Python sees them *)

(** A number is kept as what the code can observe of it: its value (for
    [==] and truth) and the text [str()] gives for it.  The values
    [json.loads] reads from the literals NaN and Infinity, which are not
    JSON, are not represented. *)
Record pynum : Type := { num_val : Q; num_text : string }.

#[warnings="-register-all"]
Inductive json : Type :=
| JNull
| JBool (b : bool)
| JNum (n : pynum)
| JStr (s : string)
| JArr (items : list json)
| JObj (fields : list (string * json)).

Fixpoint assoc {V : Type} (k : string) (kvs : list (string * V)) : option V :=
  match kvs with
  | [] => None
  | (k', v) :: rest => if String.eqb k k' then Some v else assoc k rest
  end.

Definition is_dict (j : json) : bool :=
  match j with JObj _ => true | _ => false end.

(** Truth value of a value in an [if]. *)
Definition py_truthy (j : json) : bool :=
  match j with
  | JNull => false
  | JBool b => b
  | JNum n => negb (Qeq_bool (num_val n) (0 # 1))
  | JStr s => negb (is_empty s)
  | JArr l => match l with [] => false | _ => true end
  | JObj kvs => match kvs with [] => false | _ => true end
  end.

(** The number a value is compared as, if it is one ([True == 1]). *)
Definition as_number (j : json) : option Q :=
  match j with
  | JBool true => Some (1 # 1)
  | JBool false => Some (0 # 1)
  | JNum n => Some (num_val n)
  | _ => None
  end.

(** [a == b] on values that can be hashed (no list, no dict). *)
Definition py_eqb (a b : json) : bool :=
  match as_number a, as_number b with
  | Some x, Some y => Qeq_bool x y
  | None, None =>
      match a, b with
      | JNull, JNull => true
      | JStr s, JStr t => String.eqb s t
      | _, _ => false
      end
  | _, _ => false
  end.

Definition hashable (j : json) : bool :=
  match j with
  | JArr _ | JObj _ => false
  | _ => true
  end.

(** [j.get(k, default)] *)
Definition py_get (j : json) (k : string) (default : json) : res json :=
  match j with
  | JObj kvs => Ok (match assoc k kvs with Some v => v | None => default end)
  | _ => Err AttributeError
  end.

(** [j.items()] *)
Definition py_items (j : json) : res (list (string * json)) :=
  match j with
  | JObj kvs => Ok kvs
  | _ => Err AttributeError
  end.

(** [k in j] for a string [k] *)
Definition py_in (k : string) (j : json) : res bool :=
  match j with
  | JObj kvs => Ok (match assoc k kvs with Some _ => true | None => false end)
  | JArr l => Ok (existsb (py_eqb (JStr k)) l)
  | JStr s =>
      Ok (match String.index 0 k s with Some _ => true | None => false end)
  | _ => Err TypeError
  end.

(** [j[k]] for a string [k] *)
Definition py_getitem (j : json) (k : string) : res json :=
  match j with
  | JObj kvs => match assoc k kvs with Some v => Ok v | None => Err KeyError end
  | _ => Err TypeError
  end.

(** [j[0]] *)
Definition py_getitem0 (j : json) : res json :=
  match j with
  | JArr (x :: _) => Ok x
  | JArr [] => Err IndexError
  | JStr (String c _) => Ok (JStr (String c EmptyString))
  | JStr EmptyString => Err IndexError
  | JObj _ => Err KeyError
  | _ => Err TypeError
  end.

Definition chars (s : string) : list json :=
  map (fun c => JStr (String c EmptyString)) (list_ascii_of_string s).

(** The elements a [for] loop over [j] visits. *)
Definition py_iter (j : json) : res (list json) :=
  match j with
  | JArr l => Ok l
  | JObj kvs => Ok (map (fun kv => JStr (fst kv)) kvs)
  | JStr s => Ok (chars s)
  | _ => Err TypeError
  end.

(** [sep.join(parts)] *)
Fixpoint py_join (sep : string) (parts : list json) : res string :=
  match parts with
  | [] => Ok EmptyString
  | JStr s :: rest =>
      match rest with
      | [] => Ok s
      | _ => t <- py_join sep rest ;; Ok (s ++ sep ++ t)
      end
  | _ :: _ => Err TypeError
  end.

(** [try: body  except (caught): pass] around a block that updates a
    state. *)
Definition try_except {S : Type} (caught : exn -> bool)
           (body : S * res unit) : S * res unit :=
  match body with
  | (s, Err e) => if caught e then (s, Ok tt) else (s, Err e)
  | (s, Ok u) => (s, Ok u)
  end.

(** What a block leaves to the code after it: the state, unless an
    exception went through. *)
Definition returning {S : Type} (body : S * res unit) : res S :=
  match body with
  | (s, Ok _) => Ok s
  | (_, Err e) => Err e
  end.

(** ** The line-oriented manifest (requirements.txt) *)

(** [re.match(r'^([a-zA-Z0-9_-]+)\s*([><=!]+)\s*([0-9.]+)', line)]: groups
    1 and 3 of the match.  The four classes that follow one another are
    pairwise disjoint, so each greedy run is the only length that lets
    the rest of the pattern match and no backtracking changes a group
    (see [match_requirement_sound] and [match_requirement_complete]). *)
Definition match_requirement (line : string) : option (string * string) :=
  let name := take_while is_name_char line in
  let after_name := drop_while is_space (drop_while is_name_char line) in
  let op := take_while is_op_char after_name in
  let after_op := drop_while is_space (drop_while is_op_char after_name) in
  let version := take_while is_version_char after_op in
  if is_empty name || is_empty op || is_empty version
  then None
  else Some (name, version).

(** [re.match(r'^([a-zA-Z0-9_-]+)', line)]: group 1 of the match. *)
Definition match_bare_name (line : string) : option string :=
  let name := take_while is_name_char line in
  if is_empty name then None else Some name.

(** The body of the loop over the lines: what one line appends to
    [packages]. *)
Definition parse_requirement_line (raw : string) : list (string * string) :=
  let line := py_strip raw in
  if is_empty line || startswith "#" line
  then []
  else
    match match_requirement line with
    | Some (pkg_name, version) => [(pkg_name, version)]
    | None =>
        match match_bare_name line with
        | Some pkg_name => [(pkg_name, EmptyString)]
        | None => []
        end
    end.

Definition requirements_caught (e : exn) : bool :=
  match e with
  | FileNotFoundError => true
  | _ => false
  end.

(** [_parse_requirements_txt]; [file] is what opening and reading the
    manifest gives: its text, or the exception raised. *)
Definition _parse_requirements_txt (file : res string)
  : res (list (string * string)) :=
  let packages := [] in
  returning
    (try_except requirements_caught
       match file with
       | Err e => (packages, Err e)
       | Ok text =>
           for_each
             (fun line packages =>
                ((packages ++ parse_requirement_line line)%list, Ok tt))
             (readlines text) packages
       end).

(** ** The JSON manifest (package.json) *)

(** [re.sub(r'[\^~>=<]', '', version).strip()] *)
Definition clean_version (version : string) : string :=
  py_strip (str_filter (fun c => negb (is_range_char c)) version).

Definition package_json_caught (e : exn) : bool :=
  match e with
  | JSONDecodeError | FileNotFoundError | KeyError => true
  | _ => false
  end.

(** One turn of the inner loop: [re.sub] raises [TypeError] on a version
    that is not a string. *)
Definition add_dependency (entry : string * json)
           (packages : list (string * string))
  : list (string * string) * res unit :=
  let (pkg_name, version) := entry in
  match version with
  | JStr v => ((packages ++ [(pkg_name, clean_version v)])%list, Ok tt)
  | _ => (packages, Err TypeError)
  end.

(** One turn of the loop over ['dependencies'] and ['devDependencies']. *)
Definition add_group (data : json) (dep_type : string)
           (packages : list (string * string))
  : list (string * string) * res unit :=
  match (deps <- py_get data dep_type (JObj []) ;; py_items deps) with
  | Err e => (packages, Err e)
  | Ok entries => for_each add_dependency entries packages
  end.

Section Runtime.

(** [json.loads]: the value a text parses to, [None] when it raises
    [JSONDecodeError]. *)
Variable json_loads : string -> option json.

(** The text [str()] gives for a list or a dict. *)
Variable container_str : json -> string.

(** [_parse_package_json]; [file] is what opening and reading the
    manifest gives. *)
Definition _parse_package_json (file : res string)
  : res (list (string * string)) :=
  let packages := [] in
  returning
    (try_except package_json_caught
       match file with
       | Err e => (packages, Err e)
       | Ok text =>
           match json_loads text with
           | None => (packages, Err JSONDecodeError)
           | Some data =>
               for_each (add_group data)
                        ["dependencies"; "devDependencies"] packages
           end
       end).

(** *** Values in text *)

(** The exception a slice of a dict raises: [TypeError] before
    Python 3.12, [KeyError] from 3.12 on. *)
Variable dict_slice_error : exn.

(** [str(j)], as an f-string field gives it. *)
Definition py_str (j : json) : string :=
  match j with
  | JNull => "None"
  | JBool true => "True"
  | JBool false => "False"
  | JNum n => num_text n
  | JStr s => s
  | JArr _ | JObj _ => container_str j
  end.

(** [j[:n]] *)
Definition py_slice (n : nat) (j : json) : res json :=
  match j with
  | JStr s => Ok (JStr (String.substring 0 n s))
  | JArr l => Ok (JArr (firstn n l))
  | JObj _ => Err dict_slice_error
  | _ => Err TypeError
  end.

(** [j += s] for a string [s]: a string grows, a list is extended by
    the characters of [s]. *)
Definition py_iadd_str (j : json) (s : string) : res json :=
  match j with
  | JStr d => Ok (JStr (d ++ s))
  | JArr l => Ok (JArr (l ++ chars s))
  | _ => Err TypeError
  end.

(** *** Findings *)

Record Finding : Type := {
  package_type : string;
  package : json;
  description : json
}.

(** *** The outside world *)

Inductive command : Type :=
| NpmAudit      (* npm audit --json *)
| PipAudit      (* pip-audit --format json -r requirements.txt *)
| SafetyCheck.  (* safety check --json -r requirements.txt *)

(** What [subprocess.run] gives: a completed process, whatever its exit
    status, or an exception. *)
Inductive run_outcome : Type :=
| Completed (returncode : Z) (stdout : string)
| RunRaises (e : exn).

(** What [requests.get] gives. *)
Inductive http_outcome : Type :=
| Response (status_code : Z) (body : string)
| GetRaises (e : exn).

Inductive event : Type :=
| Run (c : command)
| Get (keyword : string)
| Sleep (seconds : Q).

Definition request_delay : Q := 6 # 10.

(** *** Local audit: npm *)

Definition audit_caught (e : exn) : bool :=
  match e with
  | TimeoutExpired | CalledProcessError | JSONDecodeError
  | FileNotFoundError => true
  | _ => false
  end.

(** One turn of the loop over [via]. *)
Definition via_description (v : json) (description_parts : list json)
  : list json * res unit :=
  if is_dict v then
    match
      (title <- py_get v "title" (JStr "") ;;
       cve <- py_get v "cve" (JStr "") ;;
       url <- py_get v "url" (JStr "") ;;
       let desc := title in
       let desc :=
         if py_truthy cve
         then JStr (py_str cve ++ ": " ++ py_str desc)
         else desc in
       if py_truthy url
       then py_iadd_str desc (" - " ++ py_str url)
       else Ok desc)
    with
    | Ok desc => ((description_parts ++ [desc])%list, Ok tt)
    | Err e => (description_parts, Err e)
    end
  else (description_parts, Ok tt).

(** One turn of the loop over [data['vulnerabilities'].items()]
    (npm 7 and later). *)
Definition npm_v7_package (entry : string * json)
           (vulnerabilities : list Finding)
  : list Finding * res unit :=
  let (pkg_name, vuln_data) := entry in
  if is_dict vuln_data then
    match
      (severity <- py_get vuln_data "severity" (JStr "unknown") ;;
       via <- py_get vuln_data "via" (JArr []) ;;
       py_iter via)
    with
    | Err e => (vulnerabilities, Err e)
    | Ok vias =>
        match for_each via_description vias [] with
        | (_, Err e) => (vulnerabilities, Err e)
        | (description_parts, Ok _) =>
            match description_parts with
            | [] => (vulnerabilities, Ok tt)
            | _ =>
                match py_join " | " description_parts with
                | Err e => (vulnerabilities, Err e)
                | Ok d =>
                    ((vulnerabilities
                        ++ [{| package_type := "npm";
                               package := JStr pkg_name;
                               description := JStr d |}])%list, Ok tt)
                end
            end
        end
    end
  else (vulnerabilities, Ok tt).

(** One turn of the loop over [data['advisories'].items()] (npm 6). *)
Definition npm_v6_advisory (entry : string * json)
           (vulnerabilities : list Finding)
  : list Finding * res unit :=
  let (advisory_id, advisory) := entry in
  match
    (module_name <- py_get advisory "module_name" (JStr "unknown") ;;
     title <- py_get advisory "title" (JStr "No title") ;;
     severity <- py_get advisory "severity" (JStr "unknown") ;;
     Ok {| package_type := "npm";
           package := module_name;
           description :=
             JStr (py_str title ++ " - Severity: " ++ py_str severity) |})
  with
  | Ok vuln => ((vulnerabilities ++ [vuln])%list, Ok tt)
  | Err e => (vulnerabilities, Err e)
  end.

(** The two output formats of [npm audit]. *)
Definition npm_findings (data : json) (vulnerabilities : list Finding)
  : list Finding * res unit :=
  match py_in "vulnerabilities" data with
  | Err e => (vulnerabilities, Err e)
  | Ok true =>
      match (d <- py_getitem data "vulnerabilities" ;; py_items d) with
      | Err e => (vulnerabilities, Err e)
      | Ok entries => for_each npm_v7_package entries vulnerabilities
      end
  | Ok false =>
      match py_in "advisories" data with
      | Err e => (vulnerabilities, Err e)
      | Ok true =>
          match (d <- py_getitem data "advisories" ;; py_items d) with
          | Err e => (vulnerabilities, Err e)
          | Ok entries => for_each npm_v6_advisory entries vulnerabilities
          end
      | Ok false => (vulnerabilities, Ok tt)
      end
  end.

(** *** Local audit: Python *)

(** One turn of the loop over [dep.get('vulns', [])]. *)
Definition pip_audit_vuln (pkg_name : json) (vuln : json)
           (vulnerabilities : list Finding)
  : list Finding * res unit :=
  match
    (cve_id <- py_get vuln "id" (JStr "Unknown CVE") ;;
     description <-
       py_get vuln "description" (JStr "No description available") ;;
     Ok {| package_type := "pip";
           package := pkg_name;
           description :=
             JStr (py_str cve_id ++ ": " ++ py_str description) |})
  with
  | Ok found => ((vulnerabilities ++ [found])%list, Ok tt)
  | Err e => (vulnerabilities, Err e)
  end.

(** One turn of the loop over [data['dependencies']]. *)
Definition pip_audit_dependency (dep : json)
           (vulnerabilities : list Finding)
  : list Finding * res unit :=
  match
    (pkg_name <- py_get dep "name" (JStr "unknown") ;;
     vulns <- py_get dep "vulns" (JArr []) ;;
     vs <- py_iter vulns ;;
     Ok (pkg_name, vs))
  with
  | Err e => (vulnerabilities, Err e)
  | Ok (pkg_name, vs) =>
      for_each (pip_audit_vuln pkg_name) vs vulnerabilities
  end.

Definition pip_audit_findings (data : json)
           (vulnerabilities : list Finding)
  : list Finding * res unit :=
  match py_in "dependencies" data with
  | Err e => (vulnerabilities, Err e)
  | Ok false => (vulnerabilities, Ok tt)
  | Ok true =>
      match (d <- py_getitem data "dependencies" ;; py_iter d) with
      | Err e => (vulnerabilities, Err e)
      | Ok deps => for_each pip_audit_dependency deps vulnerabilities
      end
  end.

(** One turn of the loop over the output of [safety]. *)
Definition safety_record (vuln : json) (vulnerabilities : list Finding)
  : list Finding * res unit :=
  match vuln with
  | JArr (pkg_name :: x1 :: x2 :: description :: _) =>
      ((vulnerabilities
          ++ [{| package_type := "pip";
                 package := pkg_name;
                 description := description |}])%list, Ok tt)
  | _ => (vulnerabilities, Ok tt)
  end.

Definition safety_findings (data : json) (vulnerabilities : list Finding)
  : list Finding * res unit :=
  match py_iter data with
  | Err e => (vulnerabilities, Err e)
  | Ok records => for_each safety_record records vulnerabilities
  end.

(** The body of one [try]: run the tool and, when it printed something,
    parse it and [return vulnerabilities].  The boolean tells whether the
    [return] was reached. *)
Definition audit_attempt
           (findings : json -> list Finding -> list Finding * res unit)
           (tool : run_outcome) (vulnerabilities : list Finding)
  : list Finding * res bool :=
  match tool with
  | RunRaises e => (vulnerabilities, Err e)
  | Completed _ stdout =>
      if negb (is_empty stdout) then
        match json_loads stdout with
        | None => (vulnerabilities, Err JSONDecodeError)
        | Some data =>
            match findings data vulnerabilities with
            | (vulnerabilities', Ok _) => (vulnerabilities', Ok true)
            | (vulnerabilities', Err e) => (vulnerabilities', Err e)
            end
        end
      else (vulnerabilities, Ok false)
  end.

(** [except (TimeoutExpired, CalledProcessError, JSONDecodeError,
    FileNotFoundError): pass] *)
Definition except_audit (body : list Finding * res bool)
  : list Finding * res bool :=
  match body with
  | (vulnerabilities, Err e) =>
      if audit_caught e then (vulnerabilities, Ok false)
      else (vulnerabilities, Err e)
  | (vulnerabilities, Ok returned) => (vulnerabilities, Ok returned)
  end.

(** [_check_npm_vulnerabilities]; [npm] is what running
    [npm audit --json] gives. *)
Definition _check_npm_vulnerabilities (npm : run_outcome)
  : list event * res (list Finding) :=
  match except_audit (audit_attempt npm_findings npm []) with
  | (vulnerabilities, Ok true) => ([Run NpmAudit], Ok vulnerabilities)
  | (_, Ok false) => ([Run NpmAudit], Ok [])
  | (_, Err e) => ([Run NpmAudit], Err e)
  end.

(** [_check_python_vulnerabilities]; [pip_audit] and [safety] are what
    running each tool gives.  [vulnerabilities] is shared by the two
    [try] blocks; the final [return []] is a new list. *)
Definition _check_python_vulnerabilities (pip_audit safety : run_outcome)
  : list event * res (list Finding) :=
  let vulnerabilities := [] in
  match
    except_audit (audit_attempt pip_audit_findings pip_audit vulnerabilities)
  with
  | (vulnerabilities, Ok true) => ([Run PipAudit], Ok vulnerabilities)
  | (_, Err e) => ([Run PipAudit], Err e)
  | (vulnerabilities, Ok false) =>
      match
        except_audit (audit_attempt safety_findings safety vulnerabilities)
      with
      | (vulnerabilities, Ok true) =>
          ([Run PipAudit; Run SafetyCheck], Ok vulnerabilities)
      | (_, Err e) => ([Run PipAudit; Run SafetyCheck], Err e)
      | (_, Ok false) => ([Run PipAudit; Run SafetyCheck], Ok [])
      end
  end.

(** *** Remote provider (NVD) *)

Definition nvd_caught (e : exn) : bool :=
  match e with
  | RequestException | JSONDecodeError | KeyError => true
  | _ => false
  end.

(** The loop over [descriptions]: the value of the first entry whose
    language is English. *)
Fixpoint english_description (descriptions : list json) : res json :=
  match descriptions with
  | [] => Ok (JStr "No description available")
  | desc :: rest =>
      lang <- py_get desc "lang" JNull ;;
      if py_eqb lang (JStr "en")
      then py_get desc "value" (JStr "No description available")
      else english_description rest
  end.

Definition cvss_versions : list string :=
  ["cvssMetricV31"; "cvssMetricV30"; "cvssMetricV2"].

(** The loop over the CVSS versions: the text for the first block that is
    in [metrics] and not empty. *)
Fixpoint severity_info (metrics : json) (versions : list string)
  : res string :=
  match versions with
  | [] => Ok EmptyString
  | cvss_version :: rest =>
      present <- py_in cvss_version metrics ;;
      if present then
        block <- py_getitem metrics cvss_version ;;
        if py_truthy block then
          first <- py_getitem0 block ;;
          cvss_data <- py_get first "cvssData" (JObj []) ;;
          base_score <- py_get cvss_data "baseScore" (JStr "N/A") ;;
          severity <- py_get cvss_data "baseSeverity" (JStr "UNKNOWN") ;;
          Ok (" [CVSS: " ++ py_str base_score ++ " - "
                ++ py_str severity ++ "]")
        else severity_info metrics rest
      else severity_info metrics rest
  end.

(** The description built for one record. *)
Definition vuln_description (version : string) (vuln_item : json)
  : res string :=
  cve <- py_get vuln_item "cve" (JObj []) ;;
  cve_id <- py_get cve "id" (JStr "Unknown CVE") ;;
  descriptions <- py_get cve "descriptions" (JArr []) ;;
  ds <- py_iter descriptions ;;
  description <- english_description ds ;;
  metrics <- py_get cve "metrics" (JObj []) ;;
  info <- severity_info metrics cvss_versions ;;
  truncated <- py_slice 200 description ;;
  let text := py_str cve_id ++ ": " ++ py_str truncated ++ info in
  if negb (is_empty version)
  then Ok (text ++ " (Package version: " ++ version ++ ")")
  else Ok text.

(** One turn of the loop over [data['vulnerabilities']]. *)
Definition nvd_record (package_type pkg_name version : string)
           (vuln_item : json) (vulnerabilities : list Finding)
  : list Finding * res unit :=
  match vuln_description version vuln_item with
  | Ok text =>
      ((vulnerabilities
          ++ [{| package_type := package_type;
                 package := JStr pkg_name;
                 description := JStr text |}])%list, Ok tt)
  | Err e => (vulnerabilities, Err e)
  end.

(** What is done with the body of a 200 response. *)
Definition nvd_findings (package_type pkg_name version : string)
           (data : json) (vulnerabilities : list Finding)
  : list Finding * res unit :=
  match
    (present <- py_in "vulnerabilities" data ;;
     if present then
       records <- py_getitem data "vulnerabilities" ;;
       if py_truthy records then py_iter records else Ok []
     else Ok [])
  with
  | Err e => (vulnerabilities, Err e)
  | Ok records =>
      for_each (nvd_record package_type pkg_name version)
               records vulnerabilities
  end.

(** The state of the loop over the packages: what was done so far and
    what was found so far. *)
Definition nvd_state : Type := (list event * list Finding)%type.

(** The body of the [try] for the package at position [i]; [http] is what
    the request of each position gives. *)
Definition nvd_query (http : nat -> string -> http_outcome)
           (package_type : string) (entry : nat * (string * string))
           (st : nvd_state)
  : nvd_state * res unit :=
  let '(i, (pkg_name, version)) := entry in
  let '(done, vulnerabilities) := st in
  let keyword :=
    if String.eqb package_type "npm"
    then "npm " ++ pkg_name
    else "python " ++ pkg_name in
  let done := (done ++ [Get keyword])%list in
  match http i keyword with
  | GetRaises e => ((done, vulnerabilities), Err e)
  | Response status_code body =>
      let '(vulnerabilities, r) :=
        if Z.eqb status_code 200 then
          match json_loads body with
          | None => (vulnerabilities, Err JSONDecodeError)
          | Some data =>
              nvd_findings package_type pkg_name version data
                           vulnerabilities
          end
        else (vulnerabilities, Ok tt) in
      match r with
      | Ok _ => (((done ++ [Sleep request_delay])%list, vulnerabilities),
                 Ok tt)
      | Err e => ((done, vulnerabilities), Err e)
      end
  end.

(** One turn of the loop over the packages: the [try] and its
    [except (requests.RequestException, json.JSONDecodeError, KeyError):
    continue]. *)
Definition nvd_step (http : nat -> string -> http_outcome)
           (package_type : string) (entry : nat * (string * string))
           (st : nvd_state) : nvd_state * res unit :=
  try_except nvd_caught (nvd_query http package_type entry st).

(** [enumerate(xs)] *)
Definition enumerate {X : Type} (xs : list X) : list (nat * X) :=
  combine (seq 0 (List.length xs)) xs.

(** [_check_nvd_vulnerabilities]; [requests_available] tells whether the
    import of [requests] succeeded. *)
Definition _check_nvd_vulnerabilities (requests_available : bool)
           (http : nat -> string -> http_outcome)
           (packages : list (string * string)) (package_type : string)
  : list event * res (list Finding) :=
  if negb requests_available then ([], Ok [])
  else
    match
      for_each (nvd_step http package_type) (enumerate packages) ([], [])
    with
    | ((done, vulnerabilities), Ok _) => (done, Ok vulnerabilities)
    | ((done, _), Err e) => (done, Err e)
    end.

(** *** The orchestrator *)

(** What a scan meets outside the program. *)
Record world : Type := {
  path_exists : string -> bool;          (* (directory / name).exists() *)
  read_text : string -> res string;      (* opening and reading a file *)
  run : command -> run_outcome;          (* subprocess.run *)
  requests_available : bool;             (* requests is not None *)
  http_get : string -> nat -> string -> http_outcome
    (* requests.get, per ecosystem and position in the package list *)
}.

(** The key of a finding in [seen_vulnerabilities]. *)
Definition key : Type := (string * json * json)%type.

Definition key_of (vuln : Finding) : key :=
  (package_type vuln, package vuln, description vuln).

(** Equality of two keys, as a set of tuples decides it. *)
Definition key_eqb (a b : key) : bool :=
  let '(t1, p1, d1) := a in
  let '(t2, p2, d2) := b in
  String.eqb t1 t2 && py_eqb p1 p2 && py_eqb d1 d2.

(** A tuple can be hashed when its components can. *)
Definition key_hashable (k : key) : bool :=
  let '(_, p, d) := k in hashable p && hashable d.

(** The state of a scan: what was done, [vulnerabilities] and
    [seen_vulnerabilities]. *)
Definition scan_state : Type :=
  (list event * list Finding * list key)%type.

(** One turn of each of the four merging loops. *)
Definition add_unique (vuln : Finding) (st : scan_state)
  : scan_state * res unit :=
  let '(done, vulnerabilities, seen_vulnerabilities) := st in
  let k := key_of vuln in
  if key_hashable k then
    if existsb (key_eqb k) seen_vulnerabilities
    then (st, Ok tt)
    else ((done, (vulnerabilities ++ [vuln])%list,
           (seen_vulnerabilities ++ [k])%list), Ok tt)
  else (st, Err TypeError).

(** Calling a provider and merging what it returns. *)
Definition merge_findings (provider : list event * res (list Finding))
           (st : scan_state) : scan_state * res unit :=
  let '(events, found) := provider in
  let '(done, vulnerabilities, seen_vulnerabilities) := st in
  let st' := ((done ++ events)%list, vulnerabilities, seen_vulnerabilities) in
  match found with
  | Err e => (st', Err e)
  | Ok vulns => for_each add_unique vulns st'
  end.

(** One statement after another. *)
Definition and_then {S : Type} (first second : S -> S * res unit) (s : S)
  : S * res unit :=
  match first s with
  | (s', Ok _) => second s'
  | (s', Err e) => (s', Err e)
  end.

Definition skip {S : Type} (s : S) : S * res unit := (s, Ok tt).

(** The remote check of one manifest: parse it and, when it lists
    packages, query NVD for them. *)
Definition remote_check (w : world) (manifest : string)
           (parse : res string -> res (list (string * string)))
           (package_type : string) (st : scan_state)
  : scan_state * res unit :=
  if path_exists w manifest then
    match parse (read_text w manifest) with
    | Err e => (st, Err e)
    | Ok [] => (st, Ok tt)
    | Ok packages =>
        merge_findings
          (_check_nvd_vulnerabilities (requests_available w)
             (http_get w package_type) packages package_type) st
    end
  else (st, Ok tt).

(** [scan_directory] *)
Definition scan_directory (w : world) : list event * res (list Finding) :=
  let npm_local :=
    if path_exists w "package.json"
    then merge_findings (_check_npm_vulnerabilities (run w NpmAudit))
    else skip in
  let python_local :=
    if path_exists w "requirements.txt"
    then merge_findings
           (_check_python_vulnerabilities (run w PipAudit)
                                          (run w SafetyCheck))
    else skip in
  let remote :=
    if requests_available w
    then and_then
           (remote_check w "package.json" _parse_package_json "npm")
           (remote_check w "requirements.txt" _parse_requirements_txt "pip")
    else skip in
  match and_then npm_local (and_then python_local remote) ([], [], []) with
  | ((done, vulnerabilities, _), Ok _) => (done, Ok vulnerabilities)
  | ((done, _, _), Err e) => (done, Err e)
  end.

(** [check_dependencies] *)
Definition check_dependencies (w : world) : list event * res (list Finding) :=
  scan_directory w.

(** * What the patterns and the merge are meant to do

    Definitions written from the regular expressions and from the
    specification, against which the code above is compared. *)

Definition all_chars (p : ascii -> bool) (s : string) : Prop :=
  str_forall p s = true.

(** [s] does not begin with a character of the class [p]. *)
Definition stops (p : ascii -> bool) (s : string) : Prop :=
  match s with
  | EmptyString => True
  | String c _ => p c = false
  end.

(** The language of [^([a-zA-Z0-9_-]+)\s*([><=!]+)\s*([0-9.]+)]: [line]
    begins with a match whose groups 1 and 3 are [name] and [version]. *)
Definition requirement_match (line name version : string) : Prop :=
  exists sp1 op sp2 rest,
    line = name ++ sp1 ++ op ++ sp2 ++ version ++ rest
    /\ name <> EmptyString /\ all_chars is_name_char name
    /\ all_chars is_space sp1
    /\ op <> EmptyString /\ all_chars is_op_char op
    /\ all_chars is_space sp2
    /\ version <> EmptyString /\ all_chars is_version_char version.

(** The language of [^([a-zA-Z0-9_-]+)]. *)
Definition bare_name_match (line name : string) : Prop :=
  exists rest,
    line = name ++ rest
    /\ name <> EmptyString /\ all_chars is_name_char name.

(** The name token at the start of [line]: the longest bare name, which
    is what a greedy [+] captures. *)
Definition name_token (line name : string) : Prop :=
  exists rest,
    line = name ++ rest
    /\ name <> EmptyString /\ all_chars is_name_char name
    /\ stops is_name_char rest.

(** What the specification says of a version in the JSON manifest: the
    leading operator characters are stripped and the rest, whatever it
    holds, is kept and trimmed. *)
Definition not_range_char (c : ascii) : bool := negb (is_range_char c).

Definition strip_leading_operators (version : string) : string :=
  py_strip (drop_while is_range_char (py_strip version)).

(** The manifests the JSON parser is written for: an object whose
    dependency groups, when present, are objects with string values. *)
Definition is_string (j : json) : bool :=
  match j with JStr _ => true | _ => false end.

Definition string_versions (entries : list (string * json)) : bool :=
  forallb (fun entry => is_string (snd entry)) entries.

Definition group_well_shaped (fields : list (string * json))
           (dep_type : string) : bool :=
  match assoc dep_type fields with
  | None => true
  | Some (JObj entries) => string_versions entries
  | Some _ => false
  end.

Definition manifest_well_shaped (data : json) : bool :=
  match data with
  | JObj fields =>
      group_well_shaped fields "dependencies"
      && group_well_shaped fields "devDependencies"
  | _ => false
  end.

(** The package references of one group, in the order of the group. *)
Definition group_references (fields : list (string * json))
           (dep_type : string) : list (string * string) :=
  match assoc dep_type fields with
  | Some (JObj entries) =>
      flat_map
        (fun entry =>
           match snd entry with
           | JStr v => [(fst entry, clean_version v)]
           | _ => []
           end)
        entries
  | _ => []
  end.

(** The failures of an audit tool that the provider looks for: the run
    raised an exception of the [except] clause, or printed nothing, or
    printed something that is not JSON. *)
Definition tool_failed (tool : run_outcome) : Prop :=
  match tool with
  | RunRaises e => audit_caught e = true
  | Completed _ stdout => stdout = EmptyString \/ json_loads stdout = None
  end.

(** The exceptions met when a JSON value has not the expected shape. *)
Definition shape_error (e : exn) : Prop :=
  e = AttributeError \/ e = TypeError.

(** What the specification says of a record of the second audit tool:
    element 0 is the package name and element 3 the description, for a
    record of four elements or more. *)
Definition record_finding (record : json) : list Finding :=
  match record with
  | JArr items =>
      if Nat.leb 4 (List.length items)
      then [{| package_type := "pip";
               package := nth 0 items JNull;
               description := nth 3 items JNull |}]
      else []
  | _ => []
  end.

(** A vulnerability record of the remote service, as its schema
    describes it, and the JSON that carries it.  A metric block may be
    absent ([None]), present and empty, or populated. *)
Record cvss_metric : Type := {
  base_score : option pynum;
  base_severity : option string
}.

Record cve_record : Type := {
  cve_id : string;
  cve_descriptions : list (string * string);   (* language, text *)
  metric_v31 : option (list cvss_metric);
  metric_v30 : option (list cvss_metric);
  metric_v2 : option (list cvss_metric)
}.

Definition encode_field (name : string) (value : option json)
  : list (string * json) :=
  match value with
  | None => []
  | Some v => [(name, v)]
  end.

Definition encode_metric (m : cvss_metric) : json :=
  JObj [("cvssData",
         JObj (encode_field "baseScore" (option_map JNum (base_score m))
                 ++ encode_field "baseSeverity"
                      (option_map JStr (base_severity m)))%list)].

Definition encode_block (name : string) (block : option (list cvss_metric))
  : list (string * json) :=
  match block with
  | None => []
  | Some metrics => [(name, JArr (map encode_metric metrics))]
  end.

Definition encode_description (d : string * string) : json :=
  JObj [("lang", JStr (fst d)); ("value", JStr (snd d))].

Definition encode_record (r : cve_record) : json :=
  JObj [("cve",
         JObj [("id", JStr (cve_id r));
               ("descriptions",
                JArr (map encode_description (cve_descriptions r)));
               ("metrics",
                JObj (encode_block "cvssMetricV31" (metric_v31 r)
                        ++ encode_block "cvssMetricV30" (metric_v30 r)
                        ++ encode_block "cvssMetricV2" (metric_v2 r))%list)])].

(** The first metric of a populated block. *)
Definition populated (block : option (list cvss_metric))
  : option cvss_metric :=
  match block with
  | Some (m :: _) => Some m
  | _ => None
  end.

(** The metric the specification prefers: v3.1, then v3.0, then v2. *)
Definition preferred_metric (r : cve_record) : option cvss_metric :=
  match populated (metric_v31 r) with
  | Some m => Some m
  | None =>
      match populated (metric_v30 r) with
      | Some m => Some m
      | None => populated (metric_v2 r)
      end
  end.

(** The suffix for a metric; a score or a severity that the metric does
    not give is written N/A or UNKNOWN. *)
Definition metric_suffix (m : cvss_metric) : string :=
  " [CVSS: "
    ++ match base_score m with Some n => num_text n | None => "N/A" end
    ++ " - "
    ++ match base_severity m with Some s => s | None => "UNKNOWN" end
    ++ "]".

Definition severity_suffix (r : cve_record) : string :=
  match preferred_metric r with
  | Some m => metric_suffix m
  | None => EmptyString
  end.

(** The text of the first English description, or the placeholder. *)
Fixpoint first_english (descriptions : list (string * string)) : string :=
  match descriptions with
  | [] => "No description available"
  | (lang, text) :: rest =>
      if String.eqb lang "en" then text else first_english rest
  end.

(** The description the specification asks for. *)
Definition expected_description (version : string) (r : cve_record)
  : string :=
  let text :=
    cve_id r ++ ": "
      ++ String.substring 0 200 (first_english (cve_descriptions r))
      ++ severity_suffix r in
  if is_empty version
  then text
  else text ++ " (Package version: " ++ version ++ ")".

(** The search keyword of a package. *)
Definition keyword_of (package_type : string) (entry : string * string)
  : string :=
  if String.eqb package_type "npm"
  then "npm " ++ fst entry
  else "python " ++ fst entry.

(** What one turn of the loop over the packages does when it starts
    from nothing: the events of the package, its findings, and whether
    an exception leaves the loop. *)
Definition package_effect (http : nat -> string -> http_outcome)
           (package_type : string) (entry : nat * (string * string))
  : nvd_state * res unit :=
  nvd_step http package_type entry ([], []).

Definition package_events (http : nat -> string -> http_outcome)
           (package_type : string) (entry : nat * (string * string))
  : list event :=
  fst (fst (package_effect http package_type entry)).

Definition package_findings (http : nat -> string -> http_outcome)
           (package_type : string) (entry : nat * (string * string))
  : list Finding :=
  snd (fst (package_effect http package_type entry)).

(** The failures of a query that the specification names: a network
    error, a status other than 200, a body that is not JSON. *)
Definition query_failed (o : http_outcome) : Prop :=
  o = GetRaises RequestException
  \/ (exists status body, o = Response status body /\ status <> 200%Z)
  \/ (exists body, o = Response 200 body /\ json_loads body = None).

Definition is_get (e : event) : bool :=
  match e with Get _ => true | _ => false end.

Definition is_sleep (e : event) : bool :=
  match e with Sleep _ => true | _ => false end.

(** Two findings with the same key. *)
Definition same_key (a b : Finding) : bool :=
  key_eqb (key_of a) (key_of b).

(** What the specification says of the result of a scan: of the findings
    in the order they arrive from the providers, those whose key no
    earlier arrival has. *)
Fixpoint first_occurrences_from (earlier arrivals : list Finding)
  : list Finding :=
  match arrivals with
  | [] => []
  | x :: rest =>
      if existsb (same_key x) earlier
      then first_occurrences_from (earlier ++ [x])%list rest
      else x :: first_occurrences_from (earlier ++ [x])%list rest
  end.

Definition first_occurrences (arrivals : list Finding) : list Finding :=
  first_occurrences_from [] arrivals.

(** No two findings of the list have the same key. *)
Inductive distinct_keys : list Finding -> Prop :=
| distinct_nil : distinct_keys []
| distinct_cons (x : Finding) (l : list Finding) :
    (forall y, In y l -> same_key x y = false) ->
    distinct_keys l -> distinct_keys (x :: l).

(** The findings of two sources, one after the other. *)
Definition both (first second : res (list Finding)) : res (list Finding) :=
  a <- first ;; b <- second ;; Ok (a ++ b)%list.

(** What the remote provider returns for one manifest. *)
Definition remote_arrivals (w : world) (manifest : string)
           (parse : res string -> res (list (string * string)))
           (package_type : string) : res (list Finding) :=
  if path_exists w manifest then
    packages <- parse (read_text w manifest) ;;
    match packages with
    | [] => Ok []
    | _ =>
        snd (_check_nvd_vulnerabilities (requests_available w)
               (http_get w package_type) packages package_type)
    end
  else Ok [].

(** The findings in the order they arrive in a scan: local npm audit,
    local Python audit, remote npm, remote Python. *)
Definition scan_arrivals (w : world) : res (list Finding) :=
  both
    (if path_exists w "package.json"
     then snd (_check_npm_vulnerabilities (run w NpmAudit))
     else Ok [])
    (both
       (if path_exists w "requirements.txt"
        then snd (_check_python_vulnerabilities (run w PipAudit)
                                                (run w SafetyCheck))
        else Ok [])
       (if requests_available w
        then both
               (remote_arrivals w "package.json" _parse_package_json "npm")
               (remote_arrivals w "requirements.txt"
                                _parse_requirements_txt "pip")
        else Ok [])).

(** The merging loops as a function: a finding is appended unless one
    with its key was kept already. *)
Fixpoint dedup_into (kept arrivals : list Finding) : list Finding :=
  match arrivals with
  | [] => kept
  | x :: rest =>
      if existsb (same_key x) kept
      then dedup_into kept rest
      else dedup_into (kept ++ [x])%list rest
  end.

(** A step of the scan delivers the findings [r] when, each time it ends
    without an exception, [r] is a list and the step merged it. *)
Definition delivers (stage : scan_state -> scan_state * res unit)
           (r : res (list Finding)) : Prop :=
  forall done kept st',
    stage (done, kept, map key_of kept) = (st', Ok tt) ->
    exists vulns done',
      r = Ok vulns
      /\ st' = (done', dedup_into kept vulns,
                map key_of (dedup_into kept vulns)).

(** * Sample data

    Documents and worlds at which the properties are instantiated.  The
    documents are written as [json] values; [json_text] gives the text a
    tool or the remote service prints for one, and [sample_loads] reads
    such a text back. *)

Definition double_quote : string := String (ascii_of_nat 34) EmptyString.

Definition quoted (s : string) : string := double_quote ++ s ++ double_quote.

Fixpoint json_text (j : json) : string :=
  match j with
  | JNull => "null"
  | JBool true => "true"
  | JBool false => "false"
  | JNum n => num_text n
  | JStr s => quoted s
  | JArr items =>
      "["
        ++ (fix elements (l : list json) : string :=
              match l with
              | [] => EmptyString
              | x :: rest =>
                  json_text x
                    ++ match rest with
                       | [] => EmptyString
                       | _ => ", " ++ elements rest
                       end
              end) items
        ++ "]"
  | JObj fields =>
      "{"
        ++ (fix members (l : list (string * json)) : string :=
              match l with
              | [] => EmptyString
              | (k, v) :: rest =>
                  quoted k ++ ": " ++ json_text v
                    ++ match rest with
                       | [] => EmptyString
                       | _ => ", " ++ members rest
                       end
              end) fields
        ++ "}"
  end.

(** npm audit, npm 7 format: one advisory for left-pad. *)
Definition npm_report : json :=
  JObj [("vulnerabilities",
         JObj [("left-pad",
                JObj [("severity", JStr "high");
                      ("via",
                       JArr [JObj [("title", JStr "bad");
                                   ("cve", JStr "CVE-1");
                                   ("url", JStr "")]])])])].

(** pip-audit: one vulnerability of flask. *)
Definition pip_audit_report : json :=
  JObj [("dependencies",
         JArr [JObj [("name", JStr "flask");
                     ("vulns",
                      JArr [JObj [("id", JStr "CVE-1");
                                  ("description", JStr "bad")]])]])].

(** safety: one record of five elements. *)
Definition safety_report : json :=
  JArr [JArr [JStr "flask"; JStr "<1.0"; JStr "0.12"; JStr "bad thing";
              JStr "36388"]].

Definition score_7_5 : pynum := {| num_val := 75 # 10; num_text := "7.5" |}.

(** A record with a cvssMetricV2 block only. *)
Definition v2_only_record : cve_record :=
  {| cve_id := "CVE-2";
     cve_descriptions := [("es", "peor"); ("en", "worse")];
     metric_v31 := None;
     metric_v30 := None;
     metric_v2 := Some [{| base_score := Some score_7_5;
                           base_severity := Some "HIGH" |}] |}.

(** A record without metrics. *)
Definition plain_record : cve_record :=
  {| cve_id := "CVE-1";
     cve_descriptions := [("en", "bad")];
     metric_v31 := None;
     metric_v30 := None;
     metric_v2 := None |}.

(** A response of the remote service with the two records. *)
Definition nvd_response : json :=
  JObj [("vulnerabilities",
         JArr [encode_record plain_record; encode_record v2_only_record])].

(** A JSON manifest with one dependency in each group. *)
Definition package_manifest : json :=
  JObj [("name", JStr "demo");
        ("dependencies", JObj [("left-pad", JStr "^1.0.0")]);
        ("devDependencies", JObj [("jest", JStr ">=29.0.0 <30.0.0")])].

Definition sample_documents : list json :=
  [JArr []; npm_report; pip_audit_report; safety_report; nvd_response;
   package_manifest].

(** [json.loads] on the texts of the sample documents; any other text is
    taken not to be JSON. *)
Definition sample_loads (text : string) : option json :=
  find (fun doc => String.eqb (json_text doc) text) sample_documents.

(** [str()] of a list or a dict: not met in the examples. *)
Definition sample_str (j : json) : string := json_text j.

(** Three packages; the request for the second one meets a network
    error. *)
Definition three_packages : list (string * string) :=
  [("flask", "1.0"); ("django", "2.2"); ("requests", EmptyString)].

Definition second_request_fails (i : nat) (keyword : string) : http_outcome :=
  if Nat.eqb i 1
  then GetRaises RequestException
  else Response 200 (json_text nvd_response).

(** A project with a line-oriented manifest naming flask; pip-audit and
    the remote service both report CVE-1 for it. *)
Definition flask_project : world :=
  {| path_exists := fun name => String.eqb name "requirements.txt";
     read_text := fun name => Ok ("flask" ++ String newline EmptyString);
     run := fun c =>
              match c with
              | PipAudit => Completed 1 (json_text pip_audit_report)
              | _ => RunRaises FileNotFoundError
              end;
     requests_available := true;
     http_get := fun _ _ _ => Response 200 (json_text nvd_response) |}.

(** A project whose JSON manifest holds the array [[]]; npm is not
    installed. *)
Definition array_manifest_project : world :=
  {| path_exists := fun name => String.eqb name "package.json";
     read_text := fun name => Ok "[]";
     run := fun c => RunRaises FileNotFoundError;
     requests_available := true;
     http_get := fun _ _ _ => Response 200 (json_text nvd_response) |}.

Definition pip_finding (name text : string) : Finding :=
  {| package_type := "pip"; package := JStr name; description := JStr text |}.

(** A remote service that answers the second request with a body that is
    not JSON. *)
Definition second_body_not_json (i : nat) (keyword : string) : http_outcome :=
  if Nat.eqb i 1
  then Response 200 "<html>Service unavailable</html>"
  else Response 200 (json_text nvd_response).

(** A remote service that answers the second request with status 503. *)
Definition second_status_503 (i : nat) (keyword : string) : http_outcome :=
  if Nat.eqb i 1
  then Response 503 EmptyString
  else Response 200 (json_text nvd_response).

(** The entries of a dependency group of a manifest, none when the group
    is absent. *)
Definition group_entries (fields : list (string * json))
           (dep_type : string) : list (string * json) :=
  match assoc dep_type fields with
  | Some (JObj entries) => entries
  | _ => []
  end.

(** A line that is blank or a comment once stripped. *)
Definition blank_or_comment (line : string) : bool :=
  is_empty (py_strip line) || startswith "#" (py_strip line).

Definition not_space (c : ascii) : bool := negb (is_space c).

(** The reports of the audit tools, as their formats describe them, and
    the JSON that carries them.  A field that a report may leave out is
    an [option]. *)
Definition text_or (default : string) (o : option string) : string :=
  match o with
  | Some s => s
  | None => default
  end.

(** npm 7 and later: for each vulnerable package, the list [via] names
    other packages or gives advisories. *)
Record npm_advisory : Type := {
  adv_title : option string;
  adv_cve : option string;
  adv_url : option string
}.

Inductive npm_via : Type :=
| ViaPackage (name : string)
| ViaAdvisory (a : npm_advisory).

Record npm_vulnerability : Type := {
  vuln_severity : option string;
  vuln_via : list npm_via
}.

Definition encode_via (v : npm_via) : json :=
  match v with
  | ViaPackage name => JStr name
  | ViaAdvisory a =>
      JObj (encode_field "title" (option_map JStr (adv_title a))
              ++ encode_field "cve" (option_map JStr (adv_cve a))
              ++ encode_field "url" (option_map JStr (adv_url a)))%list
  end.

Definition encode_npm_vulnerability (v : npm_vulnerability) : json :=
  JObj (encode_field "severity" (option_map JStr (vuln_severity v))
          ++ [("via", JArr (map encode_via (vuln_via v)))])%list.

Definition version_two : pynum := {| num_val := 2 # 1; num_text := "2" |}.

Definition encode_npm_vulnerabilities
           (report : list (string * npm_vulnerability)) : json :=
  JObj (map (fun entry => (fst entry, encode_npm_vulnerability (snd entry)))
            report).

Definition encode_npm_report (report : list (string * npm_vulnerability))
  : json :=
  JObj [("auditReportVersion", JNum version_two);
        ("vulnerabilities", encode_npm_vulnerabilities report);
        ("metadata", JObj [])].

(** The text for one advisory: the title, after the CVE when there is
    one, before the URL when there is one. *)
Definition advisory_text (a : npm_advisory) : string :=
  let title := text_or EmptyString (adv_title a) in
  let cve := text_or EmptyString (adv_cve a) in
  let url := text_or EmptyString (adv_url a) in
  let desc := if is_empty cve then title else cve ++ ": " ++ title in
  if is_empty url then desc else desc ++ " - " ++ url.

Definition via_texts (vias : list npm_via) : list string :=
  flat_map (fun v =>
              match v with
              | ViaAdvisory a => [advisory_text a]
              | ViaPackage _ => []
              end)
           vias.

(** The finding of one package: none when [via] gives no advisory. *)
Definition npm_package_finding (entry : string * npm_vulnerability)
  : list Finding :=
  match via_texts (vuln_via (snd entry)) with
  | [] => []
  | parts =>
      [{| package_type := "npm";
          package := JStr (fst entry);
          description := JStr (String.concat " | " parts) |}]
  end.

(** npm 6: advisories by identifier. *)
Record npm_v6_record : Type := {
  v6_module_name : option string;
  v6_title : option string;
  v6_severity : option string
}.

Definition encode_npm_v6_record (a : npm_v6_record) : json :=
  JObj (encode_field "module_name" (option_map JStr (v6_module_name a))
          ++ encode_field "title" (option_map JStr (v6_title a))
          ++ encode_field "severity" (option_map JStr (v6_severity a)))%list.

Definition encode_npm_advisories
           (advisories : list (string * npm_v6_record)) : json :=
  JObj (map (fun entry => (fst entry, encode_npm_v6_record (snd entry)))
            advisories).

Definition encode_npm_v6_report (advisories : list (string * npm_v6_record))
  : json :=
  JObj [("actions", JArr []);
        ("advisories", encode_npm_advisories advisories);
        ("metadata", JObj [])].

Definition npm_v6_finding (entry : string * npm_v6_record) : Finding :=
  {| package_type := "npm";
     package := JStr (text_or "unknown" (v6_module_name (snd entry)));
     description :=
       JStr (text_or "No title" (v6_title (snd entry))
               ++ " - Severity: "
               ++ text_or "unknown" (v6_severity (snd entry))) |}.

(** pip-audit: dependencies, each with its vulnerabilities. *)
Record pip_vulnerability : Type := {
  pv_id : option string;
  pv_description : option string
}.

Record pip_dependency : Type := {
  dep_name : option string;
  dep_vulns : option (list pip_vulnerability)
}.

Definition encode_pip_vulnerability (v : pip_vulnerability) : json :=
  JObj (encode_field "id" (option_map JStr (pv_id v))
          ++ encode_field "description"
               (option_map JStr (pv_description v)))%list.

Definition encode_pip_dependency (d : pip_dependency) : json :=
  JObj (encode_field "name" (option_map JStr (dep_name d))
          ++ encode_field "vulns"
               (option_map
                  (fun vs => JArr (map encode_pip_vulnerability vs))
                  (dep_vulns d)))%list.

Definition encode_pip_dependencies (deps : list pip_dependency) : json :=
  JArr (map encode_pip_dependency deps).

Definition encode_pip_report (deps : list pip_dependency) : json :=
  JObj [("dependencies", encode_pip_dependencies deps);
        ("fixes", JArr [])].

Definition pip_dependency_findings (d : pip_dependency) : list Finding :=
  map (fun v =>
         {| package_type := "pip";
            package := JStr (text_or "unknown" (dep_name d));
            description :=
              JStr (text_or "Unknown CVE" (pv_id v) ++ ": "
                      ++ text_or "No description available"
                           (pv_description v)) |})
      (match dep_vulns d with Some vs => vs | None => [] end).

(** A [json.loads] that reads the text of one document. *)
Definition loads_as (doc : json) (text : string) : option json :=
  if String.eqb text (json_text doc) then Some doc else None.

(** The finding the remote provider builds for a record of the schema. *)
Definition nvd_finding (package_type pkg_name version : string)
           (r : cve_record) : Finding :=
  {| package_type := package_type;
     package := JStr pkg_name;
     description := JStr (expected_description version r) |}.

Definition encode_records (records : list cve_record) : json :=
  JArr (map encode_record records).

(** How far the loop over the packages goes: the number of packages whose
    turn is begun, the last one being the first that lets an exception
    out, and how the loop ends. *)
Fixpoint turns_begun (http : nat -> string -> http_outcome)
         (package_type : string) (entries : list (nat * (string * string)))
  : nat :=
  match entries with
  | [] => 0
  | entry :: rest =>
      match snd (package_effect http package_type entry) with
      | Ok _ => S (turns_begun http package_type rest)
      | Err _ => 1
      end
  end.

Fixpoint loop_end (http : nat -> string -> http_outcome)
         (package_type : string) (entries : list (nat * (string * string)))
  : res unit :=
  match entries with
  | [] => Ok tt
  | entry :: rest =>
      match snd (package_effect http package_type entry) with
      | Ok _ => loop_end http package_type rest
      | Err e => Err e
      end
  end.

(** Where a finding of the remote provider comes from. *)
Definition nvd_provenance (ecosystem : string)
           (packages : list (string * string)) (f : Finding) : Prop :=
  package_type f = ecosystem
  /\ (exists name version,
        In (name, version) packages /\ package f = JStr name)
  /\ (exists text, description f = JStr text).

(** What a scan of [w] may do: run npm audit when the JSON manifest is
    there, run the Python tools when the line-oriented manifest is there,
    and, when [requests] was imported, query the remote service for the
    packages of a manifest that is there and sleep. *)
Definition allowed_event (w : world) (ev : event) : Prop :=
  match ev with
  | Run NpmAudit => path_exists w "package.json" = true
  | Run _ => path_exists w "requirements.txt" = true
  | Get keyword =>
      requests_available w = true
      /\ ((startswith "npm " keyword = true
           /\ path_exists w "package.json" = true)
          \/ (startswith "python " keyword = true
              /\ path_exists w "requirements.txt" = true))
  | Sleep seconds => requests_available w = true /\ seconds = request_delay
  end.

Definition hashable_finding (f : Finding) : bool := key_hashable (key_of f).

(** A step of the scan emits events of [P] only, after those already
    there. *)
Definition emits (P : event -> Prop)
           (stage : scan_state -> scan_state * res unit) : Prop :=
  forall done kept seen,
  exists emitted,
    fst (fst (fst (stage (done, kept, seen)))) = (done ++ emitted)%list
    /\ Forall P emitted.

(** When a step of the scan ends without an exception, what it merged
    could be hashed. *)
Definition merges_hashable (stage : scan_state -> scan_state * res unit)
           (r : res (list Finding)) : Prop :=
  forall st st' vulns,
    stage st = (st', Ok tt) -> r = Ok vulns ->
    forallb hashable_finding vulns = true.

(** More sample data: a report of npm 7 with an advisory and two entries
    that name packages, a report of npm 6, a response with a record whose
    metric block is an object, and a report of the second Python tool
    whose description is a list. *)
Definition sample_v7_report : list (string * npm_vulnerability) :=
  [("left-pad",
    {| vuln_severity := Some "high";
       vuln_via :=
         [ViaAdvisory {| adv_title := Some "bad";
                         adv_cve := Some "CVE-1";
                         adv_url := Some "https://example.com/1" |};
          ViaPackage "pad";
          ViaAdvisory {| adv_title := Some "worse";
                         adv_cve := None;
                         adv_url := None |}] |});
   ("pad",
    {| vuln_severity := Some "high";
       vuln_via := [ViaPackage "left-pad"] |})].

Definition sample_v6_report : list (string * npm_v6_record) :=
  [("1179",
    {| v6_module_name := Some "minimist";
       v6_title := Some "Prototype Pollution";
       v6_severity := Some "low" |});
   ("1500",
    {| v6_module_name := None; v6_title := None; v6_severity := None |})].

Definition sample_pip_report : list pip_dependency :=
  [{| dep_name := Some "flask";
      dep_vulns := Some [{| pv_id := Some "CVE-1";
                            pv_description := Some "bad" |};
                         {| pv_id := None; pv_description := None |}] |};
   {| dep_name := Some "requests"; dep_vulns := Some [] |}].

Definition odd_metrics_record : json :=
  JObj [("cve",
         JObj [("id", JStr "CVE-3");
               ("metrics",
                JObj [("cvssMetricV31",
                       JObj [("cvssData", JObj [])])])])].

Definition odd_response : json :=
  JObj [("vulnerabilities",
         JArr [encode_record plain_record; odd_metrics_record;
               encode_record v2_only_record])].

Definition list_description_report : json :=
  JArr [JArr [JStr "flask"; JStr "<1.0"; JStr "0.12";
              JArr [JStr "bad"; JStr "thing"]; JStr "36388"]].

(** A project with a line-oriented manifest, where pip-audit is not
    installed and the second tool prints [list_description_report]. *)
Definition list_description_project : world :=
  {| path_exists := fun name => String.eqb name "requirements.txt";
     read_text := fun name => Ok ("flask" ++ String newline EmptyString);
     run := fun c =>
              match c with
              | SafetyCheck =>
                  Completed 255 (json_text list_description_report)
              | _ => RunRaises FileNotFoundError
              end;
     requests_available := true;
     http_get := fun _ _ _ => Response 200 (json_text nvd_response) |}.

Definition npm_finding (name text : string) : Finding :=
  {| package_type := "npm"; package := JStr name; description := JStr text |}.

(** A finding with the version of the package after its description, as
    the remote provider writes it. *)
Definition with_version (version : string) (f : Finding) : Finding :=
  if is_empty version then f
  else
    match description f with
    | JStr text =>
        {| package_type := package_type f;
           package := package f;
           description :=
             JStr (text ++ " (Package version: " ++ version ++ ")") |}
    | _ => f
    end.

(** The two ecosystems. *)
Definition known_ecosystem (f : Finding) : Prop :=
  package_type f = "npm" \/ package_type f = "pip".





(** * Properties *)

(** ** Strings *)

Lemma app_empty_r (s : string) : s ++ EmptyString = s.
Proof.
  induction s as [|c s IH]; simpl; [reflexivity | now rewrite IH].
Qed.

Lemma app_assoc_str (a b c : string) : (a ++ b) ++ c = a ++ (b ++ c).
Proof.
  induction a as [|x a IH]; simpl; [reflexivity | now rewrite IH].
Qed.

Lemma is_empty_true (s : string) : is_empty s = true <-> s = EmptyString.
Proof.
  destruct s; simpl; split; intro H; auto; discriminate.
Qed.

Lemma is_empty_false (s : string) : is_empty s = false <-> s <> EmptyString.
Proof.
  destruct s; simpl; split; intro H; auto; try discriminate.
  now contradiction H.
Qed.

Lemma take_drop (p : ascii -> bool) (s : string) :
  take_while p s ++ drop_while p s = s.
Proof.
  induction s as [|c s IH]; simpl; [reflexivity|].
  destruct (p c); simpl; [now rewrite IH | reflexivity].
Qed.

Lemma take_while_all (p : ascii -> bool) (s : string) :
  all_chars p (take_while p s).
Proof.
  unfold all_chars.
  induction s as [|c s IH]; simpl; [reflexivity|].
  destruct (p c) eqn:E; simpl; [now rewrite E | reflexivity].
Qed.

Lemma drop_while_stops (p : ascii -> bool) (s : string) :
  stops p (drop_while p s).
Proof.
  induction s as [|c s IH]; simpl; [exact I|].
  destruct (p c) eqn:E; simpl; [exact IH | exact E].
Qed.

Lemma take_while_app (p : ascii -> bool) (a b : string) :
  all_chars p a -> take_while p (a ++ b) = a ++ take_while p b.
Proof.
  unfold all_chars.
  induction a as [|c a IH]; simpl; intro H; [reflexivity|].
  apply andb_true_iff in H as [Hc Ha].
  now rewrite Hc, IH.
Qed.

Lemma drop_while_app (p : ascii -> bool) (a b : string) :
  all_chars p a -> drop_while p (a ++ b) = drop_while p b.
Proof.
  unfold all_chars.
  induction a as [|c a IH]; simpl; intro H; [reflexivity|].
  apply andb_true_iff in H as [Hc Ha].
  now rewrite Hc, IH.
Qed.

Lemma take_while_stops (p : ascii -> bool) (s : string) :
  stops p s -> take_while p s = EmptyString.
Proof.
  destruct s as [|c s]; simpl; intro H; [reflexivity | now rewrite H].
Qed.

Lemma drop_while_stops_id (p : ascii -> bool) (s : string) :
  stops p s -> drop_while p s = s.
Proof.
  destruct s as [|c s]; simpl; intro H; [reflexivity | now rewrite H].
Qed.

(** A run of the class [p] followed by something that is not in the class
    is what [take_while] takes. *)
Lemma span_app (p : ascii -> bool) (a b : string) :
  all_chars p a -> stops p b ->
  take_while p (a ++ b) = a /\ drop_while p (a ++ b) = b.
Proof.
  intros Ha Hb.
  rewrite take_while_app, drop_while_app by assumption.
  rewrite take_while_stops, drop_while_stops_id by assumption.
  now rewrite app_empty_r.
Qed.

Lemma all_chars_app (p : ascii -> bool) (a b : string) :
  all_chars p (a ++ b) <-> all_chars p a /\ all_chars p b.
Proof.
  unfold all_chars.
  induction a as [|c a IH]; simpl.
  - tauto.
  - rewrite !andb_true_iff, IH. tauto.
Qed.

(** The head of [a ++ b] when [a] is a non-empty run of a class. *)
Lemma stops_app (p q : ascii -> bool) (a b : string) :
  (forall c, q c = true -> p c = false) ->
  a <> EmptyString -> all_chars q a -> stops p (a ++ b).
Proof.
  intros Hpq Hne Ha.
  destruct a as [|c a]; [now contradiction Hne|].
  simpl. apply Hpq.
  unfold all_chars in Ha. simpl in Ha.
  now apply andb_true_iff in Ha as [Hc _].
Qed.

(** The head of [a ++ b] when [a] is a possibly empty run of a class and
    [b] stops too. *)
Lemma stops_app_opt (p q : ascii -> bool) (a b : string) :
  (forall c, q c = true -> p c = false) ->
  all_chars q a -> stops p b -> stops p (a ++ b).
Proof.
  intros Hpq Ha Hb.
  destruct a as [|c a]; [exact Hb|].
  simpl. apply Hpq.
  unfold all_chars in Ha. simpl in Ha.
  now apply andb_true_iff in Ha as [Hc _].
Qed.

(** The character classes of the requirement pattern are pairwise
    disjoint where one follows another. *)
Ltac by_cases_on_char c :=
  destruct c as [[] [] [] [] [] [] [] []]; vm_compute; intro;
  first [reflexivity | discriminate].

Lemma space_not_name (c : ascii) : is_space c = true -> is_name_char c = false.
Proof. by_cases_on_char c. Qed.

Lemma op_not_name (c : ascii) : is_op_char c = true -> is_name_char c = false.
Proof. by_cases_on_char c. Qed.

Lemma op_not_space (c : ascii) : is_op_char c = true -> is_space c = false.
Proof. by_cases_on_char c. Qed.

Lemma space_not_op (c : ascii) : is_space c = true -> is_op_char c = false.
Proof. by_cases_on_char c. Qed.

Lemma version_not_op (c : ascii) :
  is_version_char c = true -> is_op_char c = false.
Proof. by_cases_on_char c. Qed.

Lemma version_not_space (c : ascii) :
  is_version_char c = true -> is_space c = false.
Proof. by_cases_on_char c. Qed.

Lemma name_not_space (c : ascii) :
  is_name_char c = true -> is_space c = false.
Proof. by_cases_on_char c. Qed.

Lemma hash_not_name (c : ascii) :
  Ascii.eqb c "#" = true -> is_name_char c = false.
Proof. by_cases_on_char c. Qed.

(** ** The requirement pattern *)

(** What [match_requirement] returns is a match of the pattern. *)
Lemma match_requirement_sound (line name version : string) :
  match_requirement line = Some (name, version) ->
  requirement_match line name version.
Proof.
  unfold match_requirement.
  set (n := take_while is_name_char line).
  set (r1 := drop_while is_name_char line).
  set (r2 := drop_while is_space r1).
  set (o := take_while is_op_char r2).
  set (r3 := drop_while is_op_char r2).
  set (r4 := drop_while is_space r3).
  set (v := take_while is_version_char r4).
  destruct (is_empty n) eqn:En; [discriminate|].
  destruct (is_empty o) eqn:Eo; [discriminate|].
  destruct (is_empty v) eqn:Ev; [discriminate|].
  simpl. intro H. injection H as <- <-.
  exists (take_while is_space r1), o, (take_while is_space r3),
    (drop_while is_version_char r4).
  repeat split; try apply take_while_all; try now apply is_empty_false.
  subst n r1 r2 o r3 r4 v.
  now rewrite !take_drop.
Qed.

(** Whenever the pattern matches, [match_requirement] returns group 1 of
    the match and the longest group 3. *)
Lemma match_requirement_complete (line name version : string) :
  requirement_match line name version ->
  exists more, match_requirement line = Some (name, version ++ more)
               /\ all_chars is_version_char more.
Proof.
  intros (sp1 & op & sp2 & rest & -> & Hn & Hna & Hs1 & Ho & Hoa & Hs2
          & Hv & Hva).
  assert (Hstop_o : stops is_space (op ++ sp2 ++ version ++ rest))
    by (apply stops_app with (q := is_op_char); auto using op_not_space).
  assert (Hstop_n : stops is_name_char (sp1 ++ op ++ sp2 ++ version ++ rest)).
  { apply stops_app_opt with (q := is_space); auto using space_not_name.
    apply stops_app with (q := is_op_char); auto using op_not_name. }
  assert (Hstop_v : stops is_space (version ++ rest))
    by (apply stops_app with (q := is_version_char);
        auto using version_not_space).
  assert (Hstop_s : stops is_op_char (sp2 ++ version ++ rest)).
  { apply stops_app_opt with (q := is_space); auto using space_not_op.
    apply stops_app with (q := is_version_char); auto using version_not_op. }
  exists (take_while is_version_char rest).
  split; [|apply take_while_all].
  unfold match_requirement.
  destruct (span_app is_name_char name _ Hna Hstop_n) as [-> ->].
  destruct (span_app is_space sp1 _ Hs1 Hstop_o) as [_ ->].
  destruct (span_app is_op_char op _ Hoa Hstop_s) as [-> ->].
  destruct (span_app is_space sp2 _ Hs2 Hstop_v) as [_ ->].
  rewrite (take_while_app _ _ rest Hva).
  apply is_empty_false in Hn, Ho. rewrite Hn, Ho. simpl.
  destruct version; [now contradiction Hv | reflexivity].
Qed.

Lemma match_bare_name_token (line name : string) :
  match_bare_name line = Some name <-> name_token line name.
Proof.
  unfold match_bare_name, name_token. split.
  - destruct (is_empty (take_while is_name_char line)) eqn:E; [discriminate|].
    intro H. injection H as <-.
    exists (drop_while is_name_char line).
    split; [symmetry; apply take_drop|].
    split; [now apply is_empty_false|].
    split; [apply take_while_all | apply drop_while_stops].
  - intros (rest & -> & Hn & Ha & Hs).
    destruct (span_app is_name_char name rest Ha Hs) as [-> _].
    apply is_empty_false in Hn. now rewrite Hn.
Qed.

Lemma match_bare_name_none (line : string) :
  match_bare_name line = None <-> stops is_name_char line.
Proof.
  unfold match_bare_name.
  destruct line as [|c t]; simpl; [tauto|].
  destruct (is_name_char c); simpl; split; intro H;
    reflexivity || discriminate.
Qed.

Lemma bare_name_match_head (line name : string) :
  bare_name_match line name -> ~ stops is_name_char line.
Proof.
  intros (rest & -> & Hn & Ha) Hs.
  destruct name as [|c name]; [now contradiction Hn|].
  unfold all_chars in Ha. simpl in Ha, Hs.
  apply andb_true_iff in Ha as [Hc _]. congruence.
Qed.

(** ** The line-oriented manifest *)

(** A loop whose body only appends. *)
Lemma for_each_append {X Y : Type} (f : X -> list Y) (xs : list X)
      (acc : list Y) :
  for_each (fun x acc => ((acc ++ f x)%list, Ok tt)) xs acc
  = ((acc ++ flat_map f xs)%list, Ok tt).
Proof.
  revert acc. induction xs as [|x xs IH]; intro acc; simpl.
  - now rewrite List.app_nil_r.
  - now rewrite IH, <- List.app_assoc.
Qed.

(** The parser as a function of the text of the manifest. *)
Lemma parse_requirements_txt_text (text : string) :
  _parse_requirements_txt (Ok text)
  = Ok (flat_map parse_requirement_line (readlines text)).
Proof.
  unfold _parse_requirements_txt.
  now rewrite for_each_append.
Qed.

Lemma parse_requirements_txt_error (e : exn) :
  _parse_requirements_txt (Err e)
  = if requirements_caught e then Ok [] else Err e.
Proof.
  unfold _parse_requirements_txt. simpl.
  now destruct (requirements_caught e).
Qed.

(** What one line can append. *)
Lemma parse_requirement_line_cases (raw : string) :
  parse_requirement_line raw = []
  \/ (exists name version,
         parse_requirement_line raw = [(name, version)]
         /\ requirement_match (py_strip raw) name version)
  \/ (exists name,
         parse_requirement_line raw = [(name, EmptyString)]
         /\ name_token (py_strip raw) name).
Proof.
  unfold parse_requirement_line.
  destruct (is_empty (py_strip raw) || startswith "#" (py_strip raw));
    [now left|].
  destruct (match_requirement (py_strip raw)) as [[name version]|] eqn:E.
  - right; left. exists name, version.
    split; [reflexivity | now apply match_requirement_sound].
  - destruct (match_bare_name (py_strip raw)) as [name|] eqn:B; [|now left].
    right; right. exists name.
    split; [reflexivity | now apply match_bare_name_token].
Qed.

(** C10: every (name, version) pair the line-oriented manifest parser
    returns has a non-empty name made of [A-Za-z0-9_-] only, and a version
    that is either empty or a non-empty string of decimal digits and
    dots. *)
Theorem requirements_pairs_well_formed
        (file : res string) (packages : list (string * string))
        (name version : string) :
  _parse_requirements_txt file = Ok packages ->
  In (name, version) packages ->
  (name <> EmptyString /\ all_chars is_name_char name)
  /\ (version = EmptyString
      \/ (version <> EmptyString /\ all_chars is_version_char version)).
Proof.
  intros Hparse Hin.
  destruct file as [text|e].
  - rewrite parse_requirements_txt_text in Hparse.
    injection Hparse as <-.
    apply in_flat_map in Hin as (raw & _ & Hin).
    destruct (parse_requirement_line_cases raw)
      as [H | [(n & v & H & Hm) | (n & H & Hm)]];
      rewrite H in Hin; simpl in Hin.
    + contradiction.
    + destruct Hin as [Heq|[]]. injection Heq as -> ->.
      destruct Hm as (sp1 & op & sp2 & rest & _ & Hn & Hna & _ & _ & _ & _
                      & Hv & Hva).
      split; [split; assumption | right; split; assumption].
    + destruct Hin as [Heq|[]]. injection Heq as -> <-.
      destruct Hm as (rest & _ & Hn & Hna & _).
      split; [split; assumption | now left].
  - rewrite parse_requirements_txt_error in Hparse.
    destruct (requirements_caught e); [|discriminate].
    injection Hparse as <-. contradiction.
Qed.

(** The parser raises nothing but what opening the file raised, and that
    only when it is not [FileNotFoundError]. *)
Lemma parse_requirements_txt_total (file : res string) :
  (exists packages, _parse_requirements_txt file = Ok packages)
  \/ (exists e, file = Err e /\ e <> FileNotFoundError
                /\ _parse_requirements_txt file = Err e).
Proof.
  destruct file as [text|e].
  - left. eexists. apply parse_requirements_txt_text.
  - rewrite parse_requirements_txt_error.
    destruct e; simpl; try (right; eexists; repeat split; discriminate).
    left. now eexists.
Qed.

Lemma name_head_not_blank_or_comment (line : string) :
  ~ stops is_name_char line ->
  is_empty line || startswith "#" line = false.
Proof.
  destruct line as [|c t]; cbn [is_empty startswith orb stops]; intro H;
    [now contradiction H|].
  rewrite andb_true_r.
  destruct (Ascii.eqb "#" c) eqn:E; [|reflexivity].
  apply Ascii.eqb_eq in E as <-.
  contradiction H. reflexivity.
Qed.

Lemma blank_or_comment_stops (line : string) :
  is_empty line || startswith "#" line = true -> stops is_name_char line.
Proof.
  destruct line as [|c t]; cbn [is_empty startswith orb stops]; intro H;
    [exact I|].
  rewrite andb_true_r in H.
  apply Ascii.eqb_eq in H as <-. reflexivity.
Qed.

Lemma match_requirement_stops (line : string) :
  stops is_name_char line -> match_requirement line = None.
Proof.
  intro H. unfold match_requirement.
  now rewrite (take_while_stops _ _ H).
Qed.

(** A line appends nothing exactly when, stripped, it does not begin with
    a character of a name. *)
Lemma parse_requirement_line_nil (raw : string) :
  parse_requirement_line raw = [] <-> stops is_name_char (py_strip raw).
Proof.
  unfold parse_requirement_line.
  set (line := py_strip raw).
  destruct (is_empty line || startswith "#" line) eqn:E.
  - split; [intros _; now apply blank_or_comment_stops | reflexivity].
  - split.
    + destruct (match_requirement line) as [[n v]|]; [discriminate|].
      destruct (match_bare_name line) eqn:B; [discriminate|].
      intros _. now apply match_bare_name_none.
    + intro H. rewrite (match_requirement_stops _ H).
      apply match_bare_name_none in H. now rewrite H.
Qed.

(** C4 (as the code has it): a line that matches neither pattern appends
    nothing; a line whose operator and version part does not match but
    which begins with a bare name token appends (name, ""); the lines
    that append nothing are exactly those which, stripped, do not begin
    with a character of [A-Za-z0-9_-].  A URL line begins with the name
    token [https] and an editable install with the name token [-e]: they
    are not skipped. *)
Theorem requirement_line_emission (raw : string) :
  let line := py_strip raw in
  ((forall n v, ~ requirement_match line n v) ->
   (forall n, ~ bare_name_match line n) ->
   parse_requirement_line raw = [])
  /\ (forall name,
        (forall n v, ~ requirement_match line n v) ->
        name_token line name ->
        parse_requirement_line raw = [(name, EmptyString)])
  /\ (parse_requirement_line raw = [] <-> stops is_name_char line)
  /\ (forall rest,
        line = "https://" ++ rest ->
        parse_requirement_line raw = [("https", EmptyString)])
  /\ (forall rest,
        line = "-e " ++ rest ->
        exists version, parse_requirement_line raw = [("-e", version)]).
Proof.
  intro line.
  assert (Hbare : forall name,
             (forall n v, ~ requirement_match line n v) ->
             name_token line name ->
             parse_requirement_line raw = [(name, EmptyString)]).
  { intros name Hno Htok.
    unfold parse_requirement_line. fold line.
    assert (Hhead : ~ stops is_name_char line).
    { destruct Htok as (rest & E & Hn & Ha & _).
      apply bare_name_match_head with (name := name).
      now exists rest. }
    rewrite (name_head_not_blank_or_comment _ Hhead).
    destruct (match_requirement line) as [[n v]|] eqn:E.
    - exfalso. apply (Hno n v). now apply match_requirement_sound.
    - apply match_bare_name_token in Htok. now rewrite Htok. }
  split; [|split; [exact Hbare | split; [apply parse_requirement_line_nil|]]].
  - intros Hno Hnob.
    apply parse_requirement_line_nil. fold line.
    destruct line as [|c t] eqn:El; [exact I|].
    simpl. destruct (is_name_char c) eqn:Ec; [|reflexivity].
    exfalso. apply (Hnob (String c EmptyString)).
    exists t. simpl. unfold all_chars. simpl. rewrite Ec.
    repeat split; discriminate.
  - split.
    + intros rest E. apply Hbare.
      * intros n v Hm.
        apply match_requirement_complete in Hm as (more & Hm & _).
        rewrite E in Hm. discriminate Hm.
      * exists ("://" ++ rest). rewrite E.
        repeat split; discriminate.
    + intros rest E.
      unfold parse_requirement_line. fold line. rewrite E.
      change (is_empty ("-e " ++ rest) || startswith "#" ("-e " ++ rest))
        with false.
      cbv iota.
      destruct (match_requirement ("-e " ++ rest)) as [[n v]|] eqn:M.
      * exists v. f_equal. f_equal.
        unfold match_requirement in M. simpl in M.
        destruct (is_empty _ || is_empty _) in M; [discriminate|].
        now injection M as <- _.
      * exists EmptyString. reflexivity.
Qed.

(** ** The JSON manifest: versions *)

Lemma str_filter_app (p : ascii -> bool) (a b : string) :
  str_filter p (a ++ b) = str_filter p a ++ str_filter p b.
Proof.
  induction a as [|c a IH]; simpl; [reflexivity|].
  destruct (p c); simpl; now rewrite IH.
Qed.

Lemma str_filter_all (p : ascii -> bool) (s : string) :
  all_chars p (str_filter p s).
Proof.
  unfold all_chars.
  induction s as [|c s IH]; simpl; [reflexivity|].
  destruct (p c) eqn:E; simpl; [now rewrite E | exact IH].
Qed.

Lemma str_filter_id (p : ascii -> bool) (s : string) :
  all_chars p s -> str_filter p s = s.
Proof.
  unfold all_chars.
  induction s as [|c s IH]; simpl; intro H; [reflexivity|].
  apply andb_true_iff in H as [Hc Hs]. now rewrite Hc, IH.
Qed.

Lemma str_filter_none (p : ascii -> bool) (s : string) :
  all_chars (fun c => negb (p c)) s -> str_filter p s = EmptyString.
Proof.
  unfold all_chars.
  induction s as [|c s IH]; simpl; intro H; [reflexivity|].
  apply andb_true_iff in H as [Hc Hs].
  apply negb_true_iff in Hc. now rewrite Hc, IH.
Qed.

Lemma all_chars_drop_while (p q : ascii -> bool) (s : string) :
  all_chars p s -> all_chars p (drop_while q s).
Proof.
  unfold all_chars.
  induction s as [|c s IH]; simpl; intro H; [reflexivity|].
  destruct (q c); [|exact H].
  apply andb_true_iff in H as [_ Hs]. now apply IH.
Qed.

Lemma all_chars_rstrip (p : ascii -> bool) (s : string) :
  all_chars p s -> all_chars p (rstrip s).
Proof.
  unfold all_chars.
  induction s as [|c s IH]; simpl; intro H; [reflexivity|].
  apply andb_true_iff in H as [Hc Hs].
  destruct (is_space c && is_empty (rstrip s)); simpl; [reflexivity|].
  now rewrite Hc, IH.
Qed.

(** What [rstrip] removes is white space at the end. *)
Lemma rstrip_split (s : string) :
  exists post, s = rstrip s ++ post /\ all_chars is_space post.
Proof.
  induction s as [|c s (post & E & Hp)]; simpl.
  - exists EmptyString. now split.
  - destruct (is_space c) eqn:Ec; simpl.
    + destruct (is_empty (rstrip s)) eqn:Er.
      * apply is_empty_true in Er. rewrite Er in E. simpl in E. subst post.
        exists (String c s). split; [reflexivity|].
        unfold all_chars in *. simpl. now rewrite Ec.
      * exists post. split; [simpl; now rewrite <- E | exact Hp].
    + exists post. split; [simpl; now rewrite <- E | exact Hp].
Qed.

Lemma rstrip_last (s a : string) (c : ascii) :
  rstrip s = a ++ String c EmptyString -> is_space c = false.
Proof.
  revert a. induction s as [|x s IH]; intros a; simpl.
  - destruct a; discriminate.
  - destruct (is_space x && is_empty (rstrip s)) eqn:E.
    + destruct a; discriminate.
    + destruct a as [|y a]; simpl; intro H; injection H as -> H.
      * rewrite H in E. simpl in E. now rewrite andb_true_r in E.
      * now apply IH with (a := a).
Qed.

Lemma rstrip_stops (p : ascii -> bool) (s : string) :
  stops p s -> stops p (rstrip s).
Proof.
  destruct s as [|c s]; simpl; intro H; [exact I|].
  now destruct (is_space c && is_empty (rstrip s)).
Qed.

(** [strip] takes white space off both ends and nothing else. *)
Lemma py_strip_split (s : string) :
  exists pre post,
    s = pre ++ py_strip s ++ post
    /\ all_chars is_space pre /\ all_chars is_space post.
Proof.
  destruct (rstrip_split (lstrip s)) as (post & E & Hp).
  exists (take_while is_space s), post.
  split; [|split; [apply take_while_all | exact Hp]].
  unfold py_strip. rewrite <- E. symmetry. apply take_drop.
Qed.

Lemma py_strip_ends (s : string) :
  stops is_space (py_strip s)
  /\ (forall a c, py_strip s = a ++ String c EmptyString ->
                  is_space c = false).
Proof.
  split.
  - apply rstrip_stops, drop_while_stops.
  - intros a c. apply rstrip_last.
Qed.

(** C5 (as the code has it): the parser removes every occurrence of the
    characters ^ ~ > = < from the version, wherever it stands, and then
    trims white space at both ends; every other character is kept, in
    order.  When no such character stands after the leading operators,
    this is stripping the leading operators. *)
Theorem clean_version_removes_every_operator (version : string) :
  all_chars not_range_char (clean_version version)
  /\ (exists pre post,
        str_filter not_range_char version
        = pre ++ clean_version version ++ post
        /\ all_chars is_space pre /\ all_chars is_space post)
  /\ stops is_space (clean_version version)
  /\ (forall a c, clean_version version = a ++ String c EmptyString ->
                  is_space c = false)
  /\ (forall ops rest,
        version = ops ++ rest ->
        all_chars is_range_char ops ->
        all_chars not_range_char rest ->
        clean_version version = py_strip rest).
Proof.
  unfold clean_version. fold not_range_char.
  split; [|split; [|split; [|split]]].
  - apply all_chars_rstrip, all_chars_drop_while, str_filter_all.
  - apply py_strip_split.
  - apply py_strip_ends.
  - apply py_strip_ends.
  - intros ops rest -> Hops Hrest.
    rewrite str_filter_app, str_filter_none, str_filter_id; auto.
    unfold all_chars, not_range_char in *.
    rewrite <- Hops. clear.
    induction ops as [|c ops IH]; simpl; [reflexivity|].
    now rewrite negb_involutive, IH.
Qed.

(** ** The JSON manifest: failures *)

Lemma add_dependencies_strings (entries : list (string * json))
      (packages : list (string * string)) :
  string_versions entries = true ->
  for_each add_dependency entries packages
  = ((packages
        ++ flat_map
             (fun entry =>
                match snd entry with
                | JStr v => [(fst entry, clean_version v)]
                | _ => []
                end)
             entries)%list, Ok tt).
Proof.
  revert packages.
  induction entries as [|[k v] entries IH]; intros packages H; simpl.
  - now rewrite List.app_nil_r.
  - simpl in H. apply andb_true_iff in H as [Hv Hrest].
    destruct v; try discriminate Hv.
    rewrite IH by assumption. simpl.
    now rewrite <- List.app_assoc.
Qed.

Lemma add_dependencies_not_strings (entries : list (string * json))
      (packages : list (string * string)) :
  string_versions entries = false ->
  exists packages',
    for_each add_dependency entries packages = (packages', Err TypeError).
Proof.
  revert packages.
  induction entries as [|[k v] entries IH]; intros packages H; simpl.
  - discriminate H.
  - simpl in H.
    destruct v; simpl in H; try (eexists; reflexivity).
    apply IH with (packages := (packages ++ [(k, clean_version s)])%list) in H.
    exact H.
Qed.

Lemma add_group_well_shaped (fields : list (string * json))
      (dep_type : string) (packages : list (string * string)) :
  group_well_shaped fields dep_type = true ->
  add_group (JObj fields) dep_type packages
  = ((packages ++ group_references fields dep_type)%list, Ok tt).
Proof.
  unfold group_well_shaped, group_references, add_group. simpl.
  destruct (assoc dep_type fields) as [[]|]; try discriminate; simpl.
  - apply add_dependencies_strings.
  - intros _. now rewrite List.app_nil_r.
Qed.

Lemma add_group_ill_shaped (fields : list (string * json))
      (dep_type : string) (packages : list (string * string)) :
  group_well_shaped fields dep_type = false ->
  exists packages' e,
    add_group (JObj fields) dep_type packages = (packages', Err e)
    /\ (e = AttributeError \/ e = TypeError).
Proof.
  unfold group_well_shaped, add_group. simpl.
  destruct (assoc dep_type fields) as [[]|]; try discriminate; simpl;
    try (intros _; exists packages, AttributeError; now auto).
  intro H.
  destruct (add_dependencies_not_strings _ packages H) as (packages' & E).
  exists packages', TypeError. now auto.
Qed.

(** Where the JSON manifest parser does return: for a missing file, a
    text that is not valid JSON, and a JSON object whose dependency groups
    are absent or are objects with string versions, it gives the empty
    list in the failure cases (missing file, invalid JSON, no group) and
    the entries of the groups otherwise. *)
Lemma parse_package_json_returns :
  _parse_package_json (Err FileNotFoundError) = Ok []
  /\ (forall text,
        json_loads text = None ->
        _parse_package_json (Ok text) = Ok [])
  /\ (forall text fields,
        json_loads text = Some (JObj fields) ->
        assoc "dependencies" fields = None ->
        assoc "devDependencies" fields = None ->
        _parse_package_json (Ok text) = Ok [])
  /\ (forall text fields,
        json_loads text = Some (JObj fields) ->
        manifest_well_shaped (JObj fields) = true ->
        _parse_package_json (Ok text)
        = Ok (group_references fields "dependencies"
                ++ group_references fields "devDependencies")%list).
Proof.
  assert (Hshaped : forall text fields,
             json_loads text = Some (JObj fields) ->
             manifest_well_shaped (JObj fields) = true ->
             _parse_package_json (Ok text)
             = Ok (group_references fields "dependencies"
                     ++ group_references fields "devDependencies")%list).
  { intros text fields Hload Hshape.
    simpl in Hshape. apply andb_true_iff in Hshape as [Hd Hdev].
    unfold _parse_package_json. rewrite Hload.
    cbn [for_each].
    rewrite (add_group_well_shaped _ _ _ Hd).
    rewrite (add_group_well_shaped _ _ _ Hdev).
    reflexivity. }
  split; [reflexivity|].
  split; [intros text Hload; unfold _parse_package_json; now rewrite Hload|].
  split; [|exact Hshaped].
  intros text fields Hload Hd Hdev.
  rewrite (Hshaped text fields Hload).
  - unfold group_references. now rewrite Hd, Hdev.
  - simpl. unfold group_well_shaped. now rewrite Hd, Hdev.
Qed.

(** Valid JSON of any other shape makes the parser raise: an exception
    that its [except] clause does not name goes to the caller. *)
Lemma parse_package_json_ill_shaped (text : string) (data : json) :
  json_loads text = Some data ->
  manifest_well_shaped data = false ->
  exists e, _parse_package_json (Ok text) = Err e
            /\ (e = AttributeError \/ e = TypeError).
Proof.
  intros Hload Hshape.
  unfold _parse_package_json. rewrite Hload.
  destruct data as [| | | | |fields];
    try (exists AttributeError; split; [reflexivity | now left]).
  simpl in Hshape. cbn [for_each].
  destruct (group_well_shaped fields "dependencies") eqn:Hd.
  - simpl in Hshape.
    rewrite (add_group_well_shaped _ _ _ Hd).
    destruct (add_group_ill_shaped fields "devDependencies"
                (([] ++ group_references fields "dependencies")%list) Hshape)
      as (packages' & e & -> & He).
    exists e. split; [|exact He].
    destruct He as [-> | ->]; reflexivity.
  - destruct (add_group_ill_shaped fields "dependencies" [] Hd)
      as (packages' & e & -> & He).
    exists e. split; [|exact He].
    destruct He as [-> | ->]; reflexivity.
Qed.

(** ** Loops and exceptions *)

Lemma for_each_raises {X S : Type} (P : exn -> Prop)
      (body : X -> S -> S * res unit) :
  (forall x s s' e, body x s = (s', Err e) -> P e) ->
  forall xs s s' e, for_each body xs s = (s', Err e) -> P e.
Proof.
  intros Hbody xs.
  induction xs as [|x xs IH]; intros s s' e; simpl; [discriminate|].
  destruct (body x s) as [s1 [u|e1]] eqn:E.
  - apply IH.
  - intro H. injection H as _ <-. eapply Hbody, E.
Qed.

Lemma for_each_app {X S : Type} (body : X -> S -> S * res unit)
      (xs ys : list X) (s : S) :
  for_each body (xs ++ ys)%list s
  = match for_each body xs s with
    | (s', Ok _) => for_each body ys s'
    | (s', Err e) => (s', Err e)
    end.
Proof.
  revert s. induction xs as [|x xs IH]; intro s; simpl; [reflexivity|].
  destruct (body x s) as [s1 [u|e1]]; [apply IH | reflexivity].
Qed.

Lemma shape_error_uncaught (e : exn) :
  shape_error e -> audit_caught e = false.
Proof. intros [-> | ->]; reflexivity. Qed.

Lemma py_get_raises (j : json) (k : string) (d : json) (e : exn) :
  py_get j k d = Err e -> shape_error e.
Proof. destruct j; simpl; intro H; inversion H; now left. Qed.

Lemma py_items_raises (j : json) (e : exn) :
  py_items j = Err e -> shape_error e.
Proof. destruct j; simpl; intro H; inversion H; now left. Qed.

Lemma py_iter_raises (j : json) (e : exn) :
  py_iter j = Err e -> shape_error e.
Proof. destruct j; simpl; intro H; inversion H; now right. Qed.

Lemma py_in_raises (k : string) (j : json) (e : exn) :
  py_in k j = Err e -> shape_error e.
Proof. destruct j; simpl; intro H; inversion H; now right. Qed.

Lemma py_iadd_str_raises (j : json) (s : string) (e : exn) :
  py_iadd_str j s = Err e -> shape_error e.
Proof. destruct j; simpl; intro H; inversion H; now right. Qed.

Lemma py_join_raises (sep : string) (parts : list json) (e : exn) :
  py_join sep parts = Err e -> shape_error e.
Proof.
  induction parts as [|p parts IH]; simpl; [discriminate|].
  destruct p; try (intro H; inversion H; now right).
  destruct parts as [|q parts]; [discriminate|].
  destruct (py_join sep (q :: parts)); simpl; [discriminate|].
  intro H. injection H as <-. now apply IH.
Qed.

(** A key found by [in] is found by the subscript, and what is not a dict
    raises [TypeError] there. *)
Lemma py_getitem_after_in (k : string) (j : json) (e : exn) :
  py_in k j = Ok true -> py_getitem j k = Err e -> shape_error e.
Proof.
  destruct j; simpl; try (intros _ H; inversion H; now right).
  destruct (assoc k fields); [discriminate | intro H; discriminate H].
Qed.

Lemma bind_raises {A B : Type} (r : res A) (f : A -> res B) (e : exn) :
  bind r f = Err e ->
  r = Err e \/ exists a, r = Ok a /\ f a = Err e.
Proof.
  destruct r as [a|e']; simpl; intro H.
  - right. now exists a.
  - left. now injection H as ->.
Qed.

Lemma bind_ok {A B : Type} (r : res A) (f : A -> res B) (b : B) :
  bind r f = Ok b -> exists a, r = Ok a /\ f a = Ok b.
Proof.
  destruct r as [a|e']; simpl; intro H; [now exists a | discriminate].
Qed.

(** ** Local audit: what the parsing can raise *)

Ltac bind_step E :=
  apply bind_raises in E as [E | (? & _ & E)];
  [first [ now apply py_get_raises in E
         | now apply py_items_raises in E
         | now apply py_iter_raises in E
         | now apply py_in_raises in E ] |].

Lemma via_description_raises (v : json) (parts parts' : list json) (e : exn) :
  via_description v parts = (parts', Err e) -> shape_error e.
Proof.
  unfold via_description.
  destruct (is_dict v); [|discriminate].
  match goal with |- context [match ?b with _ => _ end] =>
    destruct b as [desc|e0] eqn:E end; [discriminate|].
  intro H. injection H as _ <-.
  do 3 bind_step E.
  match type of E with context [if ?c then _ else _] => destruct c end;
    [now apply py_iadd_str_raises in E | discriminate].
Qed.

Lemma npm_v7_package_raises (entry : string * json)
      (vulns vulns' : list Finding) (e : exn) :
  npm_v7_package entry vulns = (vulns', Err e) -> shape_error e.
Proof.
  unfold npm_v7_package. destruct entry as [pkg_name vuln_data].
  destruct (is_dict vuln_data); [|discriminate].
  match goal with |- context [match ?b with _ => _ end] =>
    destruct b as [vias|e0] eqn:E end.
  - destruct (for_each via_description vias []) as [parts [u|e1]] eqn:F.
    + destruct parts as [|p parts]; [discriminate|].
      destruct (py_join " | " (p :: parts)) eqn:J; [discriminate|].
      intro H. injection H as _ <-. now apply py_join_raises in J.
    + intro H. injection H as _ <-.
      eapply for_each_raises; [|exact F].
      intros x s s' e'. apply via_description_raises.
  - intro H. injection H as _ <-.
    do 2 bind_step E. now apply py_iter_raises in E.
Qed.

Lemma npm_v6_advisory_raises (entry : string * json)
      (vulns vulns' : list Finding) (e : exn) :
  npm_v6_advisory entry vulns = (vulns', Err e) -> shape_error e.
Proof.
  unfold npm_v6_advisory. destruct entry as [advisory_id advisory].
  match goal with |- context [match ?b with _ => _ end] =>
    destruct b as [vuln|e0] eqn:E end; [discriminate|].
  intro H. injection H as _ <-.
  do 3 bind_step E. discriminate.
Qed.

Lemma npm_findings_raises (data : json) (vulns vulns' : list Finding)
      (e : exn) :
  npm_findings data vulns = (vulns', Err e) -> shape_error e.
Proof.
  unfold npm_findings.
  destruct (py_in "vulnerabilities" data) as [[|]|e0] eqn:I.
  - match goal with |- context [match ?b with _ => _ end] =>
      destruct b as [entries|e1] eqn:E end.
    + apply for_each_raises. intros x s s' e'. apply npm_v7_package_raises.
    + intro H. injection H as _ <-.
      apply bind_raises in E as [E | (? & _ & E)];
        [now apply py_getitem_after_in in E | now apply py_items_raises in E].
  - destruct (py_in "advisories" data) as [[|]|e1] eqn:I2.
    + match goal with |- context [match ?b with _ => _ end] =>
        destruct b as [entries|e2] eqn:E end.
      * apply for_each_raises. intros x s s' e'. apply npm_v6_advisory_raises.
      * intro H. injection H as _ <-.
        apply bind_raises in E as [E | (? & _ & E)];
          [now apply py_getitem_after_in in E
          | now apply py_items_raises in E].
    + discriminate.
    + intro H. injection H as _ <-. now apply py_in_raises in I2.
  - intro H. injection H as _ <-. now apply py_in_raises in I.
Qed.

Lemma pip_audit_vuln_raises (pkg_name vuln : json)
      (vulns vulns' : list Finding) (e : exn) :
  pip_audit_vuln pkg_name vuln vulns = (vulns', Err e) -> shape_error e.
Proof.
  unfold pip_audit_vuln.
  match goal with |- context [match ?b with _ => _ end] =>
    destruct b as [found|e0] eqn:E end; [discriminate|].
  intro H. injection H as _ <-.
  do 2 bind_step E. discriminate.
Qed.

Lemma pip_audit_dependency_raises (dep : json)
      (vulns vulns' : list Finding) (e : exn) :
  pip_audit_dependency dep vulns = (vulns', Err e) -> shape_error e.
Proof.
  unfold pip_audit_dependency.
  match goal with |- context [match ?b with _ => _ end] =>
    destruct b as [[pkg_name vs]|e0] eqn:E end.
  - apply for_each_raises. intros x s s' e'. apply pip_audit_vuln_raises.
  - intro H. injection H as _ <-.
    do 3 bind_step E. discriminate.
Qed.

Lemma pip_audit_findings_raises (data : json)
      (vulns vulns' : list Finding) (e : exn) :
  pip_audit_findings data vulns = (vulns', Err e) -> shape_error e.
Proof.
  unfold pip_audit_findings.
  destruct (py_in "dependencies" data) as [[|]|e0] eqn:I.
  - match goal with |- context [match ?b with _ => _ end] =>
      destruct b as [deps|e1] eqn:E end.
    + apply for_each_raises. intros x s s' e'.
      apply pip_audit_dependency_raises.
    + intro H. injection H as _ <-.
      apply bind_raises in E as [E | (? & _ & E)];
        [now apply py_getitem_after_in in E | now apply py_iter_raises in E].
  - discriminate.
  - intro H. injection H as _ <-. now apply py_in_raises in I.
Qed.

(** A record of the second tool never raises: what has four elements or
    more is taken, anything else is passed over. *)
Lemma safety_record_finding (vuln : json) (vulns : list Finding) :
  safety_record vuln vulns = ((vulns ++ record_finding vuln)%list, Ok tt).
Proof.
  unfold safety_record, record_finding.
  destruct vuln as [| | | |items|]; try (now rewrite List.app_nil_r).
  destruct items as [|x0 [|x1 [|x2 [|x3 items]]]];
    simpl; try (now rewrite List.app_nil_r); reflexivity.
Qed.

Lemma safety_findings_list (records : list json) (vulns : list Finding) :
  safety_findings (JArr records) vulns
  = ((vulns ++ flat_map record_finding records)%list, Ok tt).
Proof.
  unfold safety_findings. simpl.
  rewrite <- for_each_append.
  revert vulns. induction records as [|r records IH]; intro vulns; simpl;
    [reflexivity|].
  rewrite safety_record_finding. apply IH.
Qed.

Lemma safety_findings_raises (data : json) (vulns vulns' : list Finding)
      (e : exn) :
  safety_findings data vulns = (vulns', Err e) -> shape_error e.
Proof.
  unfold safety_findings.
  destruct (py_iter data) as [records|e0] eqn:I.
  - apply for_each_raises. intros x s s' e'.
    rewrite safety_record_finding. discriminate.
  - intro H. injection H as _ <-. now apply py_iter_raises in I.
Qed.

(** ** Local audit: one attempt *)

(** A tool that failed leaves the [try] without a [return] and without
    an exception. *)
Lemma attempt_of_failed_tool
      (findings : json -> list Finding -> list Finding * res unit)
      (tool : run_outcome) (vulns : list Finding) :
  tool_failed tool ->
  except_audit (audit_attempt findings tool vulns) = (vulns, Ok false).
Proof.
  destruct tool as [rc stdout|e]; simpl.
  - intros [-> | H]; [reflexivity|].
    destruct (is_empty stdout); simpl; [reflexivity | now rewrite H].
  - intros ->. reflexivity.
Qed.

(** A tool that printed JSON has its findings returned, or the exception
    of the parsing raised: none is caught. *)
Lemma attempt_of_printed_json
      (findings : json -> list Finding -> list Finding * res unit)
      (rc : Z) (stdout : string) (data : json) (vulns : list Finding) :
  (forall d v v' e, findings d v = (v', Err e) -> shape_error e) ->
  stdout <> EmptyString ->
  json_loads stdout = Some data ->
  except_audit (audit_attempt findings (Completed rc stdout) vulns)
  = match findings data vulns with
    | (vulns', Ok _) => (vulns', Ok true)
    | (vulns', Err e) => (vulns', Err e)
    end.
Proof.
  intros Hraises Hne Hload. simpl.
  apply is_empty_false in Hne. rewrite Hne, Hload. simpl.
  destruct (findings data vulns) as [vulns' [u|e]] eqn:F; simpl;
    [reflexivity|].
  now rewrite (shape_error_uncaught e (Hraises _ _ _ _ F)).
Qed.

(** A tool that raised an exception the [except] clause does not name. *)
Lemma attempt_of_uncaught
      (findings : json -> list Finding -> list Finding * res unit)
      (e : exn) (vulns : list Finding) :
  audit_caught e = false ->
  except_audit (audit_attempt findings (RunRaises e) vulns) = (vulns, Err e).
Proof. simpl. now intros ->. Qed.

(** The three ways a run can go. *)
Lemma run_outcome_cases (tool : run_outcome) :
  tool_failed tool
  \/ (exists rc stdout data,
        tool = Completed rc stdout /\ stdout <> EmptyString
        /\ json_loads stdout = Some data)
  \/ (exists e, tool = RunRaises e /\ audit_caught e = false).
Proof.
  destruct tool as [rc stdout|e]; simpl.
  - destruct stdout as [|c t] eqn:Es; [left; now left|].
    rewrite <- Es.
    destruct (json_loads stdout) as [data|] eqn:L; [|left; now right].
    right; left. exists rc, stdout, data.
    repeat split; try assumption. now rewrite Es.
  - destruct (audit_caught e) eqn:C; [now left|].
    right; right. now exists e.
Qed.

Lemma printed_json_not_failed (rc : Z) (stdout : string) (data : json) :
  stdout <> EmptyString -> json_loads stdout = Some data ->
  ~ tool_failed (Completed rc stdout).
Proof. intros Hne Hload [H | H]; [contradiction | congruence]. Qed.

(** C9: the local audit providers never look at the exit status: a run
    that printed JSON has its findings parsed and returned whatever the
    status, and a run is taken as failed only when it timed out, when the
    tool was not found, when it printed nothing or when what it printed
    is not JSON. *)
Theorem exit_status_never_inspected
        (rc rc' : Z) (stdout : string) (other : run_outcome) :
  _check_npm_vulnerabilities (Completed rc stdout)
  = _check_npm_vulnerabilities (Completed rc' stdout)
  /\ _check_python_vulnerabilities (Completed rc stdout) other
     = _check_python_vulnerabilities (Completed rc' stdout) other
  /\ _check_python_vulnerabilities other (Completed rc stdout)
     = _check_python_vulnerabilities other (Completed rc' stdout)
  /\ (forall data,
        stdout <> EmptyString ->
        json_loads stdout = Some data ->
        snd (_check_npm_vulnerabilities (Completed rc stdout))
        = returning (npm_findings data [])
        /\ snd (_check_python_vulnerabilities (Completed rc stdout) other)
           = returning (pip_audit_findings data [])
        /\ (tool_failed other ->
            snd (_check_python_vulnerabilities other (Completed rc stdout))
            = returning (safety_findings data [])))
  /\ (forall tool,
        tool_failed tool ->
        snd (_check_npm_vulnerabilities tool) = Ok [])
  /\ (tool_failed (Completed rc stdout)
      <-> stdout = EmptyString \/ json_loads stdout = None)
  /\ (forall e,
        tool_failed (RunRaises e)
        <-> e = TimeoutExpired \/ e = CalledProcessError
            \/ e = JSONDecodeError \/ e = FileNotFoundError).
Proof.
  split; [reflexivity|].
  split; [reflexivity|].
  split.
  { unfold _check_python_vulnerabilities.
    destruct (except_audit (audit_attempt pip_audit_findings other []))
      as [v [[|]|e]]; reflexivity. }
  split.
  { intros data Hne Hload. split; [|split].
    - unfold _check_npm_vulnerabilities.
      rewrite (attempt_of_printed_json npm_findings rc stdout data [])
        by (assumption || apply npm_findings_raises).
      now destruct (npm_findings data []) as [v [u|e]].
    - unfold _check_python_vulnerabilities.
      rewrite (attempt_of_printed_json pip_audit_findings rc stdout data [])
        by (assumption || apply pip_audit_findings_raises).
      now destruct (pip_audit_findings data []) as [v [u|e]].
    - intro Hother.
      unfold _check_python_vulnerabilities.
      rewrite (attempt_of_failed_tool pip_audit_findings other [] Hother).
      rewrite (attempt_of_printed_json safety_findings rc stdout data [])
        by (assumption || apply safety_findings_raises).
      now destruct (safety_findings data []) as [v [u|e]]. }
  split.
  { intros tool Hfailed.
    unfold _check_npm_vulnerabilities.
    now rewrite (attempt_of_failed_tool npm_findings tool [] Hfailed). }
  split; [reflexivity|].
  intro e. simpl.
  destruct e; simpl; split; intro H; try reflexivity; try discriminate H;
    try tauto;
    repeat (destruct H as [H | H]; try discriminate H).
Qed.

(** ** Local audit: the Python provider *)

Lemma python_first_tool_failed (pip_audit safety : run_outcome) :
  tool_failed pip_audit ->
  _check_python_vulnerabilities pip_audit safety
  = ([Run PipAudit; Run SafetyCheck],
     match except_audit (audit_attempt safety_findings safety []) with
     | (vulns, Ok true) => Ok vulns
     | (_, Ok false) => Ok []
     | (_, Err e) => Err e
     end).
Proof.
  intro H. unfold _check_python_vulnerabilities.
  rewrite (attempt_of_failed_tool pip_audit_findings pip_audit [] H).
  now destruct (except_audit (audit_attempt safety_findings safety []))
    as [v [[|]|e]].
Qed.

Lemma python_first_tool_not_failed (pip_audit safety : run_outcome) :
  ~ tool_failed pip_audit ->
  fst (_check_python_vulnerabilities pip_audit safety) = [Run PipAudit].
Proof.
  intro H. unfold _check_python_vulnerabilities.
  destruct (run_outcome_cases pip_audit)
    as [Hf | [(rc & out & data & -> & Hne & Hload) | (e & -> & Hc)]].
  - contradiction.
  - rewrite (attempt_of_printed_json pip_audit_findings rc out data [])
      by (assumption || apply pip_audit_findings_raises).
    now destruct (pip_audit_findings data []) as [v [u|e]].
  - now rewrite (attempt_of_uncaught pip_audit_findings e [] Hc).
Qed.

(** C8: the Python provider runs the second tool exactly when the first
    one is unavailable or failed, and never a third; the second tool's
    output is read as a flat list of records, element 0 of a record of
    four elements or more being the package name and element 3 the
    description; when both tools fail the provider returns the empty list
    and raises nothing. *)
Theorem python_audit_fallback (pip_audit safety : run_outcome) :
  let r := _check_python_vulnerabilities pip_audit safety in
  (In (Run SafetyCheck) (fst r) <-> tool_failed pip_audit)
  /\ (fst r = [Run PipAudit] \/ fst r = [Run PipAudit; Run SafetyCheck])
  /\ (tool_failed pip_audit -> tool_failed safety -> snd r = Ok [])
  /\ (tool_failed pip_audit ->
      forall rc stdout records,
        safety = Completed rc stdout ->
        stdout <> EmptyString ->
        json_loads stdout = Some (JArr records) ->
        snd r = Ok (flat_map record_finding records))
  /\ (forall rc stdout data,
        pip_audit = Completed rc stdout ->
        stdout <> EmptyString ->
        json_loads stdout = Some data ->
        snd r = returning (pip_audit_findings data [])).
Proof.
  intro r. subst r.
  split; [|split; [|split; [|split]]].
  - split.
    + intro Hin.
      destruct (run_outcome_cases pip_audit) as [Hf | Hnot]; [exact Hf|].
      exfalso.
      assert (Hn : ~ tool_failed pip_audit).
      { destruct Hnot as [(rc & out & data & -> & Hne & Hload)
                         | (e & -> & Hc)].
        - now apply printed_json_not_failed with (data := data).
        - simpl. congruence. }
      rewrite (python_first_tool_not_failed _ safety Hn) in Hin.
      destruct Hin as [Hin | []]. discriminate Hin.
    + intro Hf. rewrite (python_first_tool_failed _ safety Hf).
      simpl. auto.
  - destruct (run_outcome_cases pip_audit) as [Hf | Hnot].
    + right. now rewrite (python_first_tool_failed _ safety Hf).
    + left. apply python_first_tool_not_failed.
      destruct Hnot as [(rc & out & data & -> & Hne & Hload)
                       | (e & -> & Hc)].
      * now apply printed_json_not_failed with (data := data).
      * simpl. congruence.
  - intros Hf Hs. rewrite (python_first_tool_failed _ safety Hf).
    now rewrite (attempt_of_failed_tool safety_findings safety [] Hs).
  - intros Hf rc stdout records -> Hne Hload.
    rewrite (python_first_tool_failed _ _ Hf).
    rewrite (attempt_of_printed_json safety_findings rc stdout
               (JArr records) [])
      by (assumption || apply safety_findings_raises).
    now rewrite safety_findings_list.
  - intros rc stdout data -> Hne Hload.
    unfold _check_python_vulnerabilities.
    rewrite (attempt_of_printed_json pip_audit_findings rc stdout data [])
      by (assumption || apply pip_audit_findings_raises).
    now destruct (pip_audit_findings data []) as [v [u|e]].
Qed.

(** ** Remote provider: one record *)

Lemma english_description_encoded (ds : list (string * string)) :
  english_description (map encode_description ds)
  = Ok (JStr (first_english ds)).
Proof.
  induction ds as [|[lang text] ds IH]; [reflexivity|].
  cbn [map english_description]. unfold encode_description at 1.
  cbn [py_get assoc String.eqb Ascii.eqb Bool.eqb bind fst snd].
  unfold py_eqb. cbn [as_number first_english].
  destruct (String.eqb lang "en"); [reflexivity | exact IH].
Qed.

Lemma severity_info_encoded (r : cve_record) :
  severity_info
    (JObj (encode_block "cvssMetricV31" (metric_v31 r)
             ++ encode_block "cvssMetricV30" (metric_v30 r)
             ++ encode_block "cvssMetricV2" (metric_v2 r))%list)
    cvss_versions
  = Ok (severity_suffix r).
Proof.
  unfold severity_suffix, preferred_metric.
  destruct r as [id ds b31 b30 b2]. cbn [metric_v31 metric_v30 metric_v2].
  destruct b31 as [[|[[s1|] [v1|]] ms1]|]; try reflexivity;
    destruct b30 as [[|[[s2|] [v2|]] ms2]|]; try reflexivity;
    destruct b2 as [[|[[s3|] [v3|]] ms3]|]; reflexivity.
Qed.



(** ** Remote provider: the loop over the packages *)

(** A loop that only appends to what it is given does the same from any
    start. *)
Lemma for_each_frame {X Y : Type} (body : X -> list Y -> list Y * res unit) :
  (forall x acc,
      body x acc = (let '(f, r) := body x [] in ((acc ++ f)%list, r))) ->
  forall xs acc,
    for_each body xs acc
    = (let '(f, r) := for_each body xs [] in ((acc ++ f)%list, r)).
Proof.
  intros Hbody xs.
  induction xs as [|x xs IH]; intro acc; simpl.
  - now rewrite List.app_nil_r.
  - rewrite (Hbody x acc).
    destruct (body x []) as [f [u|e]]; [|reflexivity].
    rewrite (IH (acc ++ f)%list), (IH f).
    destruct (for_each body xs []) as [g r].
    now rewrite List.app_assoc.
Qed.

Lemma nvd_record_frame (t n v : string) (item : json) (vulns : list Finding) :
  nvd_record t n v item vulns
  = (let '(f, r) := nvd_record t n v item [] in ((vulns ++ f)%list, r)).
Proof.
  unfold nvd_record.
  destruct (vuln_description v item); simpl;
    [reflexivity | now rewrite List.app_nil_r].
Qed.

Lemma nvd_findings_frame (t n v : string) (data : json)
      (vulns : list Finding) :
  nvd_findings t n v data vulns
  = (let '(f, r) := nvd_findings t n v data [] in ((vulns ++ f)%list, r)).
Proof.
  unfold nvd_findings.
  match goal with |- context [match ?b with _ => _ end] =>
    destruct b as [records|e] end.
  - apply for_each_frame. intros x acc. apply nvd_record_frame.
  - now rewrite List.app_nil_r.
Qed.

Lemma nvd_query_frame (http : nat -> string -> http_outcome) (t : string)
      (entry : nat * (string * string)) (done : list event)
      (vulns : list Finding) :
  nvd_query http t entry (done, vulns)
  = (let '((d, f), r) := nvd_query http t entry ([], []) in
     (((done ++ d)%list, (vulns ++ f)%list), r)).
Proof.
  unfold nvd_query. destruct entry as [i [pkg_name version]].
  match goal with |- context [http i ?k] =>
    destruct (http i k) as [st body|e] end.
  - destruct (Z.eqb st 200).
    + destruct (json_loads body) as [data|].
      * rewrite (nvd_findings_frame t pkg_name version data vulns).
        destruct (nvd_findings t pkg_name version data []) as [f [u|e]];
          simpl; now rewrite <- ?List.app_assoc.
      * simpl. now rewrite List.app_nil_r.
    + simpl. now rewrite List.app_nil_r, <- List.app_assoc.
  - simpl. now rewrite List.app_nil_r.
Qed.

Lemma nvd_step_frame (http : nat -> string -> http_outcome) (t : string)
      (entry : nat * (string * string)) (done : list event)
      (vulns : list Finding) :
  nvd_step http t entry (done, vulns)
  = (let '((d, f), r) := package_effect http t entry in
     (((done ++ d)%list, (vulns ++ f)%list), r)).
Proof.
  unfold package_effect, nvd_step.
  rewrite nvd_query_frame.
  destruct (nvd_query http t entry ([], [])) as [[d f] [u|e]]; simpl;
    [reflexivity|].
  now destruct (nvd_caught e).
Qed.

(** When no package lets an exception out, the loop gathers the events
    and the findings of every package, in order. *)
Lemma nvd_loop_handled (http : nat -> string -> http_outcome) (t : string)
      (entries : list (nat * (string * string))) (done : list event)
      (vulns : list Finding) :
  (forall entry, In entry entries ->
                 snd (package_effect http t entry) = Ok tt) ->
  for_each (nvd_step http t) entries (done, vulns)
  = (((done ++ flat_map (package_events http t) entries)%list,
      (vulns ++ flat_map (package_findings http t) entries)%list), Ok tt).
Proof.
  revert done vulns.
  induction entries as [|entry entries IH]; intros done vulns H; simpl.
  - now rewrite !List.app_nil_r.
  - rewrite nvd_step_frame.
    assert (He := H entry (or_introl eq_refl)).
    unfold package_events, package_findings.
    destruct (package_effect http t entry) as [[d f] r] eqn:E.
    simpl in He. subst r.
    rewrite IH by (intros e' Hin; apply H; now right).
    simpl. now rewrite !List.app_assoc.
Qed.

(** The events of one package: its query and, when the body of the [try]
    ended without an exception, the sleep. *)
Lemma package_events_cases (http : nat -> string -> http_outcome)
      (t : string) (i : nat) (p : string * string) :
  let o := http i (keyword_of t p) in
  let slept := [Get (keyword_of t p); Sleep request_delay] in
  (forall e, o = GetRaises e ->
             package_events http t (i, p) = [Get (keyword_of t p)])
  /\ (forall body, o = Response 200 body -> json_loads body = None ->
                   package_events http t (i, p) = [Get (keyword_of t p)])
  /\ (forall status body, o = Response status body -> status <> 200%Z ->
                          package_events http t (i, p) = slept)
  /\ (forall body data found,
        o = Response 200 body -> json_loads body = Some data ->
        nvd_findings t (fst p) (snd p) data [] = (found, Ok tt) ->
        package_events http t (i, p) = slept).
Proof.
  destruct p as [pkg_name version].
  unfold package_events, package_effect, nvd_step, nvd_query, keyword_of.
  cbn [fst snd].
  split; [|split; [|split]].
  - intros e ->. simpl. now destruct (nvd_caught e).
  - intros body -> ->. reflexivity.
  - intros status body -> Hs.
    apply Z.eqb_neq in Hs. now rewrite Hs.
  - intros body data found -> -> Hf. simpl in Hf |- *.
    now rewrite Hf.
Qed.

Lemma package_events_shape (http : nat -> string -> http_outcome)
      (t : string) (i : nat) (p : string * string) :
  package_events http t (i, p) = [Get (keyword_of t p)]
  \/ package_events http t (i, p)
     = [Get (keyword_of t p); Sleep request_delay].
Proof.
  destruct p as [pkg_name version].
  unfold package_events, package_effect, nvd_step, nvd_query, keyword_of.
  cbn [fst snd].
  match goal with |- context [http i ?k] =>
    destruct (http i k) as [st body|e] end.
  - destruct (Z.eqb st 200); [|now right].
    destruct (json_loads body) as [data|]; [|now left].
    destruct (nvd_findings t pkg_name version data []) as [f [u|e]];
      simpl; [now right|].
    destruct (nvd_caught e); now left.
  - simpl. destruct (nvd_caught e); now left.
Qed.

Lemma enumerate_from_queries (t : string) (http : nat -> string -> http_outcome)
      (packages : list (string * string)) (start : nat) :
  filter is_get
         (flat_map (package_events http t)
                   (combine (seq start (List.length packages)) packages))
  = map (fun p => Get (keyword_of t p)) packages.
Proof.
  revert start.
  induction packages as [|p packages IH]; intro start; [reflexivity|].
  cbn [List.length seq combine flat_map map].
  rewrite filter_app, IH.
  destruct (package_events_shape http t start p) as [-> | ->]; reflexivity.
Qed.

(** A query that failed in one of the three named ways is handled and
    contributes no finding. *)
Lemma failed_query_effect (http : nat -> string -> http_outcome)
      (t : string) (i : nat) (p : string * string) :
  query_failed (http i (keyword_of t p)) ->
  package_findings http t (i, p) = []
  /\ snd (package_effect http t (i, p)) = Ok tt.
Proof.
  destruct p as [pkg_name version].
  unfold package_findings, package_effect, nvd_step, nvd_query, keyword_of.
  cbn [fst snd].
  intros [-> | [(status & body & -> & Hs) | (body & -> & Hl)]].
  - now split.
  - apply Z.eqb_neq in Hs. rewrite Hs. now split.
  - simpl. rewrite Hl. now split.
Qed.

(** C6: a query that fails by a network error, a status other than 200
    or a body that is not JSON contributes nothing and stops nothing:
    when no package lets another exception out, every package of the
    list is queried, in order, and the list returned holds the findings
    of every package, those of the failed ones being none. *)
Theorem nvd_failure_isolated (http : nat -> string -> http_outcome)
        (t : string) (packages : list (string * string)) :
  (forall i p,
      query_failed (http i (keyword_of t p)) ->
      package_findings http t (i, p) = []
      /\ snd (package_effect http t (i, p)) = Ok tt)
  /\ (forall i p body data found,
        http i (keyword_of t p) = Response 200 body ->
        json_loads body = Some data ->
        nvd_findings t (fst p) (snd p) data [] = (found, Ok tt) ->
        package_findings http t (i, p) = found
        /\ snd (package_effect http t (i, p)) = Ok tt)
  /\ ((forall entry, In entry (enumerate packages) ->
                     snd (package_effect http t entry) = Ok tt) ->
      snd (_check_nvd_vulnerabilities true http packages t)
      = Ok (flat_map (package_findings http t) (enumerate packages))
      /\ filter is_get (fst (_check_nvd_vulnerabilities true http packages t))
         = map (fun p => Get (keyword_of t p)) packages).
Proof.
  split; [intros i p; apply failed_query_effect|].
  split.
  - intros i [pkg_name version] body data found Ho Hl Hf.
    unfold package_findings, package_effect, nvd_step, nvd_query, keyword_of
      in *.
    cbn [fst snd] in *.
    rewrite Ho. simpl. rewrite Hl, Hf. now split.
  - intro Hall.
    unfold _check_nvd_vulnerabilities. cbn [negb].
    rewrite (nvd_loop_handled http t (enumerate packages) [] [] Hall).
    cbn [fst snd List.app]. split; [reflexivity|].
    apply enumerate_from_queries.
Qed.

(** The sleep is part of the body of the [try]: it is reached when the
    body ends without an exception, and skipped by every exception the
    [except] clause catches. *)
Lemma nvd_sleep_skipped_by_exception (http : nat -> string -> http_outcome)
      (t : string) (i : nat) (p : string * string) (e : exn) :
  http i (keyword_of t p) = GetRaises e ->
  filter is_sleep (package_events http t (i, p)) = [].
Proof.
  intro H.
  destruct (package_events_cases http t i p) as (Hraise & _).
  now rewrite (Hraise e H).
Qed.

(** ** Keys *)

Lemma Qeq_bool_sym (x y : Q) : Qeq_bool x y = true -> Qeq_bool y x = true.
Proof.
  rewrite !Qeq_bool_iff. intro H. now symmetry.
Qed.

Lemma Qeq_bool_trans (x y z : Q) :
  Qeq_bool x y = true -> Qeq_bool y z = true -> Qeq_bool x z = true.
Proof.
  rewrite !Qeq_bool_iff. intros H1 H2. now rewrite H1.
Qed.

Lemma py_eqb_sym (a b : json) : py_eqb a b = true -> py_eqb b a = true.
Proof.
  unfold py_eqb.
  destruct (as_number a) eqn:Ea, (as_number b) eqn:Eb; intro H;
    try discriminate H; [now apply Qeq_bool_sym|].
  destruct a, b; try discriminate H; [reflexivity|].
  apply String.eqb_eq in H as ->. apply String.eqb_refl.
Qed.

Lemma py_eqb_trans (a b c : json) :
  py_eqb a b = true -> py_eqb b c = true -> py_eqb a c = true.
Proof.
  unfold py_eqb.
  destruct (as_number a) eqn:Ea, (as_number b) eqn:Eb, (as_number c) eqn:Ec;
    intros H1 H2; try discriminate H1; try discriminate H2;
    [now apply Qeq_bool_trans with (y := q0)|].
  destruct a, b; try discriminate H1; destruct c; try discriminate H2;
    [reflexivity|].
  apply String.eqb_eq in H1 as ->. exact H2.
Qed.

Lemma same_key_sym (a b : Finding) :
  same_key a b = true -> same_key b a = true.
Proof.
  unfold same_key, key_eqb, key_of.
  rewrite !andb_true_iff. intros [[Ht Hp] Hd].
  repeat split; auto using py_eqb_sym.
  apply String.eqb_eq in Ht. rewrite Ht. apply String.eqb_refl.
Qed.

Lemma same_key_trans (a b c : Finding) :
  same_key a b = true -> same_key b c = true -> same_key a c = true.
Proof.
  unfold same_key, key_eqb, key_of.
  rewrite !andb_true_iff. intros [[Ht Hp] Hd] [[Ht' Hp'] Hd'].
  repeat split; eauto using py_eqb_trans.
  apply String.eqb_eq in Ht, Ht'. rewrite Ht, Ht'. apply String.eqb_refl.
Qed.

Lemma same_key_false_sym (a b : Finding) :
  same_key a b = false -> same_key b a = false.
Proof.
  intro H. destruct (same_key b a) eqn:E; [|reflexivity].
  apply same_key_sym in E. congruence.
Qed.

(** ** The merge *)

Lemma dedup_into_app (kept a b : list Finding) :
  dedup_into kept (a ++ b)%list = dedup_into (dedup_into kept a) b.
Proof.
  revert kept. induction a as [|x a IH]; intro kept; simpl; [reflexivity|].
  destruct (existsb (same_key x) kept); apply IH.
Qed.

(** The findings kept stand for the keys of all the arrivals so far. *)
Lemma dedup_into_first_occurrences (kept earlier arrivals : list Finding) :
  (forall x, existsb (same_key x) kept = existsb (same_key x) earlier) ->
  dedup_into kept arrivals
  = (kept ++ first_occurrences_from earlier arrivals)%list.
Proof.
  revert kept earlier.
  induction arrivals as [|x rest IH]; intros kept earlier Hinv; simpl.
  - now rewrite List.app_nil_r.
  - rewrite <- (Hinv x).
    destruct (existsb (same_key x) kept) eqn:E.
    + apply IH. intro y.
      rewrite existsb_app. simpl. rewrite orb_false_r, <- Hinv.
      destruct (same_key y x) eqn:Eyx; [|now rewrite orb_false_r].
      rewrite orb_true_r.
      apply existsb_exists in E as (z & Hz & Exz).
      apply existsb_exists. exists z. split; [exact Hz|].
      now apply same_key_trans with (b := x).
    + rewrite (IH (kept ++ [x])%list (earlier ++ [x])%list).
      * now rewrite <- List.app_assoc.
      * intro y. rewrite !existsb_app. now rewrite Hinv.
Qed.

Lemma distinct_keys_snoc (l : list Finding) (x : Finding) :
  distinct_keys l -> existsb (same_key x) l = false ->
  distinct_keys (l ++ [x]).
Proof.
  induction 1 as [|y l Hy Hl IH]; simpl; intro Hx.
  - constructor; [intros y []|constructor].
  - apply orb_false_iff in Hx as [Hxy Hxl].
    constructor; [|now apply IH].
    intros z Hz. apply in_app_or in Hz as [Hz | [<- | []]].
    + now apply Hy.
    + now apply same_key_false_sym.
Qed.

Lemma dedup_into_distinct (kept arrivals : list Finding) :
  distinct_keys kept -> distinct_keys (dedup_into kept arrivals).
Proof.
  revert kept. induction arrivals as [|x rest IH]; intros kept Hk; simpl;
    [exact Hk|].
  destruct (existsb (same_key x) kept) eqn:E; apply IH;
    [exact Hk | now apply distinct_keys_snoc].
Qed.

Lemma existsb_keys (x : Finding) (kept : list Finding) :
  existsb (key_eqb (key_of x)) (map key_of kept)
  = existsb (same_key x) kept.
Proof.
  induction kept as [|y kept IH]; simpl; [reflexivity | now rewrite IH].
Qed.

(** One turn of a merging loop. *)
Lemma add_unique_step (x : Finding) (done : list event)
      (kept : list Finding) :
  add_unique x (done, kept, map key_of kept)
  = if key_hashable (key_of x)
    then ((done, dedup_into kept [x], map key_of (dedup_into kept [x])),
          Ok tt)
    else ((done, kept, map key_of kept), Err TypeError).
Proof.
  unfold add_unique.
  destruct (key_hashable (key_of x)); [|reflexivity].
  rewrite existsb_keys. cbn [dedup_into].
  destruct (existsb (same_key x) kept); [reflexivity|].
  now rewrite map_app.
Qed.

(** One merging loop that ends without an exception. *)
Lemma merge_loop_ok (vulns : list Finding) (done : list event)
      (kept : list Finding) (st' : scan_state) :
  for_each add_unique vulns (done, kept, map key_of kept) = (st', Ok tt) ->
  st' = (done, dedup_into kept vulns, map key_of (dedup_into kept vulns)).
Proof.
  revert kept.
  induction vulns as [|x vulns IH]; intro kept; cbn [for_each].
  - intro H. now injection H as <-.
  - rewrite add_unique_step.
    destruct (key_hashable (key_of x)); [|discriminate].
    intro H. apply IH in H.
    now rewrite <- (dedup_into_app kept [x] vulns) in H.
Qed.

(** A merging loop ends without an exception when every key can be
    hashed. *)
Lemma merge_loop_hashable (vulns : list Finding) (done : list event)
      (kept : list Finding) :
  forallb (fun v => key_hashable (key_of v)) vulns = true ->
  for_each add_unique vulns (done, kept, map key_of kept)
  = ((done, dedup_into kept vulns, map key_of (dedup_into kept vulns)),
     Ok tt).
Proof.
  revert kept.
  induction vulns as [|x vulns IH]; intros kept H; cbn [for_each];
    [reflexivity|].
  cbn [forallb] in H. apply andb_true_iff in H as [Hx Hrest].
  rewrite add_unique_step, Hx, (IH _ Hrest).
  now rewrite <- (dedup_into_app kept [x] vulns).
Qed.

(** ** The orchestrator *)

Lemma delivers_skip : delivers skip (Ok []).
Proof.
  intros done kept st' H. injection H as <-.
  now exists [], done.
Qed.

Lemma delivers_merge (provider : list event * res (list Finding)) :
  delivers (merge_findings provider) (snd provider).
Proof.
  intros done kept st'. destruct provider as [events [vulns|e]]; simpl.
  - intro H. apply merge_loop_ok in H.
    now exists vulns, (done ++ events)%list.
  - discriminate.
Qed.

Lemma delivers_and_then (s1 s2 : scan_state -> scan_state * res unit)
      (r1 r2 : res (list Finding)) :
  delivers s1 r1 -> delivers s2 r2 -> delivers (and_then s1 s2) (both r1 r2).
Proof.
  intros D1 D2 done kept st'. unfold and_then.
  destruct (s1 (done, kept, map key_of kept)) as [st1 [[]|e]] eqn:E1;
    [|discriminate].
  apply D1 in E1 as (a & done1 & -> & ->).
  intro E2. apply D2 in E2 as (b & done2 & -> & ->).
  exists (a ++ b)%list, done2.
  now rewrite dedup_into_app.
Qed.

Lemma delivers_remote (w : world) (manifest : string)
      (parse : res string -> res (list (string * string)))
      (package_type : string) :
  delivers (remote_check w manifest parse package_type)
           (remote_arrivals w manifest parse package_type).
Proof.
  unfold remote_check, remote_arrivals.
  destruct (path_exists w manifest); [|apply delivers_skip].
  destruct (parse (read_text w manifest)) as [[|p packages]|e]; simpl.
  - apply delivers_skip.
  - apply delivers_merge.
  - intros done kept st'. discriminate.
Qed.

Lemma first_occurrences_dedup (arrivals : list Finding) :
  dedup_into [] arrivals = first_occurrences arrivals.
Proof.
  unfold first_occurrences.
  now rewrite (dedup_into_first_occurrences [] [] arrivals).
Qed.

Lemma scan_delivers_arrivals (w : world) (result : list Finding) :
  snd (scan_directory w) = Ok result ->
  exists arrivals,
    scan_arrivals w = Ok arrivals /\ result = dedup_into [] arrivals.
Proof.
  unfold scan_directory.
  match goal with |- context [and_then ?a ?b ([], [], [])] =>
    assert (D : delivers (and_then a b) (scan_arrivals w)) end.
  { unfold scan_arrivals.
    apply delivers_and_then; [|apply delivers_and_then].
    - destruct (path_exists w "package.json");
        [apply delivers_merge | apply delivers_skip].
    - destruct (path_exists w "requirements.txt");
        [apply delivers_merge | apply delivers_skip].
    - destruct (requests_available w); [|apply delivers_skip].
      apply delivers_and_then; apply delivers_remote. }
  match goal with |- context [and_then ?a ?b ([], [], [])] =>
    destruct (and_then a b ([], [], [])) as [[[done vulns] seen] [[]|e]] eqn:E
  end; simpl; [|discriminate].
  intro H. injection H as <-.
  apply (D [] []) in E as (arrivals & done' & -> & E).
  injection E as _ -> _.
  now exists arrivals.
Qed.

(** C1: the result of a scan holds at most one finding for each triple
    (ecosystem, package name, description): of the findings in the order
    they arrive from the providers, it keeps the first of each key, in
    that order; two findings with the same key from two providers leave
    one, and two findings that differ in one field of the triple are two
    findings. *)
Theorem scan_result_deduplicated :
  (forall w result,
      snd (scan_directory w) = Ok result ->
      exists arrivals,
        scan_arrivals w = Ok arrivals
        /\ result = first_occurrences arrivals
        /\ distinct_keys result)
  /\ (forall f g events1 events2,
        key_hashable (key_of f) = true ->
        key_hashable (key_of g) = true ->
        exists done seen,
          and_then (merge_findings (events1, Ok [f]))
                   (merge_findings (events2, Ok [g])) ([], [], [])
          = ((done, if same_key f g then [f] else [f; g], seen), Ok tt))
  /\ (forall t t' p p' d d',
        same_key {| package_type := t; package := JStr p;
                    description := JStr d |}
                 {| package_type := t'; package := JStr p';
                    description := JStr d' |} = true
        <-> t = t' /\ p = p' /\ d = d').
Proof.
  split; [|split].
  - intros w result H.
    apply scan_delivers_arrivals in H as (arrivals & Ha & ->).
    exists arrivals.
    split; [exact Ha|].
    split; [apply first_occurrences_dedup|].
    apply dedup_into_distinct. constructor.
  - intros f g events1 events2 Hf Hg.
    unfold and_then, merge_findings. cbn [List.app].
    change (@nil key) with (map key_of []).
    rewrite merge_loop_hashable by (cbn [forallb]; now rewrite Hf).
    rewrite merge_loop_hashable by (cbn [forallb]; now rewrite Hg).
    cbn [dedup_into existsb List.app]. rewrite orb_false_r.
    assert (Hsym : same_key g f = same_key f g).
    { destruct (same_key f g) eqn:E;
        [now apply same_key_sym | now apply same_key_false_sym]. }
    rewrite Hsym.
    destruct (same_key f g); eexists; eexists; reflexivity.
  - intros t t' p p' d d'.
    unfold same_key, key_eqb, key_of, py_eqb. cbn [as_number package_type
      package description].
    rewrite !andb_true_iff, !String.eqb_eq. tauto.
Qed.

(** * Further properties *)

(** ** The line-oriented manifest *)

(** The groups of the only match of a decomposed line. *)
Lemma match_requirement_decomposed (name sp1 op sp2 version rest : string) :
  name <> EmptyString -> all_chars is_name_char name ->
  all_chars is_space sp1 ->
  op <> EmptyString -> all_chars is_op_char op ->
  all_chars is_space sp2 ->
  version <> EmptyString -> all_chars is_version_char version ->
  match_requirement (name ++ sp1 ++ op ++ sp2 ++ version ++ rest)
  = Some (name, version ++ take_while is_version_char rest).
Proof.
  intros Hn Hna Hs1 Ho Hoa Hs2 Hv Hva.
  assert (Hstop_o : stops is_space (op ++ sp2 ++ version ++ rest))
    by (apply stops_app with (q := is_op_char); auto using op_not_space).
  assert (Hstop_n : stops is_name_char (sp1 ++ op ++ sp2 ++ version ++ rest)).
  { apply stops_app_opt with (q := is_space); auto using space_not_name.
    apply stops_app with (q := is_op_char); auto using op_not_name. }
  assert (Hstop_v : stops is_space (version ++ rest))
    by (apply stops_app with (q := is_version_char);
        auto using version_not_space).
  assert (Hstop_s : stops is_op_char (sp2 ++ version ++ rest)).
  { apply stops_app_opt with (q := is_space); auto using space_not_op.
    apply stops_app with (q := is_version_char); auto using version_not_op. }
  unfold match_requirement.
  destruct (span_app is_name_char name _ Hna Hstop_n) as [-> ->].
  destruct (span_app is_space sp1 _ Hs1 Hstop_o) as [_ ->].
  destruct (span_app is_op_char op _ Hoa Hstop_s) as [-> ->].
  destruct (span_app is_space sp2 _ Hs2 Hstop_v) as [_ ->].
  rewrite (take_while_app _ _ rest Hva).
  apply is_empty_false in Hn, Ho. rewrite Hn, Ho. simpl.
  destruct version; [now contradiction Hv | reflexivity].
Qed.

(** X1: on a line with a compound constraint only the first version is
    captured: when the stripped line is a name, an operator and a version
    followed by anything that does not continue the version, the parser
    appends (name, version) and what follows has no effect. *)
Theorem requirement_first_version_only
        (raw name sp1 op sp2 version rest : string) :
  py_strip raw = name ++ sp1 ++ op ++ sp2 ++ version ++ rest ->
  name <> EmptyString -> all_chars is_name_char name ->
  all_chars is_space sp1 ->
  op <> EmptyString -> all_chars is_op_char op ->
  all_chars is_space sp2 ->
  version <> EmptyString -> all_chars is_version_char version ->
  stops is_version_char rest ->
  parse_requirement_line raw = [(name, version)].
Proof.
  intros E Hn Hna Hs1 Ho Hoa Hs2 Hv Hva Hrest.
  unfold parse_requirement_line. rewrite E.
  rewrite name_head_not_blank_or_comment.
  - rewrite match_requirement_decomposed by assumption.
    now rewrite (take_while_stops _ _ Hrest), app_empty_r.
  - apply bare_name_match_head with (name := name).
    exists (sp1 ++ op ++ sp2 ++ version ++ rest). now repeat split.
Qed.

Lemma parse_requirement_line_short (raw : string) :
  List.length (parse_requirement_line raw) <= 1.
Proof.
  destruct (parse_requirement_line_cases raw)
    as [-> | [(n & v & -> & _) | (n & -> & _)]]; simpl; lia.
Qed.

Lemma flat_map_short {X Y : Type} (f : X -> list Y) (xs : list X) :
  (forall x, List.length (f x) <= 1) ->
  List.length (flat_map f xs) <= List.length xs.
Proof.
  intro H. induction xs as [|x xs IH]; simpl; [lia|].
  rewrite List.length_app. specialize (H x). lia.
Qed.

Lemma blank_or_comment_nothing (raw : string) :
  blank_or_comment raw = true -> parse_requirement_line raw = [].
Proof.
  unfold blank_or_comment, parse_requirement_line. now intros ->.
Qed.

(** X2: once the manifest is read as text the line-oriented parser
    returns, whatever the text, with at most one package for each line;
    a manifest of blank lines and comments gives the empty list, and so
    does a missing file.  Any other exception met when the manifest is
    opened or read (bytes that cannot be decoded, a file that may not be
    read) is not caught and leaves the parser. *)
Theorem requirements_one_per_line :
  (forall text,
      exists packages,
        _parse_requirements_txt (Ok text) = Ok packages
        /\ List.length packages <= List.length (readlines text))
  /\ (forall text,
        forallb blank_or_comment (readlines text) = true ->
        _parse_requirements_txt (Ok text) = Ok [])
  /\ _parse_requirements_txt (Err FileNotFoundError) = Ok []
  /\ (forall e,
        e <> FileNotFoundError ->
        _parse_requirements_txt (Err e) = Err e).
Proof.
  split; [|split; [|split; [reflexivity|]]].
  - intro text. rewrite parse_requirements_txt_text.
    eexists. split; [reflexivity|].
    apply flat_map_short, parse_requirement_line_short.
  - intros text H. rewrite parse_requirements_txt_text. f_equal.
    induction (readlines text) as [|l ls IH]; [reflexivity|].
    simpl in H. apply andb_true_iff in H as [Hl Hls].
    simpl. now rewrite (blank_or_comment_nothing l Hl), IH.
  - intros e He. rewrite parse_requirements_txt_error.
    destruct e; try reflexivity. now contradiction He.
Qed.

(** ** Versions *)

Lemma all_chars_impl (p q : ascii -> bool) (s : string) :
  (forall c, p c = true -> q c = true) -> all_chars p s -> all_chars q s.
Proof.
  unfold all_chars. intro Hpq.
  induction s as [|c s IH]; simpl; [reflexivity|].
  intro H. apply andb_true_iff in H as [Hc Hs].
  now rewrite (Hpq c Hc), IH.
Qed.

Lemma version_not_range (c : ascii) :
  is_version_char c = true -> not_range_char c = true.
Proof. by_cases_on_char c. Qed.

Lemma version_is_not_space (c : ascii) :
  is_version_char c = true -> not_space c = true.
Proof. by_cases_on_char c. Qed.

Lemma rstrip_no_space (s : string) :
  all_chars not_space s -> rstrip s = s.
Proof.
  unfold all_chars, not_space.
  induction s as [|c s IH]; simpl; [reflexivity|].
  intro H. apply andb_true_iff in H as [Hc Hs].
  apply negb_true_iff in Hc. rewrite Hc. simpl. now rewrite IH.
Qed.

Lemma py_strip_no_space (s : string) :
  all_chars not_space s -> py_strip s = s.
Proof.
  intro H. unfold py_strip, lstrip.
  rewrite drop_while_stops_id; [now apply rstrip_no_space|].
  destruct s as [|c s]; [exact I|].
  unfold all_chars, not_space in H. simpl in H |- *.
  apply andb_true_iff in H as [Hc _]. now apply negb_true_iff in Hc.
Qed.

Lemma rstrip_idempotent (s : string) : rstrip (rstrip s) = rstrip s.
Proof.
  induction s as [|c s IH]; simpl; [reflexivity|].
  destruct (is_space c && is_empty (rstrip s)) eqn:E; [reflexivity|].
  simpl. now rewrite IH, E.
Qed.

Lemma py_strip_idempotent (s : string) : py_strip (py_strip s) = py_strip s.
Proof.
  unfold py_strip at 1. unfold lstrip.
  rewrite drop_while_stops_id by apply py_strip_ends.
  unfold py_strip. apply rstrip_idempotent.
Qed.

Lemma clean_version_plain (v : string) :
  all_chars is_version_char v -> clean_version v = v.
Proof.
  intro H. unfold clean_version. fold not_range_char.
  rewrite str_filter_id
    by (apply all_chars_impl with (p := is_version_char);
        auto using version_not_range).
  apply py_strip_no_space.
  apply all_chars_impl with (p := is_version_char);
    auto using version_is_not_space.
Qed.

Lemma requirement_version_plain (raw name version : string) :
  In (name, version) (parse_requirement_line raw) ->
  all_chars is_version_char version.
Proof.
  destruct (parse_requirement_line_cases raw)
    as [-> | [(n & v & -> & Hm) | (n & -> & _)]]; simpl; intro Hin.
  - contradiction.
  - destruct Hin as [H | []]. injection H as <- <-.
    now destruct Hm as (sp1 & op & sp2 & rest & _ & _ & _ & _ & _ & _ & _
                        & _ & Hva).
  - destruct Hin as [H | []]. injection H as <- <-. reflexivity.
Qed.

(** X3: cleaning a version is idempotent and leaves a plain version, one
    made of digits and dots, unchanged; the versions the line-oriented
    parser returns are such versions, so cleaning them changes
    nothing. *)
Theorem clean_version_idempotent :
  (forall v, clean_version (clean_version v) = clean_version v)
  /\ (forall v, all_chars is_version_char v -> clean_version v = v)
  /\ (forall file packages name version,
        _parse_requirements_txt file = Ok packages ->
        In (name, version) packages ->
        clean_version version = version).
Proof.
  split; [|split].
  - intro v. unfold clean_version at 1. fold not_range_char.
    rewrite str_filter_id.
    + unfold clean_version. apply py_strip_idempotent.
    + unfold clean_version. fold not_range_char.
      apply all_chars_rstrip, all_chars_drop_while, str_filter_all.
  - apply clean_version_plain.
  - intros file packages name version Hparse Hin.
    destruct file as [text|e].
    + rewrite parse_requirements_txt_text in Hparse.
      injection Hparse as <-.
      apply in_flat_map in Hin as (raw & _ & Hin).
      apply clean_version_plain.
      now apply requirement_version_plain with (raw := raw) (name := name).
    + rewrite parse_requirements_txt_error in Hparse.
      destruct (requirements_caught e); [|discriminate].
      injection Hparse as <-. contradiction.
Qed.

(** ** The JSON manifest *)

Lemma group_references_names (fields : list (string * json))
      (dep_type : string) :
  group_well_shaped fields dep_type = true ->
  map fst (group_references fields dep_type)
  = map fst (group_entries fields dep_type)
  /\ Forall (fun p => all_chars not_range_char (snd p)
                      /\ py_strip (snd p) = snd p)
            (group_references fields dep_type).
Proof.
  unfold group_well_shaped, group_references, group_entries.
  destruct (assoc dep_type fields) as [[| | | | |entries]|];
    try discriminate; try (intros _; split; [reflexivity | constructor]).
  induction entries as [|[k v] entries IH]; simpl;
    [intros _; split; [reflexivity | constructor]|].
  intro H. apply andb_true_iff in H as [Hv Hrest].
  destruct v; try discriminate Hv.
  destruct (IH Hrest) as [IHn IHf]. simpl. split.
  - now rewrite IHn.
  - constructor; [|exact IHf]. simpl. split.
    + unfold clean_version. fold not_range_char.
      apply all_chars_rstrip, all_chars_drop_while, str_filter_all.
    + unfold clean_version. apply py_strip_idempotent.
Qed.

(** X4: on a manifest whose groups are objects with string versions, the
    JSON parser returns one reference for each entry, the regular
    dependencies first and the development ones after them, each group in
    its order; a name listed in both groups is returned twice; no version
    returned holds an operator character or begins or ends with white
    space. *)
Theorem package_json_reference_count
        (text : string) (fields : list (string * json)) :
  json_loads text = Some (JObj fields) ->
  manifest_well_shaped (JObj fields) = true ->
  exists packages,
    _parse_package_json (Ok text) = Ok packages
    /\ map fst packages
       = (map fst (group_entries fields "dependencies")
            ++ map fst (group_entries fields "devDependencies"))%list
    /\ List.length packages
       = List.length (group_entries fields "dependencies")
         + List.length (group_entries fields "devDependencies")
    /\ Forall (fun p => all_chars not_range_char (snd p)
                        /\ py_strip (snd p) = snd p) packages.
Proof.
  intros Hload Hshape.
  simpl in Hshape. apply andb_true_iff in Hshape as [Hd Hdev].
  exists (group_references fields "dependencies"
            ++ group_references fields "devDependencies")%list.
  destruct (group_references_names fields "dependencies" Hd) as [Nd Fd].
  destruct (group_references_names fields "devDependencies" Hdev)
    as [Ndev Fdev].
  assert (Hnames :
            map fst (group_references fields "dependencies"
                       ++ group_references fields "devDependencies")%list
            = (map fst (group_entries fields "dependencies")
                 ++ map fst (group_entries fields "devDependencies"))%list)
    by (now rewrite map_app, Nd, Ndev).
  split; [|split; [exact Hnames | split]].
  - unfold _parse_package_json. rewrite Hload. cbn [for_each].
    rewrite (add_group_well_shaped _ _ _ Hd).
    rewrite (add_group_well_shaped _ _ _ Hdev).
    reflexivity.
  - rewrite <- (List.length_map fst), Hnames.
    now rewrite List.length_app, !List.length_map.
  - apply Forall_app. now split.
Qed.

(** ** Local audit: the formats *)

Lemma py_join_strings (sep : string) (parts : list string) :
  py_join sep (map JStr parts) = Ok (String.concat sep parts).
Proof.
  induction parts as [|p parts IH]; [reflexivity|].
  cbn [map py_join]. destruct parts as [|q parts]; [reflexivity|].
  cbn [map] in IH |- *. rewrite IH. reflexivity.
Qed.

Lemma via_descriptions_encoded (vias : list npm_via) (parts : list json) :
  for_each via_description (map encode_via vias) parts
  = ((parts ++ map JStr (via_texts vias))%list, Ok tt).
Proof.
  revert parts. induction vias as [|v vias IH]; intro parts.
  - simpl. now rewrite List.app_nil_r.
  - cbn [map for_each].
    assert (Hv : via_description (encode_via v) parts
                 = ((parts ++ map JStr (via_texts [v]))%list, Ok tt)).
    { destruct v as [name | [[t|] [[|c0 c]|] [[|u0 u]|]]];
        try reflexivity; simpl; now rewrite List.app_nil_r. }
    rewrite Hv, IH. unfold via_texts. cbn [flat_map].
    now rewrite List.app_nil_r, map_app, List.app_assoc.
Qed.

Lemma npm_v7_package_encoded (entry : string * npm_vulnerability)
      (vulns : list Finding) :
  npm_v7_package (fst entry, encode_npm_vulnerability (snd entry)) vulns
  = ((vulns ++ npm_package_finding entry)%list, Ok tt).
Proof.
  destruct entry as [name [severity vias]].
  unfold npm_v7_package, npm_package_finding, encode_npm_vulnerability.
  cbn [fst snd is_dict vuln_severity vuln_via].
  assert (Hvia : (severity0 <- py_get
                     (JObj (encode_field "severity" (option_map JStr severity)
                              ++ [("via", JArr (map encode_via vias))])%list)
                     "severity" (JStr "unknown") ;;
                  via <- py_get
                     (JObj (encode_field "severity" (option_map JStr severity)
                              ++ [("via", JArr (map encode_via vias))])%list)
                     "via" (JArr []) ;;
                  py_iter via)
                 = Ok (map encode_via vias))
    by (destruct severity; reflexivity).
  rewrite Hvia, via_descriptions_encoded. cbn [List.app].
  destruct (via_texts vias) as [|p parts] eqn:E.
  - simpl. now rewrite List.app_nil_r.
  - rewrite py_join_strings. reflexivity.
Qed.

Lemma npm_v7_packages_encoded (report : list (string * npm_vulnerability))
      (vulns : list Finding) :
  for_each npm_v7_package
           (map (fun entry => (fst entry, encode_npm_vulnerability (snd entry)))
                report) vulns
  = ((vulns ++ flat_map npm_package_finding report)%list, Ok tt).
Proof.
  revert vulns. induction report as [|entry report IH]; intro vulns.
  - simpl. now rewrite List.app_nil_r.
  - cbn [map for_each flat_map].
    rewrite npm_v7_package_encoded, IH.
    now rewrite List.app_assoc.
Qed.

(** X5: when the report of npm audit is an object with a
    [vulnerabilities] field in the format of npm 7 and later, the npm
    provider returns one finding for each package whose [via] list holds
    an advisory, in the order of the report: its description joins the
    texts of the advisories with " | ", each text being the title, after
    "<cve>: " when a CVE is given and before " - <url>" when a URL is
    given.  An entry of [via] that only names another package adds
    nothing, a package with no advisory gives no finding, and the other
    fields of the report, an [advisories] field among them, are never
    read. *)
Theorem npm_v7_report_findings (rc : Z) (stdout : string)
        (fields : list (string * json))
        (report : list (string * npm_vulnerability)) :
  stdout <> EmptyString ->
  json_loads stdout = Some (JObj fields) ->
  assoc "vulnerabilities" fields = Some (encode_npm_vulnerabilities report) ->
  _check_npm_vulnerabilities (Completed rc stdout)
  = ([Run NpmAudit], Ok (flat_map npm_package_finding report)).
Proof.
  intros Hne Hload Hfield.
  unfold _check_npm_vulnerabilities.
  rewrite (attempt_of_printed_json npm_findings rc stdout _ [])
    by (eassumption || apply npm_findings_raises).
  unfold npm_findings. cbn [py_in py_getitem]. rewrite Hfield.
  unfold encode_npm_vulnerabilities. cbn [bind py_items].
  now rewrite npm_v7_packages_encoded.
Qed.

Lemma npm_v6_advisories_encoded (advisories : list (string * npm_v6_record))
      (vulns : list Finding) :
  for_each npm_v6_advisory
           (map (fun entry => (fst entry, encode_npm_v6_record (snd entry)))
                advisories) vulns
  = ((vulns ++ map npm_v6_finding advisories)%list, Ok tt).
Proof.
  revert vulns. induction advisories as [|entry advisories IH]; intro vulns.
  - simpl. now rewrite List.app_nil_r.
  - cbn [map for_each].
    assert (Ha : npm_v6_advisory
                   (fst entry, encode_npm_v6_record (snd entry)) vulns
                 = ((vulns ++ [npm_v6_finding entry])%list, Ok tt))
      by (destruct entry as [id [[m|] [t|] [sv|]]]; reflexivity).
    rewrite Ha, IH. now rewrite <- List.app_assoc.
Qed.

(** X6: when the report of npm audit is an object with no
    [vulnerabilities] field and an [advisories] field in the format of
    npm 6, the npm provider returns one finding for each advisory, in the
    order of the report: the package is the module name ("unknown" when
    the advisory gives none) and the description is
    "<title> - Severity: <severity>" ("No title" and "unknown" when they
    are not given). *)
Theorem npm_v6_report_findings (rc : Z) (stdout : string)
        (fields : list (string * json))
        (advisories : list (string * npm_v6_record)) :
  stdout <> EmptyString ->
  json_loads stdout = Some (JObj fields) ->
  assoc "vulnerabilities" fields = None ->
  assoc "advisories" fields = Some (encode_npm_advisories advisories) ->
  _check_npm_vulnerabilities (Completed rc stdout)
  = ([Run NpmAudit], Ok (map npm_v6_finding advisories)).
Proof.
  intros Hne Hload Hnone Hfield.
  unfold _check_npm_vulnerabilities.
  rewrite (attempt_of_printed_json npm_findings rc stdout _ [])
    by (eassumption || apply npm_findings_raises).
  unfold npm_findings. cbn [py_in py_getitem]. rewrite Hnone, Hfield.
  unfold encode_npm_advisories. cbn [bind py_items].
  now rewrite npm_v6_advisories_encoded.
Qed.

Lemma pip_audit_vulns_encoded (name : option string)
      (vs : list pip_vulnerability) (vulns : list Finding) :
  for_each (pip_audit_vuln (JStr (text_or "unknown" name)))
           (map encode_pip_vulnerability vs) vulns
  = ((vulns
        ++ pip_dependency_findings
             {| dep_name := name; dep_vulns := Some vs |})%list, Ok tt).
Proof.
  unfold pip_dependency_findings. cbn [dep_name dep_vulns].
  revert vulns. induction vs as [|v vs IH]; intro vulns.
  - simpl. now rewrite List.app_nil_r.
  - cbn [map for_each].
    assert (Hv : pip_audit_vuln (JStr (text_or "unknown" name))
                                (encode_pip_vulnerability v) vulns
                 = ((vulns
                       ++ [{| package_type := "pip";
                              package := JStr (text_or "unknown" name);
                              description :=
                                JStr (text_or "Unknown CVE" (pv_id v) ++ ": "
                                        ++ text_or "No description available"
                                             (pv_description v)) |}])%list,
                    Ok tt))
      by (destruct v as [[i|] [d|]]; reflexivity).
    rewrite Hv, IH. now rewrite <- List.app_assoc.
Qed.

Lemma pip_audit_dependencies_encoded (deps : list pip_dependency)
      (vulns : list Finding) :
  for_each pip_audit_dependency (map encode_pip_dependency deps) vulns
  = ((vulns ++ flat_map pip_dependency_findings deps)%list, Ok tt).
Proof.
  revert vulns. induction deps as [|d deps IH]; intro vulns.
  - simpl. now rewrite List.app_nil_r.
  - cbn [map for_each flat_map].
    assert (Hd : pip_audit_dependency (encode_pip_dependency d) vulns
                 = ((vulns ++ pip_dependency_findings d)%list, Ok tt)).
    { destruct d as [name [vs|]].
      - unfold pip_audit_dependency, encode_pip_dependency.
        cbn [dep_name dep_vulns option_map encode_field].
        assert (Hget :
                  (pkg_name <- py_get
                       (JObj (encode_field "name" (option_map JStr name)
                                ++ [("vulns",
                                     JArr (map encode_pip_vulnerability vs))])
                             %list)
                       "name" (JStr "unknown") ;;
                   vulns0 <- py_get
                       (JObj (encode_field "name" (option_map JStr name)
                                ++ [("vulns",
                                     JArr (map encode_pip_vulnerability vs))])
                             %list)
                       "vulns" (JArr []) ;;
                   vs0 <- py_iter vulns0 ;;
                   Ok (pkg_name, vs0))
                  = Ok (JStr (text_or "unknown" name),
                        map encode_pip_vulnerability vs))
          by (destruct name; reflexivity).
        rewrite Hget. apply pip_audit_vulns_encoded.
      - destruct name; simpl; now rewrite List.app_nil_r. }
    rewrite Hd, IH. now rewrite List.app_assoc.
Qed.

(** X7: when the report of pip-audit is an object with a
    [dependencies] field, the Python provider returns one finding for
    each vulnerability of each dependency, in the order of the report,
    with the description "<id>: <description>" ("unknown", "Unknown CVE"
    and "No description available" standing for what the report does not
    give), and the second tool is not run, even when the report lists no
    vulnerability at all. *)
Theorem pip_audit_report_findings (rc : Z) (stdout : string)
        (fields : list (string * json))
        (deps : list pip_dependency) (safety : run_outcome) :
  stdout <> EmptyString ->
  json_loads stdout = Some (JObj fields) ->
  assoc "dependencies" fields = Some (encode_pip_dependencies deps) ->
  _check_python_vulnerabilities (Completed rc stdout) safety
  = ([Run PipAudit], Ok (flat_map pip_dependency_findings deps)).
Proof.
  intros Hne Hload Hfield.
  unfold _check_python_vulnerabilities.
  rewrite (attempt_of_printed_json pip_audit_findings rc stdout _ [])
    by (eassumption || apply pip_audit_findings_raises).
  unfold pip_audit_findings. cbn [py_in py_getitem]. rewrite Hfield.
  unfold encode_pip_dependencies. cbn [bind py_iter].
  now rewrite pip_audit_dependencies_encoded.
Qed.

(** ** Remote provider: a whole response *)

Lemma vuln_description_encoded (version : string) (r : cve_record) :
  vuln_description version (encode_record r)
  = Ok (expected_description version r).
Proof.
  unfold vuln_description, encode_record, expected_description.
  cbn [py_get assoc String.eqb Ascii.eqb Bool.eqb bind py_iter].
  rewrite english_description_encoded. cbn [bind].
  rewrite severity_info_encoded. cbn [bind py_slice py_str].
  now destruct (is_empty version).
Qed.

Lemma nvd_records_encoded (t n v : string) (records : list cve_record)
      (vulns : list Finding) :
  for_each (nvd_record t n v) (map encode_record records) vulns
  = ((vulns ++ map (nvd_finding t n v) records)%list, Ok tt).
Proof.
  revert vulns. induction records as [|r records IH]; intro vulns.
  - simpl. now rewrite List.app_nil_r.
  - cbn [map for_each]. unfold nvd_record at 1.
    rewrite vuln_description_encoded, IH.
    now rewrite <- List.app_assoc.
Qed.

(** The records of the schema before a record that raises. *)
Lemma nvd_records_until (t n v : string) (good : list cve_record)
      (bad : json) (rest : list json) (e : exn) (vulns : list Finding) :
  vuln_description v bad = Err e ->
  for_each (nvd_record t n v) (map encode_record good ++ bad :: rest)%list
           vulns
  = ((vulns ++ map (nvd_finding t n v) good)%list, Err e).
Proof.
  intro Hbad.
  rewrite for_each_app, nvd_records_encoded.
  cbn [for_each]. unfold nvd_record at 1. now rewrite Hbad.
Qed.

Lemma nvd_findings_of_records (t n v : string)
      (fields : list (string * json)) (records : list json)
      (vulns : list Finding) :
  assoc "vulnerabilities" fields = Some (JArr records) ->
  nvd_findings t n v (JObj fields) vulns
  = for_each (nvd_record t n v) records vulns.
Proof.
  intro H. unfold nvd_findings. cbn [py_in py_getitem]. rewrite H.
  cbn [bind py_truthy py_iter].
  now destruct records.
Qed.

(** X8: a response of status 200 whose [vulnerabilities] field holds
    records of the schema gives one finding for each record, in the order
    of the response, under the type and the name of the queried package,
    and is followed by the sleep; the provider keeps every record it is
    sent, five or more, and an empty list of records gives no finding. *)
Theorem nvd_response_findings (http : nat -> string -> http_outcome)
        (t : string) (i : nat) (p : string * string) (body : string)
        (fields : list (string * json)) (records : list cve_record) :
  http i (keyword_of t p) = Response 200 body ->
  json_loads body = Some (JObj fields) ->
  assoc "vulnerabilities" fields = Some (encode_records records) ->
  package_effect http t (i, p)
  = (([Get (keyword_of t p); Sleep request_delay],
      map (nvd_finding t (fst p) (snd p)) records), Ok tt).
Proof.
  intros Ho Hl Hf. destruct p as [pkg_name version].
  unfold package_effect, nvd_step, nvd_query, keyword_of in *.
  cbn [fst snd] in *. rewrite Ho. cbn [Z.eqb Pos.eqb]. rewrite Hl.
  rewrite (nvd_findings_of_records _ _ _ _ _ _ Hf).
  rewrite nvd_records_encoded. reflexivity.
Qed.

(** X9: when a record of a response raises an exception that the except
    clause names (KeyError, from a metric block that is an object rather
    than a list), the findings of the records before it stay in the
    result, the records after it are not read, the sleep is skipped and
    the loop goes on to the next package. *)
Theorem nvd_partial_findings_kept (http : nat -> string -> http_outcome)
        (t : string) (i : nat) (p : string * string) (body : string)
        (fields : list (string * json)) (good : list cve_record)
        (bad : json) (rest : list json) (e : exn) :
  http i (keyword_of t p) = Response 200 body ->
  json_loads body = Some (JObj fields) ->
  assoc "vulnerabilities" fields
  = Some (JArr (map encode_record good ++ bad :: rest)%list) ->
  vuln_description (snd p) bad = Err e ->
  nvd_caught e = true ->
  package_effect http t (i, p)
  = (([Get (keyword_of t p)], map (nvd_finding t (fst p) (snd p)) good),
     Ok tt).
Proof.
  intros Ho Hl Hf Hbad Hc. destruct p as [pkg_name version].
  unfold package_effect, nvd_step, nvd_query, keyword_of in *.
  cbn [fst snd] in *. rewrite Ho. cbn [Z.eqb Pos.eqb]. rewrite Hl.
  rewrite (nvd_findings_of_records _ _ _ _ _ _ Hf).
  rewrite (nvd_records_until _ _ _ _ _ _ _ _ Hbad).
  cbn [try_except List.app]. now rewrite Hc.
Qed.

(** ** Remote provider: how far the loop goes *)

Lemma nvd_loop_exact (http : nat -> string -> http_outcome) (t : string)
      (entries : list (nat * (string * string)))
      (done : list event) (vulns : list Finding) :
  for_each (nvd_step http t) entries (done, vulns)
  = (((done ++ flat_map (package_events http t)
                        (firstn (turns_begun http t entries) entries))%list,
      (vulns ++ flat_map (package_findings http t)
                         (firstn (turns_begun http t entries) entries))%list),
     loop_end http t entries).
Proof.
  revert done vulns.
  induction entries as [|entry entries IH]; intros done vulns.
  - simpl. now rewrite !List.app_nil_r.
  - cbn [for_each turns_begun loop_end]. rewrite nvd_step_frame.
    assert (Hev : package_events http t entry
                  = fst (fst (package_effect http t entry))) by reflexivity.
    assert (Hfi : package_findings http t entry
                  = snd (fst (package_effect http t entry))) by reflexivity.
    destruct (package_effect http t entry) as [[d f] [[]|e]];
      cbn [snd fst] in *.
    + rewrite IH. cbn [firstn flat_map]. rewrite Hev, Hfi.
      now rewrite !List.app_assoc.
    + cbn [firstn flat_map]. rewrite Hev, Hfi.
      now rewrite !List.app_nil_r.
Qed.

Lemma turns_begun_bound (http : nat -> string -> http_outcome) (t : string)
      (entries : list (nat * (string * string))) :
  turns_begun http t entries <= List.length entries
  /\ (loop_end http t entries = Ok tt ->
      turns_begun http t entries = List.length entries).
Proof.
  induction entries as [|entry entries [IHb IHe]]; simpl; [split; lia|].
  destruct (snd (package_effect http t entry)) as [[]|e].
  - split; [lia | intro H; now rewrite IHe].
  - split; [lia | discriminate].
Qed.

(** The exception that ends the loop is the one of the last package
    begun, and the except clause does not name it. *)
Lemma loop_end_raises (http : nat -> string -> http_outcome) (t : string)
      (entries : list (nat * (string * string))) (e : exn) :
  loop_end http t entries = Err e ->
  nvd_caught e = false
  /\ exists entry,
      nth_error entries (pred (turns_begun http t entries)) = Some entry
      /\ snd (package_effect http t entry) = Err e.
Proof.
  induction entries as [|entry entries IH]; simpl; [discriminate|].
  destruct (snd (package_effect http t entry)) as [[]|e'] eqn:E.
  - intro H. destruct (IH H) as (Hc & entry' & Hn & He).
    split; [exact Hc|]. exists entry'. split; [|exact He].
    destruct (turns_begun http t entries) as [|k] eqn:K; [|exact Hn].
    destruct entries; [discriminate H|].
    simpl in K. destruct (snd (package_effect http t p)) as [[]|]; discriminate.
  - intro H. injection H as ->. split.
    + unfold package_effect, nvd_step, try_except in E.
      destruct (nvd_query http t entry ([], [])) as [s [u|e0]];
        [discriminate|].
      destruct (nvd_caught e0) eqn:C; [discriminate|].
      simpl in E. now injection E as <-.
    + exists entry. now split.
Qed.

Lemma firstn_enumerate {X : Type} (xs : list X) (k start : nat) :
  firstn k (combine (seq start (List.length xs)) xs)
  = combine (seq start (List.length (firstn k xs))) (firstn k xs).
Proof.
  revert k start. induction xs as [|x xs IH]; intros k start.
  - now destruct k.
  - destruct k as [|k]; [reflexivity|].
    cbn [List.length seq combine firstn]. now rewrite IH.
Qed.

Lemma nth_error_enumerate {X : Type} (xs : list X) (k start : nat)
      (entry : nat * X) :
  nth_error (combine (seq start (List.length xs)) xs) k = Some entry ->
  fst entry = start + k /\ nth_error xs k = Some (snd entry).
Proof.
  revert k start. induction xs as [|x xs IH]; intros k start.
  - destruct k; discriminate.
  - destruct k as [|k]; cbn [List.length seq combine nth_error].
    + intro H. injection H as <-. simpl. split; [lia | reflexivity].
    + intro H. apply IH in H as [Hf Hn]. split; [lia | exact Hn].
Qed.

Lemma sleeps_of_package (http : nat -> string -> http_outcome)
      (t : string) (entries : list (nat * (string * string))) :
  List.length (filter is_sleep (flat_map (package_events http t) entries))
  <= List.length (filter is_get (flat_map (package_events http t) entries))
  /\ Forall (fun ev => is_sleep ev = true -> ev = Sleep request_delay)
            (flat_map (package_events http t) entries).
Proof.
  induction entries as [|[i p] entries [IHl IHf]]; simpl;
    [split; [lia | constructor]|].
  rewrite !filter_app, !List.length_app.
  destruct (package_events_shape http t i p) as [-> | ->]; simpl.
  - split; [lia|]. constructor; [discriminate | exact IHf].
  - split; [lia|].
    constructor; [discriminate|]. constructor; [reflexivity | exact IHf].
Qed.

(** ** Remote provider: the descriptions of a response *)



(** X10: the remote provider sends its requests in the order of the
    package list, one for each package and never one for a package twice;
    a sleep never comes without a request before it, so that there are
    never more sleeps than requests, and every sleep lasts the fixed
    delay; when the provider returns, every package of the list has been
    queried. *)
Theorem nvd_requests_in_order (http : nat -> string -> http_outcome)
        (t : string) (packages : list (string * string)) :
  let r := _check_nvd_vulnerabilities true http packages t in
  exists n,
    n <= List.length packages
    /\ filter is_get (fst r)
       = map (fun p => Get (keyword_of t p)) (firstn n packages)
    /\ List.length (filter is_sleep (fst r))
       <= List.length (filter is_get (fst r))
    /\ Forall (fun ev => is_sleep ev = true -> ev = Sleep request_delay)
              (fst r)
    /\ (forall found, snd r = Ok found -> n = List.length packages).
Proof.
  intro r. subst r. unfold _check_nvd_vulnerabilities. cbn [negb].
  rewrite nvd_loop_exact. cbn [List.app].
  set (k := turns_begun http t (enumerate packages)).
  destruct (turns_begun_bound http t (enumerate packages)) as [Hb He].
  fold k in Hb, He.
  assert (Hlen : List.length (enumerate packages) = List.length packages).
  { unfold enumerate. rewrite List.length_combine, List.length_seq. lia. }
  exists k.
  assert (Hev :
            forall x : res unit,
              fst (let '(done, vulnerabilities, y) :=
                     ((flat_map (package_events http t)
                                (firstn k (enumerate packages)),
                       flat_map (package_findings http t)
                                (firstn k (enumerate packages))), x) in
                   match y with
                   | Ok _ => (done, Ok vulnerabilities)
                   | Err e => (done, Err e)
                   end)
              = flat_map (package_events http t)
                         (firstn k (enumerate packages)))
    by (intros [[]|e]; reflexivity).
  rewrite Hev.
  split; [lia|]. split.
  { unfold enumerate. rewrite firstn_enumerate.
    apply enumerate_from_queries. }
  split; [apply sleeps_of_package|].
  split; [apply sleeps_of_package|].
  intros found Hfound.
  destruct (loop_end http t (enumerate packages)) as [[]|e] eqn:L;
    [|discriminate Hfound].
  rewrite He by reflexivity. exact Hlen.
Qed.

(** X11: when the remote provider raises, the exception is one that the
    except clause does not name, it comes from the turn of one package of
    the list, and no package after that one was queried: the findings of
    the packages before it are lost with the call. *)
Theorem nvd_exception_ends_batch (http : nat -> string -> http_outcome)
        (t : string) (packages : list (string * string)) (e : exn) :
  snd (_check_nvd_vulnerabilities true http packages t) = Err e ->
  nvd_caught e = false
  /\ exists n p,
      nth_error packages n = Some p
      /\ snd (package_effect http t (n, p)) = Err e
      /\ filter is_get (fst (_check_nvd_vulnerabilities true http packages t))
         = map (fun p => Get (keyword_of t p)) (firstn (S n) packages).
Proof.
  unfold _check_nvd_vulnerabilities. cbn [negb].
  rewrite nvd_loop_exact. cbn [List.app].
  destruct (loop_end http t (enumerate packages)) as [[]|e'] eqn:L;
    cbn [snd fst]; [discriminate|].
  intro H. injection H as ->.
  destruct (loop_end_raises http t _ e L) as (Hc & [i p] & Hn & He).
  split; [exact Hc|].
  unfold enumerate in Hn.
  apply nth_error_enumerate in Hn as [Hi Hp]. cbn [fst snd] in Hi, Hp.
  simpl in Hi. subst i.
  exists (pred (turns_begun http t (enumerate packages))), p.
  split; [exact Hp|]. split; [exact He|].
  assert (Hpos : turns_begun http t (enumerate packages) <> 0).
  { unfold enumerate. destruct packages as [|q packages]; [discriminate Hp|].
    simpl. destruct (snd (package_effect http t (0, q))) as [[]|];
      discriminate. }
  replace (S (pred (turns_begun http t (enumerate packages))))
    with (turns_begun http t (enumerate packages)) by lia.
  unfold enumerate at 2. rewrite firstn_enumerate.
  apply enumerate_from_queries.
Qed.

(** ** Remote provider: where the findings come from *)

Lemma in_firstn {X : Type} (k : nat) (xs : list X) (x : X) :
  In x (firstn k xs) -> In x xs.
Proof.
  intro H. rewrite <- (firstn_skipn k xs). apply in_or_app. now left.
Qed.

Lemma for_each_invariant {X S : Type} (P : S -> Prop)
      (body : X -> S -> S * res unit) (xs : list X) :
  (forall x, In x xs -> forall s, P s -> P (fst (body x s))) ->
  forall s, P s -> P (fst (for_each body xs s)).
Proof.
  induction xs as [|x xs IH]; intros Hbody s Hs; [exact Hs|].
  cbn [for_each].
  assert (Hx := Hbody x (or_introl eq_refl) s Hs).
  destruct (body x s) as [s' [u|e]]; cbn [fst] in *; [|exact Hx].
  apply IH; [|exact Hx].
  intros y Hy. apply Hbody. now right.
Qed.

Lemma package_findings_provenance (http : nat -> string -> http_outcome)
      (t : string) (i : nat) (p : string * string) :
  Forall (fun f => package_type f = t /\ package f = JStr (fst p)
                    /\ exists text, description f = JStr text)
         (package_findings http t (i, p)).
Proof.
  destruct p as [pkg_name version].
  set (P := fun acc : list Finding =>
              Forall (fun f => package_type f = t /\ package f = JStr pkg_name
                               /\ exists text, description f = JStr text)
                     acc).
  assert (Hfind : forall data, P (fst (nvd_findings t pkg_name version data []))).
  { intro data. unfold nvd_findings.
    match goal with |- context [match ?b with _ => _ end] =>
      destruct b as [records|e] end; [|constructor].
    apply (for_each_invariant P); [|constructor].
    intros item _ acc Hacc. unfold nvd_record.
    destruct (vuln_description version item) as [text|e]; [|exact Hacc].
    cbn [fst]. apply Forall_app. split; [exact Hacc|].
    constructor; [|constructor]. cbn. repeat split. now exists text. }
  unfold package_findings, package_effect, nvd_step, nvd_query.
  cbn [fst snd].
  match goal with |- context [http i ?k] =>
    destruct (http i k) as [st body|e] end.
  - destruct (Z.eqb st 200); [|constructor].
    destruct (json_loads body) as [data|]; [|constructor].
    specialize (Hfind data).
    destruct (nvd_findings t pkg_name version data []) as [f [u|e]];
      cbn [fst] in Hfind; simpl; [exact Hfind|].
    now destruct (nvd_caught e).
  - simpl. destruct (nvd_caught e); constructor.
Qed.

(** X12: every finding the remote provider returns carries the package
    type it was called with, the name of a package of the list it was
    given, and a description that is a string. *)
Theorem nvd_findings_provenance (available : bool)
        (http : nat -> string -> http_outcome)
        (t : string) (packages : list (string * string))
        (found : list Finding) :
  snd (_check_nvd_vulnerabilities available http packages t) = Ok found ->
  Forall (nvd_provenance t packages) found.
Proof.
  unfold _check_nvd_vulnerabilities.
  destruct available; cbn [negb];
    [|intro H; injection H as <-; constructor].
  rewrite nvd_loop_exact. cbn [List.app].
  destruct (loop_end http t (enumerate packages)) as [[]|e];
    cbn [snd]; [|discriminate].
  intro H. injection H as <-.
  apply Forall_flat_map, Forall_forall.
  intros [i [name version]] Hin.
  apply in_firstn in Hin. unfold enumerate in Hin.
  apply in_combine_r in Hin.
  eapply Forall_impl; [|apply package_findings_provenance].
  intros f (Ht & Hp & Hd). unfold nvd_provenance.
  split; [exact Ht|]. split; [|exact Hd].
  now exists name, version.
Qed.

(** ** Local audit: the exceptions that get out *)

(** X13: the local audit providers raise nothing that their except
    clause names; what gets out of them is either an exception of
    [subprocess.run] that the clause does not name, or the
    [AttributeError] or [TypeError] met on a report whose shape is not
    the expected one. *)
Theorem local_audit_exceptions :
  (forall tool e,
      snd (_check_npm_vulnerabilities tool) = Err e ->
      audit_caught e = false /\ (shape_error e \/ tool = RunRaises e))
  /\ (forall pip_audit safety e,
        snd (_check_python_vulnerabilities pip_audit safety) = Err e ->
        audit_caught e = false
        /\ (shape_error e \/ pip_audit = RunRaises e
            \/ safety = RunRaises e)).
Proof.
  assert (Hone : forall findings tool vulns vulns' e,
             (forall d v v' e', findings d v = (v', Err e') -> shape_error e') ->
             except_audit (audit_attempt findings tool vulns) = (vulns', Err e) ->
             audit_caught e = false /\ (shape_error e \/ tool = RunRaises e)).
  { intros findings tool vulns vulns' e Hraises.
    destruct (run_outcome_cases tool)
      as [Hf | [(rc & out & data & -> & Hne & Hload) | (e' & -> & Hc)]].
    - rewrite (attempt_of_failed_tool findings tool vulns Hf). discriminate.
    - rewrite (attempt_of_printed_json findings rc out data vulns)
        by assumption.
      destruct (findings data vulns) as [v [u|e']] eqn:F; [discriminate|].
      intro H. injection H as _ <-.
      assert (Hs := Hraises _ _ _ _ F).
      split; [now apply shape_error_uncaught | now left].
    - rewrite (attempt_of_uncaught findings e' vulns Hc).
      intro H. injection H as _ <-. split; [exact Hc | now right]. }
  split.
  - intros tool e. unfold _check_npm_vulnerabilities.
    destruct (except_audit (audit_attempt npm_findings tool []))
      as [v [[|]|e']] eqn:A; cbn [snd]; try discriminate.
    intro H. injection H as ->.
    apply (Hone _ _ _ _ _ npm_findings_raises A).
  - intros pip_audit safety e. unfold _check_python_vulnerabilities.
    destruct (except_audit (audit_attempt pip_audit_findings pip_audit []))
      as [v [[|]|e']] eqn:A; cbn [snd]; try discriminate.
    + destruct (except_audit (audit_attempt safety_findings safety v))
        as [v' [[|]|e']] eqn:B; cbn [snd]; try discriminate.
      intro H. injection H as ->.
      destruct (Hone _ _ _ _ _ safety_findings_raises B) as [Hc [Hs | Hr]];
        auto.
    + intro H. injection H as ->.
      destruct (Hone _ _ _ _ _ pip_audit_findings_raises A) as [Hc [Hs | Hr]];
        auto.
Qed.

(** ** The orchestrator: keys *)

Lemma py_eqb_refl (j : json) : hashable j = true -> py_eqb j j = true.
Proof.
  destruct j as [|[|]|n|s| |]; simpl; try discriminate; intros _;
    try reflexivity.
  - unfold py_eqb. simpl. apply Qeq_bool_iff. reflexivity.
  - unfold py_eqb. simpl. apply String.eqb_refl.
Qed.

Lemma same_key_refl (f : Finding) :
  hashable_finding f = true -> same_key f f = true.
Proof.
  unfold hashable_finding, key_hashable, same_key, key_eqb, key_of.
  intro H. apply andb_true_iff in H as [Hp Hd].
  now rewrite String.eqb_refl, !py_eqb_refl.
Qed.

Lemma dedup_into_extends (kept arrivals : list Finding) :
  exists added,
    dedup_into kept arrivals = (kept ++ added)%list
    /\ (forall f, In f added -> In f arrivals)
    /\ List.length added <= List.length arrivals.
Proof.
  revert kept. induction arrivals as [|x rest IH]; intro kept; simpl.
  - exists []. rewrite List.app_nil_r.
    split; [reflexivity|]. split; [intros f [] | simpl; lia].
  - destruct (existsb (same_key x) kept).
    + destruct (IH kept) as (added & -> & Hin & Hlen).
      exists added. split; [reflexivity|].
      split; [intros f Hf; right; now apply Hin | lia].
    + destruct (IH (kept ++ [x])%list) as (added & -> & Hin & Hlen).
      exists (x :: added). rewrite <- List.app_assoc.
      split; [reflexivity|]. split; [|simpl; lia].
      intros f [<- | Hf]; [now left | right; now apply Hin].
Qed.

Lemma dedup_into_covers (kept arrivals : list Finding) (a : Finding) :
  same_key a a = true ->
  In a arrivals \/ existsb (same_key a) kept = true ->
  existsb (same_key a) (dedup_into kept arrivals) = true.
Proof.
  intro Hrefl. revert kept.
  induction arrivals as [|x rest IH]; intros kept H; simpl.
  - destruct H as [[] | H]. exact H.
  - destruct (existsb (same_key x) kept) eqn:E.
    + apply IH. destruct H as [[<- | Hin] | Hk]; auto.
    + apply IH. destruct H as [[<- | Hin] | Hk]; auto; right;
        rewrite existsb_app; simpl.
      * now rewrite Hrefl, orb_true_r.
      * now rewrite Hk.
Qed.

Lemma merge_loop_all_hashable (vulns : list Finding) (st st' : scan_state) :
  for_each add_unique vulns st = (st', Ok tt) ->
  forallb hashable_finding vulns = true.
Proof.
  revert st. induction vulns as [|x vulns IH]; intro st; [reflexivity|].
  cbn [for_each forallb]. unfold add_unique at 1.
  destruct st as [[done kept] seen]. unfold hashable_finding at 1.
  destruct (key_hashable (key_of x)); [|discriminate].
  destruct (existsb (key_eqb (key_of x)) seen); apply IH.
Qed.

Lemma merges_hashable_skip : merges_hashable skip (Ok []).
Proof. intros st st' vulns _ H. now injection H as <-. Qed.

Lemma merges_hashable_merge (provider : list event * res (list Finding)) :
  merges_hashable (merge_findings provider) (snd provider).
Proof.
  intros [[done kept] seen] st' vulns.
  destruct provider as [events [found|e]]; simpl; [|discriminate].
  intros H E. injection E as <-.
  now apply merge_loop_all_hashable in H.
Qed.

Lemma merges_hashable_and_then
      (s1 s2 : scan_state -> scan_state * res unit)
      (r1 r2 : res (list Finding)) :
  merges_hashable s1 r1 -> merges_hashable s2 r2 ->
  merges_hashable (and_then s1 s2) (both r1 r2).
Proof.
  intros H1 H2 st st' vulns. unfold and_then, both.
  destruct (s1 st) as [st1 [[]|e]] eqn:E1; [|discriminate].
  intros E2 Hr.
  destruct r1 as [a|e1]; [|discriminate Hr].
  destruct r2 as [b|e2]; [|discriminate Hr].
  simpl in Hr. injection Hr as <-.
  rewrite forallb_app.
  rewrite (H1 st st1 a E1 eq_refl), (H2 st1 st' b E2 eq_refl).
  reflexivity.
Qed.

Lemma merges_hashable_remote (w : world) (manifest : string)
      (parse : res string -> res (list (string * string)))
      (package_type : string) :
  merges_hashable (remote_check w manifest parse package_type)
                  (remote_arrivals w manifest parse package_type).
Proof.
  unfold remote_check, remote_arrivals.
  destruct (path_exists w manifest); [|apply merges_hashable_skip].
  destruct (parse (read_text w manifest)) as [[|p packages]|e]; simpl.
  - apply merges_hashable_skip.
  - apply merges_hashable_merge.
  - intros st st' vulns. discriminate.
Qed.

Lemma scan_arrivals_hashable (w : world) (result arrivals : list Finding) :
  snd (scan_directory w) = Ok result ->
  scan_arrivals w = Ok arrivals ->
  forallb hashable_finding arrivals = true.
Proof.
  unfold scan_directory.
  match goal with |- context [and_then ?a ?b ([], [], [])] =>
    assert (M : merges_hashable (and_then a b) (scan_arrivals w)) end.
  { unfold scan_arrivals.
    apply merges_hashable_and_then; [|apply merges_hashable_and_then].
    - destruct (path_exists w "package.json");
        [apply merges_hashable_merge | apply merges_hashable_skip].
    - destruct (path_exists w "requirements.txt");
        [apply merges_hashable_merge | apply merges_hashable_skip].
    - destruct (requests_available w); [|apply merges_hashable_skip].
      apply merges_hashable_and_then; apply merges_hashable_remote. }
  match goal with |- context [and_then ?a ?b ([], [], [])] =>
    destruct (and_then a b ([], [], [])) as [[[done vulns] seen] [[]|e]] eqn:E
  end; simpl; [|discriminate].
  intros _ Ha. exact (M _ _ _ E Ha).
Qed.

(** X14: a scan loses no key and invents no finding: every finding of
    its result is one that a provider returned, every finding that a
    provider returned has its key in the result, and the result is never
    longer than what the providers returned. *)
Theorem scan_keeps_every_key (w : world) (result : list Finding) :
  snd (scan_directory w) = Ok result ->
  exists arrivals,
    scan_arrivals w = Ok arrivals
    /\ (forall f, In f result -> In f arrivals)
    /\ (forall a, In a arrivals ->
                  exists f, In f result /\ same_key a f = true)
    /\ List.length result <= List.length arrivals.
Proof.
  intro H.
  destruct (scan_delivers_arrivals w result H) as (arrivals & Ha & ->).
  assert (Hh := scan_arrivals_hashable w _ arrivals H Ha).
  exists arrivals. split; [exact Ha|].
  destruct (dedup_into_extends [] arrivals) as (added & E & Hin & Hlen).
  simpl in E. rewrite E.
  split; [exact Hin|]. split; [|exact Hlen].
  intros a Hina.
  assert (Hrefl : same_key a a = true).
  { apply same_key_refl.
    rewrite forallb_forall in Hh. now apply Hh. }
  assert (Hc := dedup_into_covers [] arrivals a Hrefl (or_introl Hina)).
  rewrite E in Hc.
  apply existsb_exists in Hc as (f & Hf & Hk). now exists f.
Qed.

Lemma merge_loop_unhashable (vulns : list Finding) (st : scan_state) :
  forallb hashable_finding vulns = false ->
  exists kept seen,
    for_each add_unique vulns st = ((fst (fst st), kept, seen), Err TypeError).
Proof.
  revert st. induction vulns as [|x vulns IH]; intros st H; [discriminate H|].
  cbn [for_each forallb] in *. unfold add_unique at 1.
  destruct st as [[done kept] seen]. unfold hashable_finding at 1 in H.
  destruct (key_hashable (key_of x)); [|now eexists; eexists].
  simpl in H.
  destruct (existsb (key_eqb (key_of x)) seen).
  - destruct (IH (done, kept, seen) H) as (k & s & ->).
    now exists k, s.
  - destruct (IH (done, (kept ++ [x])%list, (seen ++ [key_of x])%list) H)
      as (k & s & ->).
    now exists k, s.
Qed.

(** X15: the set of keys of a scan holds tuples, so a finding whose
    package or description is a list or an object cannot be merged: when
    only the line-oriented manifest is there and the Python provider
    returns such a finding (a record of the second tool whose element 0
    or 3 is a list), the scan raises [TypeError] and the remote service
    is never queried. *)
Theorem scan_unhashable_key_raises (w : world) (vulns : list Finding) :
  path_exists w "package.json" = false ->
  path_exists w "requirements.txt" = true ->
  snd (_check_python_vulnerabilities (run w PipAudit) (run w SafetyCheck))
  = Ok vulns ->
  forallb hashable_finding vulns = false ->
  scan_directory w
  = (fst (_check_python_vulnerabilities (run w PipAudit) (run w SafetyCheck)),
     Err TypeError).
Proof.
  intros Hpj Hreq Hpy Hbad.
  unfold scan_directory. rewrite Hpj, Hreq.
  unfold and_then at 1. unfold skip at 1.
  unfold and_then at 1.
  destruct (_check_python_vulnerabilities (run w PipAudit) (run w SafetyCheck))
    as [events found]. cbn [snd fst] in *. subst found.
  unfold merge_findings. cbn [List.app].
  destruct (merge_loop_unhashable vulns (events, [], []) Hbad)
    as (kept & seen & ->).
  reflexivity.
Qed.

(** ** The orchestrator: what a scan does *)

Lemma merge_loop_done (vulns : list Finding) (st : scan_state) :
  fst (fst (fst (for_each add_unique vulns st))) = fst (fst st).
Proof.
  revert st. induction vulns as [|x vulns IH]; intro st; [reflexivity|].
  cbn [for_each]. unfold add_unique at 1.
  destruct st as [[done kept] seen].
  destruct (key_hashable (key_of x)); [|reflexivity].
  destruct (existsb (key_eqb (key_of x)) seen); now rewrite IH.
Qed.

Lemma emits_skip (P : event -> Prop) : emits P skip.
Proof.
  intros done kept seen. exists []. simpl.
  now rewrite List.app_nil_r.
Qed.

Lemma emits_merge (P : event -> Prop)
      (provider : list event * res (list Finding)) :
  Forall P (fst provider) -> emits P (merge_findings provider).
Proof.
  intros H done kept seen. exists (fst provider).
  split; [|exact H].
  destruct provider as [events [vulns|e]]; simpl; [|reflexivity].
  now rewrite merge_loop_done.
Qed.

Lemma emits_and_then (P : event -> Prop)
      (s1 s2 : scan_state -> scan_state * res unit) :
  emits P s1 -> emits P s2 -> emits P (and_then s1 s2).
Proof.
  intros H1 H2 done kept seen. unfold and_then.
  destruct (H1 done kept seen) as (d1 & E1 & F1).
  destruct (s1 (done, kept, seen)) as [[[done1 kept1] seen1] [[]|e]];
    cbn [fst] in E1; subst done1.
  - destruct (H2 (done ++ d1)%list kept1 seen1) as (d2 & E2 & F2).
    exists (d1 ++ d2)%list. rewrite E2, List.app_assoc.
    split; [reflexivity | now apply Forall_app].
  - now exists d1.
Qed.

Lemma nvd_events_allowed (available : bool)
      (http : nat -> string -> http_outcome) (t : string)
      (packages : list (string * string)) :
  Forall (fun ev => ev = Sleep request_delay
                    \/ exists p, ev = Get (keyword_of t p))
         (fst (_check_nvd_vulnerabilities available http packages t)).
Proof.
  unfold _check_nvd_vulnerabilities.
  destruct available; cbn [negb]; [|constructor].
  rewrite nvd_loop_exact. cbn [List.app].
  assert (H : Forall (fun ev => ev = Sleep request_delay
                                \/ exists p, ev = Get (keyword_of t p))
                     (flat_map (package_events http t)
                               (firstn (turns_begun http t (enumerate packages))
                                       (enumerate packages)))).
  { apply Forall_flat_map, Forall_forall. intros [i p] _.
    destruct (package_events_shape http t i p) as [-> | ->].
    - constructor; [right; now exists p | constructor].
    - constructor; [right; now exists p|].
      constructor; [now left | constructor]. }
  now destruct (loop_end http t (enumerate packages)).
Qed.

Lemma emits_remote (P : event -> Prop) (w : world) (manifest : string)
      (parse : res string -> res (list (string * string)))
      (package_type : string) :
  (path_exists w manifest = true ->
   forall packages,
     Forall P (fst (_check_nvd_vulnerabilities (requests_available w)
                      (http_get w package_type) packages package_type))) ->
  emits P (remote_check w manifest parse package_type).
Proof.
  intro H. unfold remote_check.
  destruct (path_exists w manifest); [|apply emits_skip].
  destruct (parse (read_text w manifest)) as [[|p packages]|e].
  - apply emits_skip.
  - apply emits_merge. now apply H.
  - intros done kept seen. exists []. simpl. now rewrite List.app_nil_r.
Qed.

Lemma python_events (pip_audit safety : run_outcome) :
  Forall (fun ev => ev = Run PipAudit \/ ev = Run SafetyCheck)
         (fst (_check_python_vulnerabilities pip_audit safety)).
Proof.
  unfold _check_python_vulnerabilities.
  assert (H1 : Forall (fun ev => ev = Run PipAudit \/ ev = Run SafetyCheck)
                      [Run PipAudit])
    by (constructor; [now left | constructor]).
  assert (H2 : Forall (fun ev => ev = Run PipAudit \/ ev = Run SafetyCheck)
                      [Run PipAudit; Run SafetyCheck])
    by (constructor; [now left|]; constructor; [now right | constructor]).
  destruct (except_audit (audit_attempt pip_audit_findings pip_audit []))
    as [v [[|]|e]]; cbn [fst]; try exact H1.
  destruct (except_audit (audit_attempt safety_findings safety v))
    as [v' [[|]|e]]; cbn [fst]; exact H2.
Qed.

Lemma npm_events (npm : run_outcome) :
  fst (_check_npm_vulnerabilities npm) = [Run NpmAudit].
Proof.
  unfold _check_npm_vulnerabilities.
  now destruct (except_audit (audit_attempt npm_findings npm []))
    as [v [[|]|e]].
Qed.

(** X16: a scan does nothing that its surroundings do not call for: npm
    audit is run only when the JSON manifest is there, the Python tools
    only when the line-oriented manifest is there, and the remote service
    is queried, and slept for, only when [requests] was imported, with
    an npm keyword only when the JSON manifest is there and with a Python
    keyword only when the line-oriented manifest is there. *)
Theorem scan_events_allowed (w : world) :
  Forall (allowed_event w) (fst (scan_directory w)).
Proof.
  unfold scan_directory.
  match goal with |- context [and_then ?a ?b ([], [], [])] =>
    assert (E : emits (allowed_event w) (and_then a b)) end.
  { apply emits_and_then; [|apply emits_and_then].
    - destruct (path_exists w "package.json") eqn:Hpj;
        [|apply emits_skip].
      apply emits_merge. rewrite npm_events.
      constructor; [exact Hpj | constructor].
    - destruct (path_exists w "requirements.txt") eqn:Hreq;
        [|apply emits_skip].
      apply emits_merge.
      eapply Forall_impl; [|apply python_events].
      intros ev [-> | ->]; exact Hreq.
    - destruct (requests_available w) eqn:Hr; [|apply emits_skip].
      apply emits_and_then; apply emits_remote; intros Hp packages;
        (eapply Forall_impl; [|apply nvd_events_allowed]);
        intros ev [-> | (p & ->)]; simpl; auto. }
  destruct (E [] [] []) as (emitted & Eq & F).
  match goal with |- context [and_then ?a ?b ([], [], [])] =>
    destruct (and_then a b ([], [], [])) as [[[done vulns] seen] [[]|e]]
  end; cbn [fst] in *; now subst done.
Qed.

(** ** Remote provider: the version *)

Lemma vuln_description_version (version : string) (item : json) :
  vuln_description version item
  = match vuln_description EmptyString item with
    | Ok text =>
        Ok (if is_empty version then text
            else text ++ " (Package version: " ++ version ++ ")")
    | Err e => Err e
    end.
Proof.
  unfold vuln_description.
  repeat match goal with
         | |- context [bind ?r _] => destruct r; cbn [bind]; try reflexivity
         end.
  now destruct (is_empty version).
Qed.

Lemma nvd_records_version (t n version : string) (items : list json)
      (acc : list Finding) :
  for_each (nvd_record t n version) items (map (with_version version) acc)
  = (let '(found, r) := for_each (nvd_record t n EmptyString) items acc in
     (map (with_version version) found, r)).
Proof.
  revert acc. induction items as [|item items IH]; intro acc;
    [reflexivity|].
  cbn [for_each]. unfold nvd_record at 1 3.
  rewrite vuln_description_version.
  destruct (vuln_description EmptyString item) as [text|e]; [|reflexivity].
  replace (map (with_version version) acc
             ++ [{| package_type := t; package := JStr n;
                    description :=
                      JStr (if is_empty version then text
                            else text ++ " (Package version: "
                                   ++ version ++ ")") |}])%list
    with (map (with_version version)
              (acc ++ [{| package_type := t; package := JStr n;
                          description := JStr text |}])%list).
  - apply IH.
  - rewrite map_app. f_equal. unfold with_version. simpl.
    now destruct (is_empty version).
Qed.

(** X17: the version of a package has no part in the query: with any
    version the provider sends the request it sends with none, reads the
    same records, sleeps or not alike and meets the same exception; the
    version only adds " (Package version: <version>)" to each
    description. *)
Theorem nvd_version_only_in_suffix (http : nat -> string -> http_outcome)
        (t : string) (i : nat) (name version : string) :
  package_effect http t (i, (name, version))
  = (let '((events, found), r) :=
       package_effect http t (i, (name, EmptyString)) in
     ((events, map (with_version version) found), r)).
Proof.
  unfold package_effect, nvd_step, nvd_query.
  match goal with |- context [http i ?k] =>
    destruct (http i k) as [st body|e] end.
  - destruct (Z.eqb st 200); [|reflexivity].
    destruct (json_loads body) as [data|]; [|reflexivity].
    assert (Hf : nvd_findings t name version data []
                 = (let '(found, r) := nvd_findings t name EmptyString data []
                    in (map (with_version version) found, r))).
    { unfold nvd_findings.
      match goal with |- context [match ?b with _ => _ end] =>
        destruct b as [records|e] end; [|reflexivity].
      apply (nvd_records_version t name version records []). }
    rewrite Hf.
    destruct (nvd_findings t name EmptyString data []) as [found [[]|e]];
      simpl; [reflexivity|].
    now destruct (nvd_caught e).
  - simpl. now destruct (nvd_caught e).
Qed.

(** ** The orchestrator: ecosystems *)

Lemma audit_attempt_invariant (P : list Finding -> Prop)
      (findings : json -> list Finding -> list Finding * res unit)
      (tool : run_outcome) (vulns : list Finding) :
  (forall data acc, P acc -> P (fst (findings data acc))) ->
  P vulns ->
  P (fst (except_audit (audit_attempt findings tool vulns))).
Proof.
  intros Hf Hv. destruct tool as [rc stdout|e]; simpl.
  - destruct (is_empty stdout); simpl; [exact Hv|].
    destruct (json_loads stdout) as [data|]; simpl; [|exact Hv].
    specialize (Hf data vulns Hv).
    destruct (findings data vulns) as [v [u|e]]; simpl in *; [exact Hf|].
    now destruct (audit_caught e).
  - now destruct (audit_caught e).
Qed.

Lemma npm_findings_ecosystem (data : json) (acc : list Finding) :
  Forall (fun f => package_type f = "npm") acc ->
  Forall (fun f => package_type f = "npm") (fst (npm_findings data acc)).
Proof.
  intro Hacc. unfold npm_findings.
  destruct (py_in "vulnerabilities" data) as [[|]|e]; [| |exact Hacc].
  - match goal with |- context [match ?b with _ => _ end] =>
      destruct b as [entries|e] end; [|exact Hacc].
    apply (for_each_invariant
             (Forall (fun f => package_type f = "npm"))); [|exact Hacc].
    intros [name vuln_data] _ s Hs. unfold npm_v7_package.
    destruct (is_dict vuln_data); [|exact Hs].
    match goal with |- context [match ?b with _ => _ end] =>
      destruct b as [vias|e] end; [|exact Hs].
    destruct (for_each via_description vias []) as [[|p parts] [u|e]];
      try exact Hs.
    destruct (py_join " | " (p :: parts)); [|exact Hs].
    cbn [fst]. apply Forall_app. split; [exact Hs|].
    now repeat constructor.
  - destruct (py_in "advisories" data) as [[|]|e]; try exact Hacc.
    match goal with |- context [match ?b with _ => _ end] =>
      destruct b as [entries|e] end; [|exact Hacc].
    apply (for_each_invariant
             (Forall (fun f => package_type f = "npm"))); [|exact Hacc].
    intros [id advisory] _ s Hs. unfold npm_v6_advisory.
    destruct (py_get advisory "module_name" (JStr "unknown")) as [m|e];
      [|exact Hs].
    destruct (py_get advisory "title" (JStr "No title")) as [ti|e];
      [|exact Hs].
    destruct (py_get advisory "severity" (JStr "unknown")) as [sv|e];
      [|exact Hs].
    cbn [bind fst]. apply Forall_app. split; [exact Hs|].
    now repeat constructor.
Qed.

Lemma pip_audit_findings_ecosystem (data : json) (acc : list Finding) :
  Forall (fun f => package_type f = "pip") acc ->
  Forall (fun f => package_type f = "pip")
         (fst (pip_audit_findings data acc)).
Proof.
  intro Hacc. unfold pip_audit_findings.
  destruct (py_in "dependencies" data) as [[|]|e]; try exact Hacc.
  match goal with |- context [match ?b with _ => _ end] =>
    destruct b as [deps|e] end; [|exact Hacc].
  apply (for_each_invariant
           (Forall (fun f => package_type f = "pip"))); [|exact Hacc].
  intros dep _ s Hs. unfold pip_audit_dependency.
  match goal with |- context [match ?b with _ => _ end] =>
    destruct b as [[pkg_name vs]|e] end; [|exact Hs].
  apply (for_each_invariant
           (Forall (fun f => package_type f = "pip"))); [|exact Hs].
  intros vuln _ s' Hs'. unfold pip_audit_vuln.
  destruct (py_get vuln "id" (JStr "Unknown CVE")) as [ci|e]; [|exact Hs'].
  destruct (py_get vuln "description" (JStr "No description available"))
    as [d|e]; [|exact Hs'].
  cbn [bind fst]. apply Forall_app. split; [exact Hs'|].
  now repeat constructor.
Qed.

Lemma safety_findings_ecosystem (data : json) (acc : list Finding) :
  Forall (fun f => package_type f = "pip") acc ->
  Forall (fun f => package_type f = "pip") (fst (safety_findings data acc)).
Proof.
  intro Hacc. unfold safety_findings.
  destruct (py_iter data) as [records|e]; [|exact Hacc].
  apply (for_each_invariant
           (Forall (fun f => package_type f = "pip"))); [|exact Hacc].
  intros vuln _ s Hs. rewrite safety_record_finding. cbn [fst].
  apply Forall_app. split; [exact Hs|].
  unfold record_finding. destruct vuln; try constructor.
  destruct (Nat.leb 4 (List.length items)); now repeat constructor.
Qed.

Lemma npm_provider_ecosystem (npm : run_outcome) (found : list Finding) :
  snd (_check_npm_vulnerabilities npm) = Ok found ->
  Forall (fun f => package_type f = "npm") found.
Proof.
  unfold _check_npm_vulnerabilities.
  assert (H := audit_attempt_invariant
                 (Forall (fun f => package_type f = "npm"))
                 npm_findings npm [] npm_findings_ecosystem
                 (Forall_nil _)).
  destruct (except_audit (audit_attempt npm_findings npm []))
    as [v [[|]|e]]; cbn [fst snd] in *; intro E;
    [injection E as <-; exact H | injection E as <-; constructor
    | discriminate].
Qed.

Lemma python_provider_ecosystem (pip_audit safety : run_outcome)
      (found : list Finding) :
  snd (_check_python_vulnerabilities pip_audit safety) = Ok found ->
  Forall (fun f => package_type f = "pip") found.
Proof.
  unfold _check_python_vulnerabilities.
  assert (H := audit_attempt_invariant
                 (Forall (fun f => package_type f = "pip"))
                 pip_audit_findings pip_audit []
                 pip_audit_findings_ecosystem (Forall_nil _)).
  destruct (except_audit (audit_attempt pip_audit_findings pip_audit []))
    as [v [[|]|e]]; cbn [fst snd] in *.
  - intro E. injection E as <-. exact H.
  - assert (H' := audit_attempt_invariant
                    (Forall (fun f => package_type f = "pip"))
                    safety_findings safety v
                    safety_findings_ecosystem H).
    destruct (except_audit (audit_attempt safety_findings safety v))
      as [v' [[|]|e]]; cbn [fst snd] in *; intro E;
      [injection E as <-; exact H' | injection E as <-; constructor
      | discriminate].
  - discriminate.
Qed.

Lemma nvd_provider_ecosystem (available : bool)
      (http : nat -> string -> http_outcome) (t : string)
      (packages : list (string * string)) (found : list Finding) :
  snd (_check_nvd_vulnerabilities available http packages t) = Ok found ->
  Forall (fun f => package_type f = t) found.
Proof.
  unfold _check_nvd_vulnerabilities.
  destruct available; cbn [negb];
    [|intro H; injection H as <-; constructor].
  rewrite nvd_loop_exact. cbn [List.app].
  destruct (loop_end http t (enumerate packages)) as [[]|e];
    cbn [snd]; [|discriminate].
  intro H. injection H as <-.
  apply Forall_flat_map, Forall_forall.
  intros [i p] _.
  eapply Forall_impl; [|apply package_findings_provenance].
  now intros f (Ht & _).
Qed.

Lemma remote_arrivals_ecosystem (w : world) (manifest : string)
      (parse : res string -> res (list (string * string)))
      (t : string) (found : list Finding) :
  remote_arrivals w manifest parse t = Ok found ->
  Forall (fun f => package_type f = t) found.
Proof.
  unfold remote_arrivals.
  destruct (path_exists w manifest);
    [|intro H; injection H as <-; constructor].
  destruct (parse (read_text w manifest)) as [[|p packages]|e]; simpl.
  - intro H. injection H as <-. constructor.
  - apply nvd_provider_ecosystem.
  - discriminate.
Qed.

Lemma both_ok (r1 r2 : res (list Finding)) (vulns : list Finding) :
  both r1 r2 = Ok vulns ->
  exists a b, r1 = Ok a /\ r2 = Ok b /\ vulns = (a ++ b)%list.
Proof.
  unfold both. destruct r1 as [a|e1]; [|discriminate].
  destruct r2 as [b|e2]; [|discriminate].
  simpl. intro H. injection H as <-. now exists a, b.
Qed.

(** X18: every finding a scan returns belongs to one of the two
    ecosystems: its package type is "npm" or "pip", whatever the tools
    and the remote service answered. *)
Theorem scan_findings_ecosystem (w : world) (result : list Finding) :
  snd (scan_directory w) = Ok result ->
  Forall known_ecosystem result.
Proof.
  intro H.
  destruct (scan_delivers_arrivals w result H) as (arrivals & Ha & ->).
  assert (Harr : Forall known_ecosystem arrivals).
  { unfold scan_arrivals in Ha.
    apply both_ok in Ha as (a & rest & Ea & Er & ->).
    apply both_ok in Er as (b & c & Eb & Ec & ->).
    apply Forall_app. split; [|apply Forall_app; split].
    - destruct (path_exists w "package.json").
      + apply npm_provider_ecosystem in Ea.
        eapply Forall_impl; [|exact Ea]. intros f Hf. now left.
      + injection Ea as <-. constructor.
    - destruct (path_exists w "requirements.txt").
      + apply python_provider_ecosystem in Eb.
        eapply Forall_impl; [|exact Eb]. intros f Hf. now right.
      + injection Eb as <-. constructor.
    - destruct (requests_available w);
        [|injection Ec as <-; constructor].
      apply both_ok in Ec as (c1 & c2 & E1 & E2 & ->).
      apply remote_arrivals_ecosystem in E1, E2.
      apply Forall_app. split.
      + eapply Forall_impl; [|exact E1]. intros f Hf. now left.
      + eapply Forall_impl; [|exact E2]. intros f Hf. now right. }
  destruct (dedup_into_extends [] arrivals) as (added & E & Hin & _).
  simpl in E. rewrite E.
  rewrite Forall_forall in Harr |- *.
  intros f Hf. apply Harr. now apply Hin.
Qed.

(** ** Remote provider: where the score and the severity are read *)



End Runtime.

(** * Examples

    The properties above at the sample data. *)

(** ** The orchestrator *)

(** C1 at [flask_project]: CVE-1 arrives twice, from pip-audit and from
    the remote service, and is kept once, where it arrived first. *)
Lemma scan_result_deduplicated_witness :
  exists arrivals,
    scan_arrivals sample_loads sample_str TypeError flask_project
    = Ok arrivals
    /\ [pip_finding "flask" "CVE-1: bad";
        pip_finding "flask" "CVE-2: worse [CVSS: 7.5 - HIGH]"]
       = first_occurrences arrivals
    /\ distinct_keys
         [pip_finding "flask" "CVE-1: bad";
          pip_finding "flask" "CVE-2: worse [CVSS: 7.5 - HIGH]"].
Proof.
  apply (proj1 (scan_result_deduplicated sample_loads sample_str TypeError)
               flask_project).
  reflexivity.
Defined.

(** ** The remote provider *)

(** C2 at [three_packages]: the request for django raises, and the next
    request follows it with no sleep in between; so it is when the body
    of the answer is not JSON; a status other than 200 is followed by the
    sleep. *)
Theorem nvd_no_sleep_after_exception :
  fst (_check_nvd_vulnerabilities sample_loads sample_str TypeError true
         second_request_fails three_packages "pip")
  = [Get "python flask"; Sleep request_delay;
     Get "python django";
     Get "python requests"; Sleep request_delay]
  /\ fst (_check_nvd_vulnerabilities sample_loads sample_str TypeError true
            second_body_not_json three_packages "pip")
     = [Get "python flask"; Sleep request_delay;
        Get "python django";
        Get "python requests"; Sleep request_delay]
  /\ fst (_check_nvd_vulnerabilities sample_loads sample_str TypeError true
            second_status_503 three_packages "pip")
     = [Get "python flask"; Sleep request_delay;
        Get "python django"; Sleep request_delay;
        Get "python requests"; Sleep request_delay].
Proof.
  split; [|split]; vm_compute; reflexivity.
Qed.

(** C6 at [three_packages]: the findings of the first and of the third
    package are returned, and the three packages are queried. *)
Lemma nvd_failure_isolated_witness :
  snd (_check_nvd_vulnerabilities sample_loads sample_str TypeError true
         second_request_fails three_packages "pip")
  = Ok [pip_finding "flask" "CVE-1: bad (Package version: 1.0)";
        pip_finding "flask"
          "CVE-2: worse [CVSS: 7.5 - HIGH] (Package version: 1.0)";
        pip_finding "requests" "CVE-1: bad";
        pip_finding "requests" "CVE-2: worse [CVSS: 7.5 - HIGH]"]
  /\ filter is_get
       (fst (_check_nvd_vulnerabilities sample_loads sample_str TypeError
               true second_request_fails three_packages "pip"))
     = [Get "python flask"; Get "python django"; Get "python requests"].
Proof.
  apply (proj2 (proj2 (nvd_failure_isolated sample_loads sample_str
                         TypeError second_request_fails "pip"
                         three_packages))).
  intros entry [<- | [<- | [<- | []]]]; reflexivity.
Defined.


(** ** The local providers *)

(** C8 when pip-audit is not installed: safety is run and its record is
    read. *)
Lemma python_audit_fallback_witness :
  snd (_check_python_vulnerabilities sample_loads sample_str
         (RunRaises FileNotFoundError)
         (Completed 0 (json_text safety_report)))
  = Ok [pip_finding "flask" "bad thing"].
Proof.
  apply (proj1 (proj2 (proj2 (proj2
           (python_audit_fallback sample_loads sample_str
              (RunRaises FileNotFoundError)
              (Completed 0 (json_text safety_report))))))
           eq_refl 0%Z (json_text safety_report)
           [JArr [JStr "flask"; JStr "<1.0"; JStr "0.12"; JStr "bad thing";
                  JStr "36388"]]);
    [reflexivity | discriminate | reflexivity].
Defined.

(** C9 when npm audit exits with status 1 and prints its report. *)
Lemma exit_status_never_inspected_witness :
  snd (_check_npm_vulnerabilities sample_loads sample_str
         (Completed 1 (json_text npm_report)))
  = returning (npm_findings sample_str npm_report []).
Proof.
  apply (proj1 (proj2 (proj2 (proj2
           (exit_status_never_inspected sample_loads sample_str 1 0
              (json_text npm_report) (RunRaises FileNotFoundError)))))
           npm_report);
    [discriminate | reflexivity].
Defined.

(** ** The manifests *)

(** C3: the JSON manifest parser wraps the whole reading of the manifest
    in a [try] whose [except] clause passes, and gives the empty list for
    a missing file and for a text that is not JSON; but the clause names
    [JSONDecodeError], [FileNotFoundError] and [KeyError] only, so on a
    manifest that holds valid JSON of another shape (here the array [[]],
    on which [data.get] raises [AttributeError]) and on bytes that cannot
    be decoded the exception leaves the parser, and the scan with it:
    the caller of the orchestrator sees the exception, not an empty
    result. *)
Theorem parse_package_json_shape_error_escapes :
  _parse_package_json sample_loads (Ok "[]") = Err AttributeError
  /\ _parse_package_json sample_loads (Err UnicodeDecodeError)
     = Err UnicodeDecodeError
  /\ _parse_package_json sample_loads (Ok "{not json") = Ok []
  /\ _parse_package_json sample_loads (Err FileNotFoundError) = Ok []
  /\ scan_directory sample_loads sample_str TypeError array_manifest_project
     = ([Run NpmAudit], Err AttributeError).
Proof. repeat split; reflexivity. Qed.

(** [parse_package_json_returns] at [package_manifest]. *)
Lemma parse_package_json_returns_witness :
  _parse_package_json sample_loads (Ok (json_text package_manifest))
  = Ok [("left-pad", "1.0.0"); ("jest", "29.0.0 30.0.0")].
Proof.
  apply (proj2 (proj2 (proj2 (parse_package_json_returns sample_loads)))
           (json_text package_manifest)
           [("name", JStr "demo");
            ("dependencies", JObj [("left-pad", JStr "^1.0.0")]);
            ("devDependencies", JObj [("jest", JStr ">=29.0.0 <30.0.0")])]);
    reflexivity.
Defined.

(** C4 as stated fails on an editable install and on a URL: each begins
    with a name token and is appended with an empty version. *)
Lemma editable_and_url_lines_not_skipped :
  parse_requirement_line "-e ./src" = [("-e", EmptyString)]
  /\ parse_requirement_line "https://example.com/pkg.tar.gz"
     = [("https", EmptyString)]
  /\ parse_requirement_line "-e ./src" <> []
  /\ parse_requirement_line "https://example.com/pkg.tar.gz" <> [].
Proof.
  repeat split; try reflexivity; discriminate.
Qed.

(** C4 at a URL and at a path. *)
Lemma requirement_line_emission_witness :
  parse_requirement_line "https://example.com/pkg.tar.gz"
  = [("https", EmptyString)]
  /\ parse_requirement_line "./src" = [].
Proof.
  split.
  - apply (proj1 (proj2 (proj2 (proj2
             (requirement_line_emission "https://example.com/pkg.tar.gz"))))
             "example.com/pkg.tar.gz").
    reflexivity.
  - apply (proj2 (proj1 (proj2 (proj2
             (requirement_line_emission "./src"))))).
    reflexivity.
Defined.

(** C5 as stated fails on a range with two bounds: the operator of the
    second bound is removed too. *)
Lemma clean_version_drops_later_operator :
  clean_version ">=1.0.0 <2.0.0" = "1.0.0 2.0.0"
  /\ strip_leading_operators ">=1.0.0 <2.0.0" = "1.0.0 <2.0.0"
  /\ clean_version ">=1.0.0 <2.0.0"
     <> strip_leading_operators ">=1.0.0 <2.0.0".
Proof.
  repeat split; try reflexivity; discriminate.
Qed.

(** C5 at a caret range. *)
Lemma clean_version_removes_every_operator_witness :
  clean_version "^1.0.0" = py_strip "1.0.0".
Proof.
  apply (proj2 (proj2 (proj2 (proj2
           (clean_version_removes_every_operator "^1.0.0"))))
           "^" "1.0.0");
    reflexivity.
Defined.

(** C10 at a manifest of two lines. *)
Lemma requirements_pairs_well_formed_witness :
  ("foo" <> EmptyString /\ all_chars is_name_char "foo")
  /\ ("1.2.3" = EmptyString
      \/ ("1.2.3" <> EmptyString /\ all_chars is_version_char "1.2.3")).
Proof.
  apply (requirements_pairs_well_formed
           (Ok ("foo>=1.2.3" ++ String newline "bar"))
           [("foo", "1.2.3"); ("bar", EmptyString)]);
    [reflexivity | now left].
Defined.

(** ** Further properties *)

(** X1 at a line with two bounds. *)
Lemma requirement_first_version_only_witness :
  parse_requirement_line "foo >= 1.0, < 2.0" = [("foo", "1.0")].
Proof.
  apply (requirement_first_version_only "foo >= 1.0, < 2.0"
           "foo" " " ">=" " " "1.0" ", < 2.0");
    first [reflexivity | discriminate].
Defined.

(** X4 at [package_manifest]. *)
Lemma package_json_reference_count_witness :
  exists packages,
    _parse_package_json sample_loads (Ok (json_text package_manifest))
    = Ok packages
    /\ map fst packages = (["left-pad"] ++ ["jest"])%list
    /\ List.length packages = 1 + 1
    /\ Forall (fun p => all_chars not_range_char (snd p)
                        /\ py_strip (snd p) = snd p) packages.
Proof.
  apply (package_json_reference_count sample_loads
           (json_text package_manifest)
           [("name", JStr "demo");
            ("dependencies", JObj [("left-pad", JStr "^1.0.0")]);
            ("devDependencies", JObj [("jest", JStr ">=29.0.0 <30.0.0")])]);
    reflexivity.
Defined.

(** X5 at [sample_v7_report], printed with exit status 1. *)
Lemma npm_v7_report_findings_witness :
  _check_npm_vulnerabilities
    (loads_as (encode_npm_report sample_v7_report)) sample_str
    (Completed 1 (json_text (encode_npm_report sample_v7_report)))
  = ([Run NpmAudit],
     Ok [npm_finding "left-pad"
           "CVE-1: bad - https://example.com/1 | worse"]).
Proof.
  apply (npm_v7_report_findings
           (loads_as (encode_npm_report sample_v7_report)) sample_str 1
           (json_text (encode_npm_report sample_v7_report))
           [("auditReportVersion", JNum version_two);
            ("vulnerabilities", encode_npm_vulnerabilities sample_v7_report);
            ("metadata", JObj [])]
           sample_v7_report);
    [vm_compute; discriminate | reflexivity | reflexivity].
Defined.

(** X6 at [sample_v6_report]. *)
Lemma npm_v6_report_findings_witness :
  _check_npm_vulnerabilities
    (loads_as (encode_npm_v6_report sample_v6_report)) sample_str
    (Completed 1 (json_text (encode_npm_v6_report sample_v6_report)))
  = ([Run NpmAudit],
     Ok [npm_finding "minimist" "Prototype Pollution - Severity: low";
         npm_finding "unknown" "No title - Severity: unknown"]).
Proof.
  apply (npm_v6_report_findings
           (loads_as (encode_npm_v6_report sample_v6_report)) sample_str 1
           (json_text (encode_npm_v6_report sample_v6_report))
           [("actions", JArr []);
            ("advisories", encode_npm_advisories sample_v6_report);
            ("metadata", JObj [])]
           sample_v6_report);
    [vm_compute; discriminate | reflexivity | reflexivity | reflexivity].
Defined.

(** X7 at [sample_pip_report], whatever the second tool would do. *)
Lemma pip_audit_report_findings_witness :
  _check_python_vulnerabilities
    (loads_as (encode_pip_report sample_pip_report)) sample_str
    (Completed 1 (json_text (encode_pip_report sample_pip_report)))
    (RunRaises PermissionError)
  = ([Run PipAudit],
     Ok [pip_finding "flask" "CVE-1: bad";
         pip_finding "flask" "Unknown CVE: No description available"]).
Proof.
  apply (pip_audit_report_findings
           (loads_as (encode_pip_report sample_pip_report)) sample_str 1
           (json_text (encode_pip_report sample_pip_report))
           [("dependencies", encode_pip_dependencies sample_pip_report);
            ("fixes", JArr [])]
           sample_pip_report (RunRaises PermissionError));
    [vm_compute; discriminate | reflexivity | reflexivity].
Defined.

(** X8 at [nvd_response]. *)
Lemma nvd_response_findings_witness :
  package_effect sample_loads sample_str TypeError
                 (fun _ _ => Response 200 (json_text nvd_response))
                 "npm" (0, ("left-pad", "1.0.0"))
  = (([Get "npm left-pad"; Sleep request_delay],
      [npm_finding "left-pad" "CVE-1: bad (Package version: 1.0.0)";
       npm_finding "left-pad"
         "CVE-2: worse [CVSS: 7.5 - HIGH] (Package version: 1.0.0)"]),
     Ok tt).
Proof.
  apply (nvd_response_findings sample_loads sample_str TypeError
           (fun _ _ => Response 200 (json_text nvd_response))
           "npm" 0 ("left-pad", "1.0.0") (json_text nvd_response)
           [("vulnerabilities",
             encode_records [plain_record; v2_only_record])]
           [plain_record; v2_only_record]);
    reflexivity.
Defined.

(** X9 at [odd_response]: the record before the odd one is kept, the one
    after it is not read. *)
Lemma nvd_partial_findings_kept_witness :
  package_effect (loads_as odd_response) sample_str TypeError
                 (fun _ _ => Response 200 (json_text odd_response))
                 "pip" (0, ("flask", EmptyString))
  = (([Get "python flask"], [pip_finding "flask" "CVE-1: bad"]), Ok tt).
Proof.
  apply (nvd_partial_findings_kept (loads_as odd_response) sample_str
           TypeError
           (fun _ _ => Response 200 (json_text odd_response))
           "pip" 0 ("flask", EmptyString) (json_text odd_response)
           [("vulnerabilities",
             JArr [encode_record plain_record; odd_metrics_record;
                   encode_record v2_only_record])]
           [plain_record] odd_metrics_record
           [encode_record v2_only_record] KeyError);
    reflexivity.
Defined.

(** X11 when the service answers the first request with the body
    [null]. *)
Lemma nvd_exception_ends_batch_witness :
  nvd_caught TypeError = false
  /\ exists n p,
      nth_error three_packages n = Some p
      /\ snd (package_effect (loads_as JNull) sample_str TypeError
                (fun _ _ => Response 200 "null") "pip" (n, p))
         = Err TypeError
      /\ filter is_get
           (fst (_check_nvd_vulnerabilities (loads_as JNull) sample_str
                   TypeError true (fun _ _ => Response 200 "null")
                   three_packages "pip"))
         = map (fun p => Get (keyword_of "pip" p))
               (firstn (S n) three_packages).
Proof.
  apply (nvd_exception_ends_batch (loads_as JNull) sample_str TypeError
           (fun _ _ => Response 200 "null") "pip" three_packages TypeError).
  reflexivity.
Defined.

(** X12 at [three_packages]. *)
Lemma nvd_findings_provenance_witness :
  Forall (nvd_provenance "pip" three_packages)
         [pip_finding "flask" "CVE-1: bad (Package version: 1.0)";
          pip_finding "flask"
            "CVE-2: worse [CVSS: 7.5 - HIGH] (Package version: 1.0)";
          pip_finding "requests" "CVE-1: bad";
          pip_finding "requests" "CVE-2: worse [CVSS: 7.5 - HIGH]"].
Proof.
  apply (nvd_findings_provenance sample_loads sample_str TypeError true
           second_request_fails "pip" three_packages).
  reflexivity.
Defined.

(** X14 at [flask_project]. *)
Lemma scan_keeps_every_key_witness :
  exists arrivals,
    scan_arrivals sample_loads sample_str TypeError flask_project
    = Ok arrivals
    /\ (forall f,
          In f [pip_finding "flask" "CVE-1: bad";
                pip_finding "flask" "CVE-2: worse [CVSS: 7.5 - HIGH]"] ->
          In f arrivals)
    /\ (forall a,
          In a arrivals ->
          exists f,
            In f [pip_finding "flask" "CVE-1: bad";
                  pip_finding "flask" "CVE-2: worse [CVSS: 7.5 - HIGH]"]
            /\ same_key a f = true)
    /\ List.length
         [pip_finding "flask" "CVE-1: bad";
          pip_finding "flask" "CVE-2: worse [CVSS: 7.5 - HIGH]"]
       <= List.length arrivals.
Proof.
  apply (scan_keeps_every_key sample_loads sample_str TypeError
           flask_project).
  reflexivity.
Defined.

(** X15 at [list_description_project]. *)
Lemma scan_unhashable_key_raises_witness :
  scan_directory (loads_as list_description_report) sample_str TypeError
                 list_description_project
  = ([Run PipAudit; Run SafetyCheck], Err TypeError).
Proof.
  apply (scan_unhashable_key_raises (loads_as list_description_report)
           sample_str TypeError list_description_project
           [{| package_type := "pip";
               package := JStr "flask";
               description := JArr [JStr "bad"; JStr "thing"] |}]);
    reflexivity.
Defined.


(** X18 at [flask_project]. *)
Lemma scan_findings_ecosystem_witness :
  Forall known_ecosystem
         [pip_finding "flask" "CVE-1: bad";
          pip_finding "flask" "CVE-2: worse [CVSS: 7.5 - HIGH]"].
Proof.
  apply (scan_findings_ecosystem sample_loads sample_str TypeError
           flask_project).
  reflexivity.
Defined.


